(** * Bibliography taxonomy builder: the entry parser, the category walker,
      the build driver and the folder initializer

    A shallow embedding of [scripts/build_taxonomies.py] and
    [scripts/setup_folders.py].

    - A Python [str] is a sequence of Unicode code points: a [list N].
    - The [re] calls are run by a small backtracking matcher over the
      constructs the patterns of the scripts use.  Its result lists are in
      the priority order of Python's engine, so the first element is what
      [re.match] and [re.search] return.
    - Directories are finite maps from names to nodes.  The file system
      grants every operation that the kinds of the nodes allow: a call
      fails only for a path that is not a directory, a broken link, a file
      that cannot be read as text, or a directory where a file is to be
      written.  Failures that depend on the machine (permissions, a full
      disk) are outside the model; the properties below that say when the
      folder initializer or the build driver raises give causes that are
      enough, not all causes. *)

From Stdlib Require Import NArith Ascii String List Bool Lia.
From stdpp Require Import base option list gmap sorting.

Local Open Scope N_scope.

(** ** Text *)

Abbreviation text := (list N).

(** A literal of the source, as code points. *)
Definition ch (a : ascii) : N := N_of_ascii a.
Definition str (s : string) : text := map N_of_ascii (list_ascii_of_string s).
Arguments ch _%_char : simpl never.
Arguments str _%_string.

(** ** Character classes *)

(** [Py_UNICODE_ISSPACE]: what [\s] matches in a [str] pattern and what
    [str.strip()] removes. *)
Definition isspace (c : N) : bool :=
  (9 <=? c) && (c <=? 13) || (28 <=? c) && (c <=? 32)
  || (c =? 0x85) || (c =? 0xA0) || (c =? 0x1680)
  || (0x2000 <=? c) && (c <=? 0x200A)
  || (c =? 0x2028) || (c =? 0x2029) || (c =? 0x202F) || (c =? 0x205F)
  || (c =? 0x3000).

Definition ascii_isalnum (c : N) : bool :=
  (48 <=? c) && (c <=? 57) || (65 <=? c) && (c <=? 90)
  || (97 <=? c) && (c <=? 122).

Definition ascii_isdecimal (c : N) : bool := (48 <=? c) && (c <=? 57).

Definition ascii_isalpha (c : N) : bool :=
  (65 <=? c) && (c <=? 90) || (97 <=? c) && (c <=? 122).

Definition ascii_lower (c : N) : N :=
  if (65 <=? c) && (c <=? 90) then c + 32 else c.

Definition ascii_upper (c : N) : N :=
  if (97 <=? c) && (c <=? 122) then c - 32 else c.

(** [str.title()] on ASCII text, as the interpreter computes it: one pass
    from the left; a character that follows a letter is lower-cased, any
    other is upper-cased. *)
Fixpoint title_from (previous_is_cased : bool) (s : text) : text :=
  match s with
  | [] => []
  | c :: s' =>
      (if previous_is_cased then ascii_lower c else ascii_upper c)
        :: title_from (ascii_isalpha c) s'
  end.

Definition ascii_title (s : text) : text := title_from false s.

(** What the scripts take from the Unicode character database: the tables
    behind [\w] and [\d] ([str.isalnum] and [str.isdecimal] on one
    character) and [str.title()].  Their rows outside ASCII depend on the
    Unicode version of the interpreter; the ASCII rows of the two tables
    are fixed. *)
Class UnicodeData := {
  isalnum : N -> bool;
  isdecimal : N -> bool;
  str_title : text -> text;
  isalnum_ascii : forall c, c < 128 -> isalnum c = ascii_isalnum c;
  isdecimal_ascii : forall c, c < 128 -> isdecimal c = ascii_isdecimal c;
  isspace_not_decimal : forall c, isspace c = true -> isdecimal c = false
}.

(** One inhabitant: the ASCII rows alone, as a pattern compiled with
    [re.ASCII] would consult them, and [str.title()] as it is on ASCII
    text.  The closed examples run with it. *)
#[export] Instance ascii_tables : UnicodeData.
Proof.
  refine {| isalnum := fun c => (c <? 128) && ascii_isalnum c;
            isdecimal := fun c => (c <? 128) && ascii_isdecimal c;
            str_title := ascii_title |}.
  - intros c Hc. apply N.ltb_lt in Hc. now rewrite Hc.
  - intros c Hc. apply N.ltb_lt in Hc. now rewrite Hc.
  - intros c Hc. unfold ascii_isdecimal.
    destruct (N.leb_spec0 48 c) as [H1|]; [|now rewrite andb_false_r].
    destruct (N.leb_spec0 c 57) as [H2|]; [|now rewrite andb_false_r].
    exfalso. revert Hc. unfold isspace.
    repeat match goal with
    | |- context [N.eqb ?a ?b] => destruct (N.eqb_spec a b); [lia|]
    | |- context [N.leb ?a ?b] => destruct (N.leb_spec0 a b); try lia
    end; discriminate.
Defined.

(** A pattern character [l] (ASCII, as all in these scripts) against a text
    character [c] under [re.IGNORECASE]: [c] lower-cases to [l], or is one
    of the characters the engine adds to [i], [k] and [s] (dotted and
    dotless i, the Kelvin sign, the long s). *)
Definition ignorecase_eq (l c : N) : bool :=
  let lo := ascii_lower l in
  (ascii_lower c =? lo)
  || (lo =? ch "i") && ((c =? 0x130) || (c =? 0x131))
  || (lo =? ch "k") && (c =? 0x212A)
  || (lo =? ch "s") && (c =? 0x17F).

(** ** Patterns *)

Inductive charset :=
| Literal (c : N)
| NotLiteral (c : N)
| CategoryWord
| CategorySpace
| CategoryDigit
| AnyChar.

Inductive node :=
| AtBeginning
| One (c : charset)
| MaxRepeat (lo : nat) (hi : option nat) (c : charset)
| Group (n : node).

Abbreviation pattern := (list node).

Record flags := { IGNORECASE : bool; DOTALL : bool }.

Definition no_flags : flags := {| IGNORECASE := false; DOTALL := false |}.
Definition ignorecase : flags := {| IGNORECASE := true; DOTALL := false |}.
Definition ignorecase_dotall : flags := {| IGNORECASE := true; DOTALL := true |}.

Definition star := MaxRepeat 0 None.
Definition plus := MaxRepeat 1 None.
Definition opt := MaxRepeat 0 (Some 1%nat).
Definition exactly (k : nat) := MaxRepeat k (Some k).
Definition literal (s : string) : pattern := map (fun c => One (Literal c)) (str s).
Arguments literal _%_string.

(** A match: the text matched, the groups captured in it, and the text left. *)
Abbreviation outcome := (text * list text * text)%type.

Section Engine.
Context {ucd : UnicodeData}.

Definition in_charset (fl : flags) (cs : charset) (c : N) : bool :=
  match cs with
  | Literal l => if IGNORECASE fl then ignorecase_eq l c else c =? l
  | NotLiteral l => negb (if IGNORECASE fl then ignorecase_eq l c else c =? l)
  | CategoryWord => isalnum c || (c =? ch "_")
  | CategorySpace => isspace c
  | CategoryDigit => isdecimal c
  | AnyChar => DOTALL fl || negb (c =? 10)
  end.

(** Greedy repetition of a one-character class: the longest run first,
    then each shorter one down to [lo] characters. *)
Fixpoint max_repeat (ok : N -> bool) (lo : nat) (hi : option nat) (s : text)
  : list (text * text) :=
  match s with
  | c :: s' =>
      if ok c && negb (bool_decide (hi = Some 0%nat))
      then map (fun mr => (c :: mr.1, mr.2))
               (max_repeat ok (Nat.pred lo) (Nat.pred <$> hi) s')
      else []
  | [] => []
  end ++ match lo with O => [([], s)] | S _ => [] end.

Fixpoint match_node (fl : flags) (n : node) (pos : nat) (s : text)
  : list outcome :=
  match n with
  | AtBeginning => match pos with O => [([], [], s)] | S _ => [] end
  | One cs =>
      match s with
      | c :: s' => if in_charset fl cs c then [([c], [], s')] else []
      | [] => []
      end
  | MaxRepeat lo hi cs =>
      map (fun mr => (mr.1, [], mr.2)) (max_repeat (in_charset fl cs) lo hi s)
  | Group n' =>
      map (fun o : outcome => (o.1.1, o.1.1 :: o.1.2, o.2))
          (match_node fl n' pos s)
  end.

(** The nodes of a pattern in sequence; a later node is tried on every
    way the earlier ones matched, in order (backtracking). *)
Fixpoint match_seq (fl : flags) (p : pattern) (pos : nat) (s : text)
  : list outcome :=
  match p with
  | [] => [([], [], s)]
  | n :: p' =>
      flat_map
        (fun o1 : outcome =>
           map (fun o2 : outcome =>
                  (o1.1.1 ++ o2.1.1, o1.1.2 ++ o2.1.2, o2.2))
               (match_seq fl p' (pos + length o1.1.1) o1.2))
        (match_node fl n pos s)
  end.

(** A match object: group 0 (the whole match) followed by the groups. *)
Definition first_match (os : list outcome) : option (list text) :=
  match os with
  | o :: _ => Some (o.1.1 :: o.1.2)
  | [] => None
  end.

(** [re.match(p, s, flags)] *)
Definition re_match (p : pattern) (s : text) (fl : flags) : option (list text) :=
  first_match (match_seq fl p 0 s).

(** [re.search(p, s, flags)]: the first start position, from the left,
    at which the pattern matches. *)
Fixpoint search_from (fl : flags) (p : pattern) (pos : nat) (s : text)
  : option (list text) :=
  match first_match (match_seq fl p pos s) with
  | Some m => Some m
  | None =>
      match s with
      | [] => None
      | _ :: s' => search_from fl p (S pos) s'
      end
  end.

Definition re_search (p : pattern) (s : text) (fl : flags) : option (list text) :=
  search_from fl p 0 s.

Definition group (k : nat) (m : list text) : text := nth k m [].

(** ** [str.strip()] *)

Fixpoint lstrip (s : text) : text :=
  match s with
  | c :: s' => if isspace c then lstrip s' else s
  | [] => []
  end.

Definition rstrip (s : text) : text := rev (lstrip (rev s)).

Definition strip (s : text) : text := rstrip (lstrip s).

(** ** The patterns of [parse_bibtex_entry] *)

(** [^@(\w+)\{([^,]+),] *)
Definition id_re : pattern :=
  [AtBeginning; One (Literal (ch "@")); Group (plus CategoryWord);
   One (Literal (ch "{")); Group (plus (NotLiteral (ch ",")));
   One (Literal (ch ","))].

(** [name\s*=\s*\{([^}]+)\}], the shape of the patterns for title,
    author, journal, booktitle and abstract. *)
Definition brace_field_re (name : string) : pattern :=
  literal name ++
  [star CategorySpace; One (Literal (ch "=")); star CategorySpace;
   One (Literal (ch "{")); Group (plus (NotLiteral (ch "}")));
   One (Literal (ch "}"))].

Definition title_re : pattern := brace_field_re "title".
Definition author_re : pattern := brace_field_re "author".
Definition journal_re : pattern := brace_field_re "journal".
Definition booktitle_re : pattern := brace_field_re "booktitle".
Definition abstract_re : pattern := brace_field_re "abstract".

(** [year\s*=\s*\{?(\d{4})\}?] *)
Definition year_re : pattern :=
  literal "year" ++
  [star CategorySpace; One (Literal (ch "=")); star CategorySpace;
   opt (Literal (ch "{")); Group (exactly 4 CategoryDigit);
   opt (Literal (ch "}"))].

End Engine.

(** ** Citation records *)

Module Entry.
Record t := make {
  id : text;
  title : text;
  authors : text;
  year : text;
  venue : text;
  abstract : text;
  bibtex : text
}.
End Entry.

Definition abstract_placeholder : text := str "Abstract not available.".

(** The entry text of the scenario of the specification. *)
Definition scenario_text : text :=
  str "@article{foo2020, title = {Deep Learning}, author = {Jane Doe}, year = {2020}, journal = {Nature}}".

Section Parser.
Context {ucd : UnicodeData}.

Definition parse_bibtex_entry (bib_content : text) : Entry.t :=
  let match_ := re_match id_re bib_content no_flags in
  let title_match := re_search title_re bib_content ignorecase in
  let author_match := re_search author_re bib_content ignorecase in
  let year_match := re_search year_re bib_content ignorecase in
  let journal_match := re_search journal_re bib_content ignorecase in
  let booktitle_match := re_search booktitle_re bib_content ignorecase in
  let abstract_match := re_search abstract_re bib_content ignorecase_dotall in
  {| Entry.id :=
       match match_ with Some m => strip (group 2 m) | None => [] end;
     Entry.title :=
       match title_match with Some m => strip (group 1 m) | None => [] end;
     Entry.authors :=
       match author_match with Some m => strip (group 1 m) | None => [] end;
     Entry.year :=
       match year_match with Some m => group 1 m | None => [] end;
     Entry.venue :=
       match journal_match with
       | Some m => strip (group 1 m)
       | None =>
           match booktitle_match with
           | Some m => strip (group 1 m)
           | None => []
           end
       end;
     Entry.abstract :=
       match abstract_match with
       | Some m => strip (group 1 m)
       | None => abstract_placeholder
       end;
     Entry.bibtex := strip bib_content |}.

End Parser.

(** ** Category metadata *)

(** [CATEGORY_INFO], in the order of the source. *)
Definition CATEGORY_INFO : list (text * (text * text)) :=
  [(str "surveys",
    (str "Surveys and Bibliometric Analyses",
     str "Literature and systematic reviews of long-tailed learning in healthcare"));
   (str "data-balancing",
    (str "Data Balancing",
     str "Resampling and synthetic data generation techniques for addressing class imbalance"));
   (str "neural-architecture",
    (str "Neural Architecture",
     str "Specialized network designs and architectural modifications for imbalanced data"));
   (str "feature-enrichment",
    (str "Feature Enrichment",
     str "Representation learning to produce more discriminative embeddings for minority classes"));
   (str "logits-adjustment",
    (str "Logits Adjustment",
     str "Modify classifier outputs to compensate for class frequency disparities"));
   (str "loss-functions",
    (str "Loss Functions",
     str "Loss function design for class-imbalanced learning"));
   (str "foundation-models",
    (str "Foundation Models",
     str "Addressing long-tailed distributions through transfer learning and efficient adaptation."));
   (str "multimodality",
    (str "Multi-modality",
     str "Multi-modal learning approaches addressing missing modalities and class imbalance"));
   (str "fairness",
    (str "Fairness, Bias, and Health Equity",
     str "Methods addressing demographic imbalances and algorithmic fairness in healthcare"));
   (str "rare-disease",
    (str "Rare Disease and Epidemiological Modeling",
     str "Specialized approaches for extremely rare conditions and few-shot medical scenarios"))].

(** [CATEGORIES] of [setup_folders.py] repeats the table entry for entry. *)
Definition CATEGORIES : list (text * (text * text)) := CATEGORY_INFO.

(** [key in table] *)
Definition known_category (table : list (text * (text * text))) (key : text) : bool :=
  bool_decide (key ∈ table.*1).

(** [table.get(key, default)] *)
Fixpoint dict_get (table : list (text * (text * text))) (key : text)
  (default : text * text) : text * text :=
  match table with
  | [] => default
  | (k, v) :: table' => if bool_decide (k = key) then v else dict_get table' key default
  end.

(** ** The file system *)

(** What a path holds: nothing, something that is not a directory, or a
    directory with its entries by name. *)
Inductive path_state (A : Type) :=
| Missing
| NotDirectory
| Directory (entries : gmap text A).
Arguments Missing {A}.
Arguments NotDirectory {A}.
Arguments Directory {A} entries.

(** An entry of a category folder.  [RegularFile (Some s)]: opening the
    file as UTF-8 text and reading it gives [s]; [RegularFile None]: that
    raises. *)
Inductive file_node :=
| RegularFile (content : option text)
| Subdirectory.

(** An entry of the citations directory. *)
Inductive root_node :=
| PlainFile
| Folder (entries : gmap text file_node)
| BrokenLink.

Record Taxonomy := {
  category : text;
  description : text;
  papers : list Entry.t
}.

(** An entry of the output directory. *)
Inductive out_node :=
| JsonFile (document : Taxonomy)
| OtherFile
| OutSubdirectory.

(** [Path.iterdir()]: the names in a directory, in the order the operating
    system gives them. *)
Definition iterdir {A} (d : gmap text A) : list text := (map_to_list d).*1.

(** [Path.mkdir(exist_ok=True)] on a path whose parent exists and can be
    written to: the entries of the directory afterwards, or [None] when
    the path holds something that is not a directory. *)
Definition mkdir_exist_ok {A} (p : path_state A) : option (gmap text A) :=
  match p with
  | Missing => Some ∅
  | NotDirectory => None
  | Directory d => Some d
  end.

(** Order of [str], and of POSIX paths in one directory: code point by
    code point. *)
Fixpoint text_leb (a b : text) : bool :=
  match a, b with
  | [], _ => true
  | _ :: _, [] => false
  | x :: a', y :: b' => (x <? y) || (x =? y) && text_leb a' b'
  end.

Definition text_le (a b : text) : Prop := text_leb a b = true.

#[export] Instance text_le_dec : RelDecision text_le.
Proof. intros a b. unfold text_le. apply _. Defined.

(** [sorted(paths)] *)
Definition sorted (names : list text) : list text := merge_sort text_le names.

(** [folder.glob('*.bib')]: the entries, files or not, whose name ends in
    [.bib]. *)
Definition glob_bib (folder : gmap text file_node) : list text :=
  filter (fun name => str ".bib" `suffix_of` name) (iterdir folder).

(** [open(path, 'r', encoding='utf-8').read()] *)
Definition read_text (folder : gmap text file_node) (name : text) : option text :=
  match folder !! name with
  | Some (RegularFile content) => content
  | _ => None
  end.

Definition str_replace (old new : N) (s : text) : text :=
  map (fun c => if c =? old then new else c) s.

Section Builder.
Context {ucd : UnicodeData}.

(** [None]: an exception leaves the function. *)
Definition process_category (category_name : text) (category_folder : gmap text file_node)
  : option Taxonomy :=
  let category_data :=
    dict_get CATEGORY_INFO category_name
      (str_title (str_replace (ch "-") (ch " ") category_name), []) in
  let bib_files := sorted (glob_bib category_folder) in
  papers ← mapM (fun bib_file =>
                   bib_content ← read_text category_folder bib_file;
                   Some (parse_bibtex_entry bib_content)) bib_files;
  Some {| category := category_data.1;
          description := category_data.2;
          papers := papers |}.

(** The loop of [build_all_taxonomies] over the sorted names: the output
    directory afterwards, and [stats], or [None] if an exception ended it:
    [process_category] raised, or [open(output_file, 'w')] found a
    directory under that name. *)
Fixpoint build_loop (citations : gmap text root_node) (names : list text)
  (output : gmap text out_node) (stats : gmap text nat)
  : gmap text out_node * option (gmap text nat) :=
  match names with
  | [] => (output, Some stats)
  | name :: names' =>
      match citations !! name with
      | Some (Folder entries) =>
          if known_category CATEGORY_INFO name then
            match process_category name entries with
            | None => (output, None)
            | Some taxonomy =>
                let output_file := name ++ str ".json" in
                match output !! output_file with
                | Some OutSubdirectory => (output, None)
                | _ =>
                    build_loop citations names'
                      (<[output_file := JsonFile taxonomy]> output)
                      (<[name := length (papers taxonomy)]> stats)
                end
            end
          else build_loop citations names' output stats
      | _ => build_loop citations names' output stats
      end
  end.

Definition build_all_taxonomies (citations_dir : path_state root_node)
  (output_dir : path_state out_node)
  : path_state root_node * path_state out_node * option (gmap text nat) :=
  match mkdir_exist_ok citations_dir with
  | None => (citations_dir, output_dir, None)
  | Some citations =>
      match mkdir_exist_ok output_dir with
      | None => (Directory citations, output_dir, None)
      | Some output =>
          let r := build_loop citations (sorted (iterdir citations)) output ∅ in
          (Directory citations, Directory r.1, r.2)
      end
  end.

End Builder.

(** ** [setup_folders.py] *)

(** The loop of [main] over the category names: the citations directory
    afterwards, and the counts [(created, existing)], or [None] if
    [mkdir] raised because the name is there ([exists()] is false for a
    broken link, which [mkdir] still finds in its way). *)
Fixpoint setup_loop (names : list text) (citations : gmap text root_node)
  (created existing : nat) : gmap text root_node * option (nat * nat) :=
  match names with
  | [] => (citations, Some (created, existing))
  | folder_name :: names' =>
      match citations !! folder_name with
      | Some BrokenLink => (citations, None)
      | Some _ => setup_loop names' citations created (S existing)
      | None =>
          setup_loop names' (<[folder_name := Folder ∅]> citations)
                     (S created) existing
      end
  end.

Definition setup_folders_main (citations_dir : path_state root_node)
  : path_state root_node * option (nat * nat) :=
  match mkdir_exist_ok citations_dir with
  | None => (citations_dir, None)
  | Some citations =>
      let r := setup_loop (CATEGORIES.*1) citations 0 0 in
      (Directory r.1, r.2)
  end.

(** ** Vocabulary of the properties *)

(** An ASCII character that is not a letter: as a pattern character it
    matches itself only, under either flag. *)
Definition uncased (l : N) : Prop := l < 65 \/ 90 < l < 97 \/ 122 < l < 128.

(** The text stops the run: it is empty or starts outside the class. *)
Definition stops (ok : N -> bool) (r : text) : Prop :=
  match r with
  | [] => True
  | c :: _ => ok c = false
  end.

(** An outcome of the rest of a pattern, after [m] was matched and the
    groups [g] captured. *)
Definition prepend (m : text) (g : list text) (o : outcome) : outcome :=
  (m ++ o.1.1, g ++ o.1.2, o.2).

(** [p] cannot start on a character of the class [ok]. *)
Definition refuses {ucd : UnicodeData} (fl : flags) (p : pattern) (ok : N -> bool) : Prop :=
  forall pos c s, ok c = true -> match_seq fl p pos (c :: s) = [].

(** White space only. *)
Definition spaces (ws : text) : Prop := Forall (fun c => isspace c = true) ws.

(** [name] spells the field name [f], in any case. *)
Definition ci_name (f : string) (name : text) : Prop :=
  Forall2 (fun l c => ignorecase_eq l c = true) (str f) name.

(** The text [s] starts with [f = {v}], and [post] follows the closing
    brace: the name in any case, optional white space around the equals
    sign, a value [v] of at least one character without a closing brace. *)
Definition brace_field_here (f : string) (s v post : text) : Prop :=
  exists name ws1 ws2,
    s = name ++ ws1 ++ ch "=" :: ws2 ++ ch "{" :: v ++ ch "}" :: post /\
    ci_name f name /\ spaces ws1 /\ spaces ws2 /\ v <> [] /\ ch "}" ∉ v.

(** The tail of the field patterns, after the name. *)
Definition brace_tail : pattern :=
  [star CategorySpace; One (Literal (ch "=")); star CategorySpace;
   One (Literal (ch "{")); Group (plus (NotLiteral (ch "}")));
   One (Literal (ch "}"))].

(** [here s v] says that a text [s] starts with an item of value [v].
    Scanning [t] from the left, the first item has value [v]. *)
Definition first_at (here : text -> text -> Prop) (t v : text) : Prop :=
  exists i, here (drop i t) v /\
    forall j v', (j < i)%nat -> ~ here (drop j t) v'.

(** No item anywhere in [t]. *)
Definition nowhere (here : text -> text -> Prop) (t : text) : Prop :=
  forall i v, ~ here (drop i t) v.

(** The text [s] starts with [f = {v}]. *)
Definition brace_field_start (f : string) (s v : text) : Prop :=
  exists post, brace_field_here f s v post.

(** What the scan for [f = {value}] does on [t].  [located f t v]: the
    first offset at which the text has that shape carries the value [v].
    The letters of [f] are taken wherever they stand, also as the tail of
    a longer name ([title] in [booktitle]), so this is the place the
    pattern fires at, which need not be a field named [f]. *)
Definition located (f : string) (t v : text) : Prop :=
  first_at (brace_field_start f) t v.

(** The text has the shape [f = {value}] at no offset, not even inside a
    longer name. *)
Definition absent (f : string) (t : text) : Prop :=
  nowhere (brace_field_start f) t.

(** Two sets of tables that agree on the characters of a text. *)
Definition tables_agree (u1 u2 : UnicodeData) (s : text) : Prop :=
  Forall (fun c => @isalnum u1 c = @isalnum u2 c /\ @isdecimal u1 c = @isdecimal u2 c) s.

(** All characters below 128. *)
Definition is_ascii (s : text) : bool := forallb (fun c => c <? 128) s.

(** The [str.title()] of the tables is, on ASCII text, what it is in every
    version of the interpreter. *)
Definition title_on_ascii (ucd : UnicodeData) : Prop :=
  forall s, is_ascii s = true -> @str_title ucd s = ascii_title s.

(** [t] is [@ty{key,rest]: a type tag of word characters, and a key of at
    least one character up to the first comma. *)
Definition header_here {ucd : UnicodeData} (t ty key rest : text) : Prop :=
  t = ch "@" :: ty ++ ch "{" :: key ++ ch "," :: rest /\
  ty <> [] /\ Forall (fun c => isalnum c || (c =? ch "_") = true) ty /\
  key <> [] /\ ch "," ∉ key.

(** [s] starts with [year = 2020] or [year = {2020]: the name in any case,
    optional white space around the equals sign, an optional opening
    brace, and the four digits [y]. *)
Definition year_field_here {ucd : UnicodeData} (s y : text) : Prop :=
  exists name ws1 ws2 ob post,
    s = name ++ ws1 ++ ch "=" :: ws2 ++ ob ++ y ++ post /\
    ci_name "year" name /\ spaces ws1 /\ spaces ws2 /\
    (ob = [] \/ ob = [ch "{"]) /\
    length y = 4%nat /\ Forall (fun c => isdecimal c = true) y.

Definition year_located {ucd : UnicodeData} (t y : text) : Prop :=
  first_at year_field_here t y.

Definition year_absent {ucd : UnicodeData} (t : text) : Prop :=
  nowhere year_field_here t.

(** The four digits at the start of a text, after an opening brace if it
    has one. *)
Definition digits4 {ucd : UnicodeData} (s : text) : option text :=
  if (4 <=? length s)%nat && forallb isdecimal (take 4 s)
  then Some (take 4 s) else None.

Definition year_digits {ucd : UnicodeData} (s : text) : option text :=
  digits4 match s with
          | c :: r => if c =? ch "{" then r else s
          | [] => []
          end.

(** The tail of the year pattern, after the equals sign and white space. *)
Definition year_tail : pattern :=
  [opt (Literal (ch "{")); Group (exactly 4 CategoryDigit);
   opt (Literal (ch "}"))].

(** [f = {}] starts at offset [i] of [t]. *)
Definition empty_field_at (f : string) (t : text) (i : nat) : Prop :=
  exists name ws1 ws2 post,
    drop i t = name ++ ws1 ++ ch "=" :: ws2 ++ ch "{" :: ch "}" :: post /\
    ci_name f name /\ spaces ws1 /\ spaces ws2.

(** The field [f] occurs in [t] with empty braces, and nowhere else does
    the text have the shape [f = {value}]. *)
Definition empty_only (f : string) (t : text) : Prop :=
  exists i, empty_field_at f t i /\
    forall j v, j <> i -> ~ brace_field_start f (drop j t) v.

(** A character after which a field name can start: white space, the
    comma that ends the field before, or an opening brace. *)
Definition separator (c : N) : bool :=
  isspace c || (c =? ch ",") || (c =? ch "{").

(** Offset [i] of [t] is where a name can start: the start of the text, or
    just after a separator; not the middle of a longer name. *)
Definition name_start (t : text) (i : nat) : bool :=
  match i with
  | O => true
  | S k => match t !! k with Some c => separator c | None => false end
  end.

(** A field named [f] stands at offset [i] of [t] with the value [v]: the
    name starts there, whole, and [= {v}] follows, with at least one
    character in the braces; [v] runs to the first closing brace. *)
Definition field_at (f : string) (t : text) (i : nat) (v : text) : Prop :=
  name_start t i = true /\ brace_field_start f (drop i t) v.

(** The first field named [f] in [t] has the value [v]. *)
Definition field_value (f : string) (t v : text) : Prop :=
  exists i, field_at f t i v /\
    forall j v', (j < i)%nat -> ~ field_at f t j v'.

(** [t] has no field named [f] with a character in its braces: no such
    field at all, or with empty braces only. *)
Definition field_missing (f : string) (t : text) : Prop :=
  forall i v, ~ field_at f t i v.

(** A field named [f] stands at offset [i] of [t] with empty braces. *)
Definition field_empty_at (f : string) (t : text) (i : nat) : Prop :=
  name_start t i = true /\ empty_field_at f t i.

(** Wherever [t] has the shape [f = {value}], a name starts: the letters of
    [f] are never the tail of a longer name there.  This leaves out the
    texts on which the scan takes another field for [f]. *)
Definition whole_names (f : string) (t : text) : Prop :=
  forall i v, brace_field_start f (drop i t) v -> name_start t i = true.

(** The pattern of [f] matches at offset [i] of [t]. *)
Definition fires {ucd : UnicodeData} (f : string) (t : text) (i : nat) : bool :=
  match first_match (match_seq ignorecase (brace_field_re f) i (drop i t)) with
  | Some _ => true
  | None => false
  end.

(** [whole_names], decided by running the pattern at every offset. *)
Definition whole_names_check {ucd : UnicodeData} (f : string) (t : text) : bool :=
  forallb (fun i => implb (fires f t i) (name_start t i)) (seq 0 (S (length t))).

(** An entry with a [shortjournal] field before its [journal] field. *)
Definition short_journal_text : text :=
  str "@article{lee2022, shortjournal = {Nat. Med.}, journal = {Nature Medicine}, year = {2022}}".

(** An entry in which [booktitle] comes before [title]. *)
Definition booktitle_first_text : text :=
  str "@inproceedings{doe2021, author = {Jane Doe}, booktitle = {Proceedings of MICCAI}, title = {Long-tailed Learning}, year = {2021}}".

(** The entry is there as [Path.exists()] sees it. *)
Definition exists_at (citations : gmap text root_node) (name : text) : Prop :=
  exists node, citations !! name = Some node /\ node <> BrokenLink.

(** The files of a folder that [process_category] reads. *)
Definition bib_files (folder : gmap text file_node) : list text :=
  sorted (glob_bib folder).

(** Every entry of the folder named [*.bib] is a file that can be read as
    text. *)
Definition bib_files_readable (folder : gmap text file_node) : Prop :=
  forall name node, folder !! name = Some node -> str ".bib" `suffix_of` name ->
    exists content, node = RegularFile (Some content).

(** A category folder with two citation files and a file of notes. *)
Definition two_papers_and_notes : gmap text file_node :=
  {[ str "b.bib" := RegularFile (Some (str "@misc{b, title = {B}}"));
     str "notes.txt" := RegularFile (Some (str "to do"));
     str "a.bib" := RegularFile (Some (str "@misc{a, title = {A}}")) ]}.

(** The entry under a name in what a path holds. *)
Definition entry_of {A} (p : path_state A) (name : text) : option A :=
  match p with
  | Directory d => d !! name
  | _ => None
  end.

(** A citations directory with a folder of the table and one outside it. *)
Definition citations_with_drafts : gmap text root_node :=
  {[ str "surveys" := Folder two_papers_and_notes;
     str "drafts" := Folder {[ str "c.bib" := RegularFile (Some (str "@misc{c,}")) ]} ]}.

(** ** Vocabulary of the further properties *)

(** The category names of [names] that the citations directory has, and
    those it lacks. *)
Definition present_names (citations : gmap text root_node) (names : list text)
  : list text :=
  filter (fun n => is_Some (citations !! n)) names.

Definition missing_names (citations : gmap text root_node) (names : list text)
  : list text :=
  filter (fun n => ~ is_Some (citations !! n)) names.

(** The content of a category folder of the citations directory whose
    name is in the table: what [build_all_taxonomies] processes. *)
Definition known_folder (citations : gmap text root_node) (name : text)
  : option (gmap text file_node) :=
  match citations !! name with
  | Some (Folder entries) =>
      if known_category CATEGORY_INFO name then Some entries else None
  | _ => None
  end.

(** The name of the output file of a category. *)
Definition json_name (name : text) : text := name ++ str ".json".

(** ** [main] of [build_taxonomies.py] *)

(** Order of the items [(name, count)] of a dict: tuples compare by their
    first components, then by their second. *)
Definition item_le (a b : text * nat) : Prop :=
  text_le a.1 b.1 /\ (text_le b.1 a.1 -> (a.2 <= b.2)%nat).

#[export] Instance item_le_dec : RelDecision item_le.
Proof. intros a b. unfold item_le. apply _. Defined.

(** What [main] prints under BUILD SUMMARY: a line for each item of
    [sorted(stats.items())], and the total [sum(stats.values())]. *)
Definition build_summary (stats : gmap text nat) : list (text * nat) * nat :=
  (merge_sort item_le (map_to_list stats), sum_list (map_to_list stats).*2).

(** [main]: the build on the two directories beside the script, then the
    summary; [None] when the build raised. *)
Definition build_taxonomies_main {ucd : UnicodeData}
  (citations_dir : path_state root_node) (output_dir : path_state out_node)
  : path_state root_node * path_state out_node * option (list (text * nat) * nat) :=
  let r := build_all_taxonomies citations_dir output_dir in
  (r.1, build_summary <$> r.2).

(** Names in strictly increasing order. *)
Definition name_lt (a b : text * nat) : Prop := text_le a.1 b.1 /\ a.1 <> b.1.

(** No white space at either end. *)
Definition trimmed (x : text) : Prop :=
  stops isspace x /\ stops isspace (rev x).

(** [x] is a run of consecutive characters of [t]. *)
Definition occurs_in (x t : text) : Prop := exists l r, t = l ++ x ++ r.

(** The text is not empty and does not start with white space. *)
Definition starts_solid (s : text) : Prop :=
  match s with
  | c :: _ => isspace c = false
  | [] => False
  end.

(** The field names of the parser start with a letter. *)
Definition letter_first (f : string) : Prop :=
  match str f with
  | l :: _ => 97 <= l /\ l <= 122
  | [] => False
  end.

(** * Properties *)

(** ** Characters *)

Lemma ignorecase_eq_uncased l c : uncased l -> ignorecase_eq l c = (c =? l).
Proof.
  unfold uncased, ignorecase_eq. intros Hl.
  change (ch "i") with 105. change (ch "k") with 107. change (ch "s") with 115.
  assert (El : ascii_lower l = l).
  { unfold ascii_lower. destruct (N.leb_spec0 65 l); [|done].
    destruct (N.leb_spec0 l 90); [lia|done]. }
  rewrite El.
  replace (l =? 105) with false by (symmetry; apply N.eqb_neq; lia).
  replace (l =? 107) with false by (symmetry; apply N.eqb_neq; lia).
  replace (l =? 115) with false by (symmetry; apply N.eqb_neq; lia).
  cbn [andb]. rewrite !orb_false_r. unfold ascii_lower.
  destruct (N.leb_spec0 65 c); [|done].
  destruct (N.leb_spec0 c 90); [|done]. cbn [andb].
  destruct (N.eqb_spec (c + 32) l), (N.eqb_spec c l); (done || lia).
Qed.

Section EngineFacts.
Context {ucd : UnicodeData}.

Lemma in_charset_uncased fl l c :
  uncased l -> in_charset fl (Literal l) c = (c =? l).
Proof.
  intros Hl. simpl. destruct (IGNORECASE fl); [apply ignorecase_eq_uncased, Hl | done].
Qed.

Lemma in_charset_not_uncased fl l c :
  uncased l -> in_charset fl (NotLiteral l) c = negb (c =? l).
Proof. intros Hl. simpl. fold (in_charset fl (Literal l) c). by rewrite in_charset_uncased. Qed.

(** ** Greedy repetition followed by something that refuses the class *)

Lemma run_exists (ok : N -> bool) (s : text) :
  exists m r, s = m ++ r /\ Forall (fun c => ok c = true) m /\ stops ok r.
Proof.
  induction s as [|c s IH].
  - exists [], []. repeat split; constructor.
  - destruct (ok c) eqn:Hc.
    + destruct IH as (m & r & -> & Hm & Hr).
      exists (c :: m), r. repeat split; [by constructor | done].
    + exists [], (c :: s). repeat split; [constructor | done].
Qed.

Lemma run_unique (ok : N -> bool) (m1 m2 r1 r2 : text) :
  m1 ++ r1 = m2 ++ r2 ->
  Forall (fun c => ok c = true) m1 -> stops ok r1 ->
  Forall (fun c => ok c = true) m2 -> stops ok r2 ->
  m1 = m2 /\ r1 = r2.
Proof.
  revert m2. induction m1 as [|c m1 IH]; intros [|d m2] He H1 S1 H2 S2; simpl in *.
  - done.
  - subst r1. inversion H2; subst. simpl in S1. congruence.
  - subst r2. inversion H1; subst. simpl in S2. congruence.
  - inversion He; subst. inversion H1; inversion H2; subst.
    destruct (IH m2) as [-> ->]; done.
Qed.

Lemma flat_map_max_repeat {B} (ok : N -> bool) (k : text * text -> list B) lo m r :
  Forall (fun c => ok c = true) m -> stops ok r ->
  (forall m' c r', ok c = true -> k (m', c :: r') = []) ->
  flat_map k (max_repeat ok lo None (m ++ r)) =
  if (lo <=? length m)%nat then k (m, r) else [].
Proof.
  intros Hm Hr. revert lo k. induction Hm as [|c m Hc Hm IH]; intros lo k Hk.
  - simpl. destruct r as [|c r]; simpl in *.
    + destruct lo; simpl; [by rewrite app_nil_r | done].
    + rewrite Hr. simpl. destruct lo; simpl; [by rewrite app_nil_r | done].
  - simpl. rewrite Hc. simpl. rewrite flat_map_app.
    assert (Hlast : flat_map k match lo with O => [([], c :: m ++ r)] | S _ => [] end = []).
    { destruct lo; simpl; [by rewrite Hk | done]. }
    rewrite Hlast, app_nil_r.
    rewrite flat_map_concat_map, map_map, <- flat_map_concat_map.
    rewrite (IH (Nat.pred lo) (fun mr => k (c :: mr.1, mr.2))).
    + simpl. destruct lo; simpl; done.
    + intros m' c' r' Hc'. simpl. by apply Hk.
Qed.

(** ** One node at a time *)

Lemma match_seq_one fl cs p pos c s :
  match_seq fl (One cs :: p) pos (c :: s) =
  if in_charset fl cs c
  then map (prepend [c] []) (match_seq fl p (pos + 1) s)
  else [].
Proof.
  simpl. destruct (in_charset fl cs c); simpl; [|done].
  by rewrite app_nil_r.
Qed.

Lemma match_seq_one_nil fl cs p pos : match_seq fl (One cs :: p) pos [] = [].
Proof. done. Qed.

Lemma refuses_one fl cs p (ok : N -> bool) :
  (forall c, ok c = true -> in_charset fl cs c = false) ->
  refuses fl (One cs :: p) ok.
Proof. intros H pos c s Hc. by rewrite match_seq_one, (H c Hc). Qed.

Lemma match_seq_repeat fl lo cs p pos m r :
  Forall (fun c => in_charset fl cs c = true) m ->
  stops (in_charset fl cs) r ->
  refuses fl p (in_charset fl cs) ->
  match_seq fl (MaxRepeat lo None cs :: p) pos (m ++ r) =
  if (lo <=? length m)%nat
  then map (prepend m []) (match_seq fl p (pos + length m) r)
  else [].
Proof.
  intros Hm Hr Hp. simpl.
  rewrite flat_map_concat_map, map_map, <- flat_map_concat_map. simpl.
  rewrite (flat_map_max_repeat _ _ lo m r Hm Hr); [done|].
  intros m' c r' Hc. simpl. by rewrite Hp.
Qed.

Lemma match_seq_group_repeat fl lo cs p pos m r :
  Forall (fun c => in_charset fl cs c = true) m ->
  stops (in_charset fl cs) r ->
  refuses fl p (in_charset fl cs) ->
  match_seq fl (Group (MaxRepeat lo None cs) :: p) pos (m ++ r) =
  if (lo <=? length m)%nat
  then map (prepend m [m]) (match_seq fl p (pos + length m) r)
  else [].
Proof.
  intros Hm Hr Hp. simpl.
  rewrite flat_map_concat_map, !map_map, <- flat_map_concat_map. simpl.
  rewrite (flat_map_max_repeat _ _ lo m r Hm Hr); [done|].
  intros m' c r' Hc. simpl. by rewrite Hp.
Qed.

End EngineFacts.

(** ** The field patterns *)

Section FieldFacts.
Context {ucd : UnicodeData}.

Lemma prepend_prepend m1 g1 m2 g2 o :
  prepend m1 g1 (prepend m2 g2 o) = prepend (m1 ++ m2) (g1 ++ g2) o.
Proof. unfold prepend. simpl. by rewrite !app_assoc. Qed.

Lemma map_prepend_prepend m1 g1 m2 g2 (os : list outcome) :
  map (prepend m1 g1) (map (prepend m2 g2) os) = map (prepend (m1 ++ m2) (g1 ++ g2)) os.
Proof. rewrite map_map. apply map_ext. intros o. apply prepend_prepend. Qed.

Lemma map_prepend_nil (os : list outcome) : map (prepend [] []) os = os.
Proof.
  rewrite <- (map_id os) at 2. apply map_ext. by intros [[m g] r].
Qed.

Lemma match_seq_literals fl ls p pos name s :
  Forall2 (fun l c => in_charset fl (Literal l) c = true) ls name ->
  match_seq fl (map (fun c => One (Literal c)) ls ++ p) pos (name ++ s) =
  map (prepend name []) (match_seq fl p (pos + length name) s).
Proof.
  intros H. revert pos. induction H as [|l c ls name Hc H IH]; intros pos.
  - simpl. by rewrite Nat.add_0_r, map_prepend_nil.
  - cbn [map app]. rewrite match_seq_one, Hc, IH, map_prepend_prepend.
    cbn [length]. by replace (pos + 1 + length name)%nat with (pos + S (length name))%nat by lia.
Qed.

Lemma match_seq_literals_inv fl ls p pos s :
  match_seq fl (map (fun c => One (Literal c)) ls ++ p) pos s <> [] ->
  exists name s', s = name ++ s' /\
    Forall2 (fun l c => in_charset fl (Literal l) c = true) ls name.
Proof.
  revert pos s. induction ls as [|l ls IH]; intros pos s H.
  - exists [], s. split; [done | constructor].
  - cbn [map app] in H. destruct s as [|c s]; [by rewrite match_seq_one_nil in H|].
    rewrite match_seq_one in H. destruct (in_charset fl (Literal l) c) eqn:Hc; [|done].
    destruct (IH (pos + 1)%nat s) as (name & s' & -> & Hn).
    { intros E. by rewrite E in H. }
    exists (c :: name), s'. split; [done | by constructor].
Qed.

Lemma literal_outside fl l (ok : N -> bool) :
  uncased l -> ok l = false ->
  forall c, ok c = true -> in_charset fl (Literal l) c = false.
Proof.
  intros Hl Hok c Hc. rewrite in_charset_uncased by done.
  destruct (N.eqb_spec c l); [subst; congruence | done].
Qed.

Lemma uncased_equals : uncased (ch "="). Proof. unfold uncased, ch; cbn; lia. Qed.
Lemma uncased_lbrace : uncased (ch "{"). Proof. unfold uncased, ch; cbn; lia. Qed.
Lemma uncased_rbrace : uncased (ch "}"). Proof. unfold uncased, ch; cbn; lia. Qed.
Lemma uncased_comma : uncased (ch ","). Proof. unfold uncased, ch; cbn; lia. Qed.
Lemma uncased_at : uncased (ch "@"). Proof. unfold uncased, ch; cbn; lia. Qed.

Lemma not_literal_Forall fl l (v : text) :
  uncased l ->
  Forall (fun c => in_charset fl (NotLiteral l) c = true) v <-> l ∉ v.
Proof.
  intros Hl. rewrite Forall_forall. split.
  - intros H Hin. specialize (H l Hin).
    rewrite in_charset_not_uncased, N.eqb_refl in H; done.
  - intros H c Hc. rewrite in_charset_not_uncased by done.
    destruct (N.eqb_spec c l); [subst; done | done].
Qed.

Lemma name_in_charset fl f name :
  IGNORECASE fl = true ->
  ci_name f name <->
  Forall2 (fun l c => in_charset fl (Literal l) c = true) (str f) name.
Proof. intros Hfl. unfold ci_name. simpl. by rewrite Hfl. Qed.

Lemma match_brace_tail fl pos ws1 ws2 v post :
  spaces ws1 -> spaces ws2 -> v <> [] -> ch "}" ∉ v ->
  match_seq fl brace_tail pos
    (ws1 ++ ch "=" :: ws2 ++ ch "{" :: v ++ ch "}" :: post) =
  [(ws1 ++ ch "=" :: ws2 ++ ch "{" :: v ++ [ch "}"], [v], post)].
Proof.
  intros H1 H2 Hv Hb. unfold brace_tail, star, plus.
  rewrite match_seq_repeat;
    [| done | done | apply refuses_one, literal_outside; [apply uncased_equals | done]].
  cbn [Nat.leb]. rewrite match_seq_one, in_charset_uncased by apply uncased_equals.
  rewrite N.eqb_refl.
  rewrite match_seq_repeat;
    [| done | done | apply refuses_one, literal_outside; [apply uncased_lbrace | done]].
  cbn [Nat.leb]. rewrite match_seq_one, in_charset_uncased by apply uncased_lbrace.
  rewrite N.eqb_refl.
  rewrite match_seq_group_repeat.
  - destruct v as [|c v]; [done|]. cbn [length Nat.leb].
    rewrite match_seq_one, in_charset_uncased by apply uncased_rbrace.
    rewrite N.eqb_refl. cbn [match_seq map].
    unfold prepend; simpl. by rewrite ?app_nil_r, <- ?app_assoc.
  - by apply not_literal_Forall; [apply uncased_rbrace|].
  - unfold stops. rewrite in_charset_not_uncased by apply uncased_rbrace.
    by rewrite N.eqb_refl.
  - apply refuses_one. intros c Hc.
    rewrite in_charset_not_uncased in Hc by apply uncased_rbrace.
    rewrite in_charset_uncased by apply uncased_rbrace.
    by destruct (c =? ch "}").
Qed.

Lemma match_brace_tail_inv fl pos s :
  match_seq fl brace_tail pos s <> [] ->
  exists ws1 ws2 v post,
    s = ws1 ++ ch "=" :: ws2 ++ ch "{" :: v ++ ch "}" :: post /\
    spaces ws1 /\ spaces ws2 /\ v <> [] /\ ch "}" ∉ v.
Proof.
  unfold brace_tail, star, plus. intros H.
  destruct (run_exists (in_charset fl CategorySpace) s) as (ws1 & r1 & -> & Hw1 & Hs1).
  rewrite match_seq_repeat in H;
    [| done | done | apply refuses_one, literal_outside; [apply uncased_equals | done]].
  cbn [Nat.leb] in H. destruct r1 as [|c1 r1]; [done|].
  rewrite match_seq_one, in_charset_uncased in H by apply uncased_equals.
  destruct (N.eqb_spec c1 (ch "=")) as [->|]; [|done].
  destruct (run_exists (in_charset fl CategorySpace) r1) as (ws2 & r2 & -> & Hw2 & Hs2).
  rewrite match_seq_repeat in H;
    [| done | done | apply refuses_one, literal_outside; [apply uncased_lbrace | done]].
  cbn [Nat.leb] in H. destruct r2 as [|c2 r2]; [done|].
  rewrite match_seq_one, in_charset_uncased in H by apply uncased_lbrace.
  destruct (N.eqb_spec c2 (ch "{")) as [->|]; [|done].
  destruct (run_exists (in_charset fl (NotLiteral (ch "}"))) r2) as (v & r3 & -> & Hv & Hs3).
  rewrite match_seq_group_repeat in H; [| done | done |].
  2:{ apply refuses_one. intros c Hc.
      rewrite in_charset_not_uncased in Hc by apply uncased_rbrace.
      rewrite in_charset_uncased by apply uncased_rbrace.
      by destruct (c =? ch "}"). }
  destruct v as [|c v]; [done|]. cbn [length Nat.leb] in H.
  destruct r3 as [|c3 r3]; [done|].
  rewrite match_seq_one, in_charset_uncased in H by apply uncased_rbrace.
  destruct (N.eqb_spec c3 (ch "}")) as [->|]; [|done].
  exists ws1, ws2, (c :: v), r3. repeat split; try done.
  by apply (not_literal_Forall fl); [apply uncased_rbrace|].
Qed.

(** At one position the field patterns match in one way at most, and they
    match exactly the texts that start with a field of the shape. *)
Lemma match_brace_field fl f pos s v post :
  IGNORECASE fl = true ->
  brace_field_here f s v post ->
  exists whole, match_seq fl (brace_field_re f) pos s = [(whole, [v], post)].
Proof.
  intros Hfl (name & ws1 & ws2 & -> & Hn & H1 & H2 & Hv & Hb).
  unfold brace_field_re, literal. fold brace_tail.
  rewrite match_seq_literals by by apply name_in_charset.
  rewrite match_brace_tail by done. eexists. reflexivity.
Qed.

Lemma match_brace_field_inv fl f pos s :
  IGNORECASE fl = true ->
  match_seq fl (brace_field_re f) pos s <> [] ->
  exists v post, brace_field_here f s v post.
Proof.
  intros Hfl H. unfold brace_field_re, literal in H. fold brace_tail in H.
  destruct (match_seq_literals_inv _ _ _ _ _ H) as (name & s' & -> & Hn).
  rewrite match_seq_literals in H by done.
  destruct (match_brace_tail_inv fl (pos + length name) s') as (ws1 & ws2 & v & post & -> & ?).
  { intros E. by rewrite E in H. }
  exists v, post, name, ws1, ws2. split; [done|]. split; [by apply (name_in_charset fl)|done].
Qed.

End FieldFacts.

(** ** Searching *)

Section SearchFacts.
Context {ucd : UnicodeData}.

Lemma first_match_None os : first_match os = None <-> os = [].
Proof. destruct os; simpl; split; congruence. Qed.

Lemma search_from_spec fl p pos s :
  match search_from fl p pos s with
  | Some m =>
      exists i, (i <= length s)%nat /\
        first_match (match_seq fl p (pos + i) (drop i s)) = Some m /\
        forall j, (j < i)%nat -> match_seq fl p (pos + j) (drop j s) = []
  | None =>
      forall i, (i <= length s)%nat -> match_seq fl p (pos + i) (drop i s) = []
  end.
Proof.
  revert pos. induction s as [|c s IH]; intros pos; simpl.
  - destruct (first_match (match_seq fl p pos [])) as [m|] eqn:E.
    + exists 0%nat. rewrite Nat.add_0_r. repeat split; [done | done | lia].
    + intros i Hi. replace i with 0%nat by (simpl in Hi; lia).
      rewrite Nat.add_0_r. by apply first_match_None.
  - destruct (first_match (match_seq fl p pos (c :: s))) as [m|] eqn:E.
    + exists 0%nat. rewrite Nat.add_0_r. repeat split; [lia | done | lia].
    + apply first_match_None in E. specialize (IH (S pos)).
      destruct (search_from fl p (S pos) s) as [m|].
      * destruct IH as (i & Hi & Hm & Hbefore). exists (S i).
        replace (pos + S i)%nat with (S pos + i)%nat by lia.
        repeat split; [lia | done |].
        intros [|j] Hj; [by rewrite Nat.add_0_r|].
        replace (pos + S j)%nat with (S pos + j)%nat by lia.
        apply Hbefore. lia.
      * intros [|i] Hi; [by rewrite Nat.add_0_r|].
        replace (pos + S i)%nat with (S pos + i)%nat by lia.
        apply IH. lia.
Qed.

(** A pattern that, at any one position, matches exactly the texts that
    start with an item, and captures its value in group 1. *)
Section Scan.
Variables (fl : flags) (p : pattern) (here : text -> text -> Prop).
Hypothesis here_matches : forall pos s v,
  here s v -> exists m, first_match (match_seq fl p pos s) = Some m /\ group 1 m = v.
Hypothesis matches_here : forall pos s m,
  first_match (match_seq fl p pos s) = Some m -> here s (group 1 m).

Lemma here_unique s v v' : here s v -> here s v' -> v = v'.
Proof.
  intros H H'.
  destruct (here_matches 0%nat s v H) as (m & E & <-).
  destruct (here_matches 0%nat s v' H') as (m' & E' & <-).
  congruence.
Qed.

Lemma first_at_unique t v v' : first_at here t v -> first_at here t v' -> v = v'.
Proof.
  intros (i & Hi & Hmin) (i' & Hi' & Hmin').
  destruct (lt_eq_lt_dec i i') as [[Hlt|<-]|Hlt].
  - by destruct (Hmin' i v Hlt).
  - by apply (here_unique (drop i t)).
  - by destruct (Hmin i' v' Hlt).
Qed.

Lemma first_at_not_nowhere t v : first_at here t v -> ~ nowhere here t.
Proof. intros (i & Hi & _) Ha. by apply (Ha i v). Qed.

Lemma search_spec t :
  match re_search p t fl with
  | Some m => first_at here t (group 1 m)
  | None => nowhere here t
  end.
Proof.
  unfold re_search. pose proof (search_from_spec fl p 0 t) as H.
  destruct (search_from fl p 0 t) as [m|].
  - destruct H as (i & Hi & Hm & Hbefore). exists i. split.
    + by apply (matches_here (0 + i)%nat).
    + intros j v' Hj Hv'.
      destruct (here_matches (0 + j)%nat _ _ Hv') as (m' & E & _).
      by rewrite (Hbefore j Hj) in E.
  - intros i v Hv. destruct (decide (i <= length t)%nat) as [Hle|Hgt].
    + destruct (here_matches (0 + i)%nat _ _ Hv) as (m' & E & _).
      by rewrite (H i Hle) in E.
    + rewrite drop_ge in Hv by lia.
      destruct (here_matches (0 + length t)%nat _ _ Hv) as (m' & E & _).
      pose proof (H (length t) (le_n _)) as H0. rewrite drop_all in H0.
      by rewrite H0 in E.
Qed.

Lemma search_first_at t v :
  first_at here t v -> exists m, re_search p t fl = Some m /\ group 1 m = v.
Proof.
  intros Hv. pose proof (search_spec t) as H.
  destruct (re_search p t fl) as [m|].
  - exists m. split; [done|]. by apply (first_at_unique t).
  - by destruct (first_at_not_nowhere t v).
Qed.

Lemma search_nowhere t : nowhere here t -> re_search p t fl = None.
Proof.
  intros Ha. pose proof (search_spec t) as H.
  destruct (re_search p t fl) as [m|]; [|done].
  by destruct (first_at_not_nowhere t _ H).
Qed.

End Scan.

Lemma brace_field_matches fl f :
  IGNORECASE fl = true ->
  forall pos s v, brace_field_start f s v ->
    exists m, first_match (match_seq fl (brace_field_re f) pos s) = Some m /\ group 1 m = v.
Proof.
  intros Hfl pos s v [post H].
  destruct (match_brace_field fl f pos _ _ _ Hfl H) as [whole ->]. by eexists.
Qed.

Lemma matches_brace_field fl f :
  IGNORECASE fl = true ->
  forall pos s m, first_match (match_seq fl (brace_field_re f) pos s) = Some m ->
    brace_field_start f s (group 1 m).
Proof.
  intros Hfl pos s m Hm.
  destruct (match_brace_field_inv fl f pos s Hfl) as (v & post & Hv).
  { intros E. by rewrite E in Hm. }
  destruct (match_brace_field fl f pos _ _ _ Hfl Hv) as [whole E].
  rewrite E in Hm. injection Hm as <-. by exists post.
Qed.

(** What [re.search] finds with a field pattern. *)
Lemma field_search_spec fl f t :
  IGNORECASE fl = true ->
  match re_search (brace_field_re f) t fl with
  | Some m => located f t (group 1 m)
  | None => absent f t
  end.
Proof.
  intros Hfl.
  apply search_spec; [by apply brace_field_matches | by apply matches_brace_field].
Qed.

Lemma field_search_located fl f t v :
  IGNORECASE fl = true -> located f t v ->
  exists m, re_search (brace_field_re f) t fl = Some m /\ group 1 m = v.
Proof.
  intros Hfl.
  apply search_first_at; [by apply brace_field_matches | by apply matches_brace_field].
Qed.

Lemma field_search_absent fl f t :
  IGNORECASE fl = true -> absent f t ->
  re_search (brace_field_re f) t fl = None.
Proof.
  intros Hfl.
  apply (search_nowhere fl _ (brace_field_start f));
    [by apply brace_field_matches | by apply matches_brace_field].
Qed.

Lemma located_intro f t m v :
  re_search (brace_field_re f) t ignorecase = Some m -> group 1 m = v ->
  located f t v.
Proof.
  intros Hs <-. pose proof (field_search_spec ignorecase f t eq_refl) as H.
  by rewrite Hs in H.
Qed.

Lemma absent_intro f t :
  re_search (brace_field_re f) t ignorecase = None -> absent f t.
Proof.
  intros Hs. pose proof (field_search_spec ignorecase f t eq_refl) as H.
  by rewrite Hs in H.
Qed.

End SearchFacts.

(** ** The parser, field by field *)

Section ParserFacts.
Context {ucd : UnicodeData}.

Lemma parse_title_located t v :
  located "title" t v -> Entry.title (parse_bibtex_entry t) = strip v.
Proof.
  intros H. destruct (field_search_located ignorecase _ _ _ eq_refl H) as (m & Hm & <-).
  unfold parse_bibtex_entry; simpl. unfold title_re. by rewrite Hm.
Qed.

Lemma parse_title_absent t :
  absent "title" t -> Entry.title (parse_bibtex_entry t) = [].
Proof.
  intros H. unfold parse_bibtex_entry; simpl. unfold title_re.
  by rewrite (field_search_absent ignorecase _ _ eq_refl H).
Qed.

Lemma parse_authors_located t v :
  located "author" t v -> Entry.authors (parse_bibtex_entry t) = strip v.
Proof.
  intros H. destruct (field_search_located ignorecase _ _ _ eq_refl H) as (m & Hm & <-).
  unfold parse_bibtex_entry; simpl. unfold author_re. by rewrite Hm.
Qed.

Lemma parse_authors_absent t :
  absent "author" t -> Entry.authors (parse_bibtex_entry t) = [].
Proof.
  intros H. unfold parse_bibtex_entry; simpl. unfold author_re.
  by rewrite (field_search_absent ignorecase _ _ eq_refl H).
Qed.

Lemma parse_venue_journal t v :
  located "journal" t v -> Entry.venue (parse_bibtex_entry t) = strip v.
Proof.
  intros H. destruct (field_search_located ignorecase _ _ _ eq_refl H) as (m & Hm & <-).
  unfold parse_bibtex_entry; simpl. unfold journal_re. by rewrite Hm.
Qed.

Lemma parse_venue_booktitle t v :
  absent "journal" t -> located "booktitle" t v ->
  Entry.venue (parse_bibtex_entry t) = strip v.
Proof.
  intros Hj H. destruct (field_search_located ignorecase _ _ _ eq_refl H) as (m & Hm & <-).
  unfold parse_bibtex_entry; simpl. unfold journal_re, booktitle_re.
  by rewrite (field_search_absent ignorecase _ _ eq_refl Hj), Hm.
Qed.

Lemma parse_venue_absent t :
  absent "journal" t -> absent "booktitle" t ->
  Entry.venue (parse_bibtex_entry t) = [].
Proof.
  intros Hj Hb. unfold parse_bibtex_entry; simpl. unfold journal_re, booktitle_re.
  by rewrite (field_search_absent ignorecase _ _ eq_refl Hj),
             (field_search_absent ignorecase _ _ eq_refl Hb).
Qed.

Lemma parse_abstract_located t v :
  located "abstract" t v -> Entry.abstract (parse_bibtex_entry t) = strip v.
Proof.
  intros H.
  destruct (field_search_located ignorecase_dotall _ _ _ eq_refl H) as (m & Hm & <-).
  unfold parse_bibtex_entry; simpl. unfold abstract_re. by rewrite Hm.
Qed.

Lemma parse_abstract_absent t :
  absent "abstract" t -> Entry.abstract (parse_bibtex_entry t) = abstract_placeholder.
Proof.
  intros H. unfold parse_bibtex_entry; simpl. unfold abstract_re.
  by rewrite (field_search_absent ignorecase_dotall _ _ eq_refl H).
Qed.

End ParserFacts.

(** ** Independence of the tables *)

Section TableFacts.
Variables u1 u2 : UnicodeData.

Lemma in_charset_ext fl cs c :
  @isalnum u1 c = @isalnum u2 c -> @isdecimal u1 c = @isdecimal u2 c ->
  @in_charset u1 fl cs c = @in_charset u2 fl cs c.
Proof. intros Ha Hd. destruct cs; simpl; congruence. Qed.

Lemma max_repeat_ext (ok1 ok2 : N -> bool) lo hi s :
  Forall (fun c => ok1 c = ok2 c) s ->
  max_repeat ok1 lo hi s = max_repeat ok2 lo hi s.
Proof.
  intros H. revert lo hi. induction H as [|c s Hc H IH]; intros lo hi; [done|].
  simpl. by rewrite Hc, IH.
Qed.

Lemma max_repeat_split (ok : N -> bool) lo hi s mr :
  mr ∈ max_repeat ok lo hi s -> s = mr.1 ++ mr.2.
Proof.
  revert lo hi mr. induction s as [|c s IH]; intros lo hi mr; simpl.
  - destruct lo; [|by intros ?%elem_of_nil].
    by intros ->%list_elem_of_singleton.
  - rewrite elem_of_app. intros [H|H].
    + destruct (ok c && negb (bool_decide (hi = Some 0%nat))); [|by apply elem_of_nil in H].
      apply list_elem_of_fmap in H as (mr' & -> & H). simpl.
      by rewrite <- (IH _ _ _ H).
    + destruct lo; [|by apply elem_of_nil in H].
      by apply list_elem_of_singleton in H as ->.
Qed.

Lemma match_node_split (u : UnicodeData) fl n pos s (o : outcome) :
  o ∈ @match_node u fl n pos s -> s = o.1.1 ++ o.2.
Proof.
  revert o. induction n as [|cs|lo hi cs|n IH]; intros o; simpl.
  - destruct pos; [|by intros ?%elem_of_nil]. by intros ->%list_elem_of_singleton.
  - destruct s as [|c s]; [by intros ?%elem_of_nil|].
    destruct (in_charset fl cs c); [|by intros ?%elem_of_nil].
    by intros ->%list_elem_of_singleton.
  - intros (mr & -> & H)%list_elem_of_fmap. simpl. by apply max_repeat_split in H.
  - intros (o' & -> & H)%list_elem_of_fmap. simpl. by apply IH.
Qed.

Lemma match_node_ext fl n pos s :
  tables_agree u1 u2 s -> @match_node u1 fl n pos s = @match_node u2 fl n pos s.
Proof.
  intros H. induction n as [|cs|lo hi cs|n IH]; simpl.
  - done.
  - destruct H as [|c s [Ha Hd] H]; [done|]. by rewrite (in_charset_ext fl cs c).
  - f_equal. apply max_repeat_ext. eapply Forall_impl; [exact H|].
    intros c [Ha Hd]. by apply in_charset_ext.
  - by rewrite IH.
Qed.

Lemma match_seq_ext fl p pos s :
  tables_agree u1 u2 s -> @match_seq u1 fl p pos s = @match_seq u2 fl p pos s.
Proof.
  revert pos s. induction p as [|n p IH]; intros pos s H; [done|].
  simpl. rewrite (match_node_ext fl n pos s H).
  rewrite !flat_map_concat_map. f_equal. apply map_ext_in.
  intros o Ho. apply list_elem_of_In, match_node_split in Ho.
  rewrite IH; [done|]. unfold tables_agree in *. rewrite Ho in H.
  by apply Forall_app in H as [_ H].
Qed.

Lemma search_from_ext fl p pos s :
  tables_agree u1 u2 s -> @search_from u1 fl p pos s = @search_from u2 fl p pos s.
Proof.
  intros H. revert pos. induction H as [|c s Hc H IH]; intros pos; simpl.
  - by rewrite (match_seq_ext fl p pos []) by constructor.
  - rewrite (match_seq_ext fl p pos (c :: s)) by by constructor.
    by rewrite IH.
Qed.

Lemma parse_bibtex_entry_ext t :
  tables_agree u1 u2 t -> @parse_bibtex_entry u1 t = @parse_bibtex_entry u2 t.
Proof.
  intros H. unfold parse_bibtex_entry, re_match, re_search.
  by rewrite (match_seq_ext _ _ _ _ H), !(search_from_ext _ _ _ _ H).
Qed.

End TableFacts.

(** On ASCII text the parser can be run with the ASCII rows alone. *)
Lemma parse_bibtex_entry_ascii {ucd : UnicodeData} t :
  is_ascii t = true -> parse_bibtex_entry t = @parse_bibtex_entry ascii_tables t.
Proof.
  intros H. apply parse_bibtex_entry_ext. unfold is_ascii in H.
  rewrite forallb_forall in H. apply Forall_forall. intros c Hc%list_elem_of_In.
  specialize (H c Hc). apply N.ltb_lt in H.
  rewrite isalnum_ascii, isdecimal_ascii by done. simpl.
  apply N.ltb_lt in H. by rewrite H.
Qed.

(** C6. Parsing the entry text of the scenario,
    [@article{foo2020, title = {Deep Learning}, author = {Jane Doe},
    year = {2020}, journal = {Nature}}], gives the record with id
    [foo2020], title [Deep Learning], authors [Jane Doe], year [2020],
    venue [Nature] and abstract [Abstract not available.]; its source
    text field is the entry text. *)
Theorem scenario_record {ucd : UnicodeData} :
  parse_bibtex_entry scenario_text =
  {| Entry.id := str "foo2020";
     Entry.title := str "Deep Learning";
     Entry.authors := str "Jane Doe";
     Entry.year := str "2020";
     Entry.venue := str "Nature";
     Entry.abstract := str "Abstract not available.";
     Entry.bibtex := scenario_text |}.
Proof. rewrite parse_bibtex_entry_ascii by done. vm_compute. reflexivity. Qed.

(** ** The parser on small entries *)

Section Examples.
Context {ucd : UnicodeData}.

(** A value stops at the first closing brace. *)
Example nested_braces_cut :
  Entry.title (parse_bibtex_entry (str "@misc{k, title = {{Deep} Learning}}"))
  = str "{Deep".
Proof. rewrite parse_bibtex_entry_ascii by done. vm_compute. reflexivity. Qed.

(** Field names in any case, with or without white space at the equals sign. *)
Example upper_case_names :
  parse_bibtex_entry (str "@Article{Doe99,TITLE={T},AUTHOR = { A. Doe },YEAR=1999}")
  = Entry.make (str "Doe99") (str "T") (str "A. Doe") (str "1999") []
      abstract_placeholder
      (str "@Article{Doe99,TITLE={T},AUTHOR = { A. Doe },YEAR=1999}").
Proof. rewrite parse_bibtex_entry_ascii by done. vm_compute. reflexivity. Qed.

(** Every value may run over several lines. *)
Example value_over_lines :
  Entry.abstract (parse_bibtex_entry
    (str "@misc{k," ++ [10] ++ str "  abstract = {one" ++ [10] ++ str "  two}" ++ [10] ++ str "}"))
  = str "one" ++ [10] ++ str "  two".
Proof. rewrite parse_bibtex_entry_ascii by done. vm_compute. reflexivity. Qed.

(** The year is the first four digits after the equals sign. *)
Example year_first_four_digits :
  Entry.year (parse_bibtex_entry (str "@misc{k, year = 20215}")) = str "2021".
Proof. rewrite parse_bibtex_entry_ascii by done. vm_compute. reflexivity. Qed.

(** A declaration that does not start the text gives no id. *)
Example blank_before_declaration :
  Entry.id (parse_bibtex_entry (str " @misc{k, title = {T}}")) = [].
Proof. rewrite parse_bibtex_entry_ascii by done. vm_compute. reflexivity. Qed.

(** The key runs to the first comma, braces and all. *)
Example key_without_comma :
  Entry.id (parse_bibtex_entry (str "@misc{k title = {T}, year = 2020}"))
  = str "k title = {T}".
Proof. rewrite parse_bibtex_entry_ascii by done. vm_compute. reflexivity. Qed.

End Examples.

(** ** [str.strip()] *)

Lemma lstrip_spec s :
  exists l, s = l ++ lstrip s /\ spaces l /\ stops isspace (lstrip s).
Proof.
  induction s as [|c s (l & Hs & Hl & Hstop)]; simpl.
  - exists []. repeat split; constructor.
  - destruct (isspace c) eqn:Hc.
    + exists (c :: l). split; [by rewrite Hs at 1|]. split; [by constructor|done].
    + exists []. repeat split; [constructor | done].
Qed.

Lemma lstrip_id s : stops isspace s -> lstrip s = s.
Proof. destruct s as [|c s]; simpl; [done|]. by intros ->. Qed.

Lemma rstrip_spec s :
  exists r, s = rstrip s ++ r /\ spaces r /\ stops isspace (rev (rstrip s)).
Proof.
  unfold rstrip. destruct (lstrip_spec (rev s)) as (l & Hs & Hl & Hstop).
  exists (rev l). split; [|split].
  - rewrite <- rev_app_distr, <- Hs. by rewrite rev_involutive.
  - by apply Forall_rev.
  - by rewrite rev_involutive.
Qed.

Lemma strip_spec t :
  exists l r, t = l ++ strip t ++ r /\ spaces l /\ spaces r /\
    stops isspace (strip t) /\ stops isspace (rev (strip t)).
Proof.
  unfold strip. destruct (lstrip_spec t) as (l & Ht & Hl & Hstop).
  destruct (rstrip_spec (lstrip t)) as (r & Hu & Hr & Hstop').
  exists l, r. split; [by rewrite <- Hu|]. repeat split; [done | done | | done].
  destruct (rstrip (lstrip t)) as [|c u] eqn:E; [done|].
  rewrite Hu in Hstop. exact Hstop.
Qed.

(** Text without white space at either end is left as it is. *)
Lemma strip_id t : stops isspace t -> stops isspace (rev t) -> strip t = t.
Proof.
  intros H1 H2. unfold strip, rstrip. rewrite (lstrip_id t H1), (lstrip_id _ H2).
  apply rev_involutive.
Qed.

(** C3 (as amended). The source-text field of the parsed record is the
    input text without its leading and trailing white space: the input is
    white space, then the field, then white space, and the field neither
    starts nor ends with white space. *)
Theorem bibtex_is_stripped_source {ucd : UnicodeData} (t : text) :
  Entry.bibtex (parse_bibtex_entry t) = strip t /\
  exists l r, t = l ++ Entry.bibtex (parse_bibtex_entry t) ++ r /\
    spaces l /\ spaces r /\
    stops isspace (Entry.bibtex (parse_bibtex_entry t)) /\
    stops isspace (rev (Entry.bibtex (parse_bibtex_entry t))).
Proof. split; [done|]. apply strip_spec. Qed.

(** C3 (as stated) fails: a file that ends with a newline is not kept
    verbatim. *)
Lemma bibtex_not_verbatim :
  ~ (forall (ucd : UnicodeData) (t : text),
       Entry.bibtex (parse_bibtex_entry t) = t).
Proof.
  intros H. specialize (H ascii_tables (str "@misc{k, year = 2020}" ++ [10])).
  vm_compute in H. discriminate H.
Qed.

(** ** The leading declaration *)

Section HeaderFacts.
Context {ucd : UnicodeData}.

Lemma match_seq_at_beginning fl p s :
  match_seq fl (AtBeginning :: p) 0 s = match_seq fl p 0 s.
Proof.
  simpl. rewrite app_nil_r. rewrite <- (map_id (match_seq fl p 0 s)) at 2.
  apply map_ext. by intros [[m g] r].
Qed.

Lemma word_refuses_lbrace fl p :
  refuses fl (One (Literal (ch "{")) :: p) (in_charset fl CategoryWord).
Proof.
  apply refuses_one, literal_outside; [apply uncased_lbrace|].
  simpl. by rewrite isalnum_ascii.
Qed.

Lemma not_comma_refuses_comma fl p :
  refuses fl (One (Literal (ch ",")) :: p) (in_charset fl (NotLiteral (ch ","))).
Proof.
  apply refuses_one. intros c Hc.
  rewrite in_charset_not_uncased in Hc by apply uncased_comma.
  rewrite in_charset_uncased by apply uncased_comma.
  by destruct (c =? ch ",").
Qed.

Lemma match_id t ty key rest :
  header_here t ty key rest ->
  exists whole, re_match id_re t no_flags = Some [whole; ty; key].
Proof.
  intros (-> & Hty & Hw & Hkey & Hc). unfold re_match, id_re, plus.
  rewrite match_seq_at_beginning, match_seq_one.
  rewrite in_charset_uncased, N.eqb_refl by apply uncased_at.
  rewrite match_seq_group_repeat; [| done | | apply word_refuses_lbrace].
  2:{ simpl. by rewrite isalnum_ascii. }
  destruct ty as [|c ty]; [done|]. cbn [length Nat.leb].
  rewrite match_seq_one, in_charset_uncased, N.eqb_refl by apply uncased_lbrace.
  rewrite match_seq_group_repeat; [| | | apply not_comma_refuses_comma].
  2:{ by apply not_literal_Forall; [apply uncased_comma|]. }
  2:{ unfold stops. rewrite in_charset_not_uncased by apply uncased_comma.
      by rewrite N.eqb_refl. }
  destruct key as [|k key]; [done|]. cbn [length Nat.leb].
  rewrite match_seq_one, in_charset_uncased, N.eqb_refl by apply uncased_comma.
  cbn [match_seq map first_match]. unfold prepend; simpl. eexists. reflexivity.
Qed.

Lemma match_id_inv t :
  re_match id_re t no_flags <> None ->
  exists ty key rest, header_here t ty key rest.
Proof.
  unfold re_match, id_re, plus. rewrite first_match_None, match_seq_at_beginning.
  intros H. destruct t as [|c0 t]; [done|].
  rewrite match_seq_one, in_charset_uncased in H by apply uncased_at.
  destruct (N.eqb_spec c0 (ch "@")) as [->|]; [|done].
  destruct (run_exists (in_charset no_flags CategoryWord) t) as (ty & r1 & -> & Hty & Hs1).
  rewrite match_seq_group_repeat in H; [| done | done | apply word_refuses_lbrace].
  destruct ty as [|w ty]; [done|]. cbn [length Nat.leb] in H.
  destruct r1 as [|c1 r1]; [done|].
  rewrite match_seq_one, in_charset_uncased in H by apply uncased_lbrace.
  destruct (N.eqb_spec c1 (ch "{")) as [->|]; [|done].
  destruct (run_exists (in_charset no_flags (NotLiteral (ch ","))) r1)
    as (key & r2 & -> & Hkey & Hs2).
  rewrite match_seq_group_repeat in H; [| done | done | apply not_comma_refuses_comma].
  destruct key as [|k key]; [done|]. cbn [length Nat.leb] in H.
  destruct r2 as [|c2 r2]; [done|].
  rewrite match_seq_one, in_charset_uncased in H by apply uncased_comma.
  destruct (N.eqb_spec c2 (ch ",")) as [->|]; [|done].
  exists (w :: ty), (k :: key), r2. repeat split; try done.
  by apply (not_literal_Forall no_flags); [apply uncased_comma|].
Qed.

Lemma parse_id_header t ty key rest :
  header_here t ty key rest -> Entry.id (parse_bibtex_entry t) = strip key.
Proof.
  intros H. destruct (match_id _ _ _ _ H) as [whole E].
  unfold parse_bibtex_entry; simpl. by rewrite E.
Qed.

Lemma parse_id_no_header t :
  (forall ty key rest, ~ header_here t ty key rest) ->
  Entry.id (parse_bibtex_entry t) = [].
Proof.
  intros H. unfold parse_bibtex_entry; simpl.
  destruct (re_match id_re t no_flags) as [m|] eqn:E; [|done].
  destruct (match_id_inv t) as (ty & key & rest & Hh); [by rewrite E|].
  by destruct (H ty key rest).
Qed.

End HeaderFacts.

(** ** The year pattern *)

Section YearFacts.
Context {ucd : UnicodeData}.

Lemma max_repeat_zero (ok : N -> bool) lo s :
  max_repeat ok lo (Some 0%nat) s = match lo with O => [([], s)] | S _ => [] end.
Proof. destruct s as [|c s]; simpl; [done|]. by rewrite andb_false_r. Qed.

Lemma max_repeat_exact (ok : N -> bool) k s :
  max_repeat ok k (Some k) s =
  if (k <=? length s)%nat && forallb ok (take k s)
  then [(take k s, drop k s)] else [].
Proof.
  revert s. induction k as [|k IH]; intros s.
  - rewrite max_repeat_zero. by rewrite take_0, drop_0.
  - destruct s as [|c s]; simpl; [done|].
    rewrite IH, andb_true_r, app_nil_r. change (take k s) with (firstn k s).
    destruct (ok c); simpl; [|by rewrite andb_false_r].
    by destruct ((k <=? length s)%nat && forallb ok (firstn k s)).
Qed.

Lemma match_seq_opt fl cs p pos s :
  match_seq fl (opt cs :: p) pos s =
  match s with
  | c :: s' =>
      if in_charset fl cs c
      then map (prepend [c] []) (match_seq fl p (pos + 1) s') ++ match_seq fl p pos s
      else match_seq fl p pos s
  | [] => match_seq fl p pos s
  end.
Proof.
  assert (Hnil : forall r, map (fun o2 : outcome => (o2.1.1, o2.1.2, o2.2))
                   (match_seq fl p (pos + 0) r) = match_seq fl p pos r).
  { intros r. rewrite Nat.add_0_r. rewrite <- (map_id (match_seq fl p pos r)) at 2.
    apply map_ext. by intros [[m g] r']. }
  unfold opt. destruct s as [|c s]; simpl.
  - by rewrite Hnil, app_nil_r.
  - destruct (in_charset fl cs c); simpl.
    + rewrite max_repeat_zero. simpl. by rewrite Hnil, !app_nil_r.
    + by rewrite Hnil, app_nil_r.
Qed.

Lemma match_seq_digits fl k q pos s :
  match_seq fl (Group (exactly k CategoryDigit) :: q) pos s =
  match (if (k <=? length s)%nat && forallb isdecimal (take k s)
         then Some (take k s) else None) with
  | Some y => map (prepend y [y]) (match_seq fl q (pos + length y) (drop k s))
  | None => []
  end.
Proof.
  unfold exactly. simpl. rewrite max_repeat_exact.
  change (in_charset fl CategoryDigit) with isdecimal.
  destruct ((k <=? length s)%nat && forallb isdecimal (take k s)); [|done].
  simpl. by rewrite app_nil_r.
Qed.

Lemma opt_last fl cs pos s :
  exists w r os, match_seq fl [opt cs] pos s = (w, [], r) :: os.
Proof.
  rewrite match_seq_opt. destruct s as [|c s]; simpl; [by eexists _, _, _|].
  destruct (in_charset fl cs c); simpl; by eexists _, _, _.
Qed.

Lemma digits4_None_lbrace s : digits4 (ch "{" :: s) = None.
Proof.
  unfold digits4. destruct (4 <=? length (ch "{" :: s))%nat; [|done].
  simpl. rewrite isdecimal_ascii by done. done.
Qed.

Lemma digits4_spec s y :
  digits4 s = Some y <->
  exists post, s = y ++ post /\ length y = 4%nat /\ Forall (fun c => isdecimal c = true) y.
Proof.
  unfold digits4. split.
  - destruct (4 <=? length s)%nat eqn:Hlen; [|done]. simpl.
    destruct (forallb isdecimal (take 4 s)) eqn:Hd; [|done].
    intros [= <-]. exists (drop 4 s). split; [by rewrite take_drop|].
    apply Nat.leb_le in Hlen. split; [rewrite length_take; lia|].
    apply Forall_forall. intros c Hc%list_elem_of_In.
    rewrite forallb_forall in Hd. by apply Hd.
  - intros (post & -> & Hlen & Hd).
    rewrite take_app_length' by done.
    replace (4 <=? length (y ++ post))%nat with true
      by (symmetry; apply Nat.leb_le; rewrite length_app; lia).
    simpl. replace (forallb isdecimal y) with true; [done|].
    symmetry. apply forallb_forall. intros c Hc%list_elem_of_In.
    rewrite Forall_forall in Hd. by apply Hd.
Qed.

Lemma year_digits_spec s y :
  year_digits s = Some y <->
  exists ob post, s = ob ++ y ++ post /\ (ob = [] \/ ob = [ch "{"]) /\
    length y = 4%nat /\ Forall (fun c => isdecimal c = true) y.
Proof.
  unfold year_digits. split.
  - destruct s as [|c s]; [intros H; apply digits4_spec in H as (post & E & H); 
                            exists [], post; by split; [|split; [left|]]|].
    destruct (N.eqb_spec c (ch "{")) as [->|Hc].
    + intros (post & -> & H)%digits4_spec. exists [ch "{"], post. split; [done|]. split; [by right|done].
    + intros (post & -> & H)%digits4_spec. exists [], post. split; [done|]. split; [by left|done].
  - intros (ob & post & -> & [->| ->] & Hlen & Hd).
    + simpl. destruct y as [|c y]; [done|]. simpl.
      destruct (N.eqb_spec c (ch "{")) as [->|Hc].
      * inversion Hd as [|?? Hc]; subst. rewrite isdecimal_ascii in Hc by done. done.
      * apply digits4_spec. by exists post.
    + cbn [app]. rewrite N.eqb_refl. apply digits4_spec. by exists post.
Qed.

Lemma match_year_tail fl pos s :
  match year_digits s with
  | Some y => exists w r os, match_seq fl year_tail pos s = (w, [y], r) :: os
  | None => match_seq fl year_tail pos s = []
  end.
Proof.
  assert (Hd : forall pos s,
    match digits4 s with
    | Some y => exists w r os,
        match_seq fl [Group (exactly 4 CategoryDigit); opt (Literal (ch "}"))] pos s
        = (w, [y], r) :: os
    | None =>
        match_seq fl [Group (exactly 4 CategoryDigit); opt (Literal (ch "}"))] pos s = []
    end).
  { clear pos s. intros pos s. rewrite match_seq_digits. unfold digits4.
    destruct ((4 <=? length s)%nat && forallb isdecimal (take 4 s)); [|done].
    destruct (opt_last fl (Literal (ch "}")) (pos + length (take 4 s)) (drop 4 s))
      as (w & r & os & ->).
    simpl. by eexists _, _, _. }
  unfold year_tail, year_digits. rewrite match_seq_opt.
  destruct s as [|c s]; [apply Hd|].
  rewrite in_charset_uncased by apply uncased_lbrace.
  destruct (N.eqb_spec c (ch "{")) as [->|Hc]; [|apply Hd].
  pose proof (Hd pos (ch "{" :: s)) as H0. rewrite digits4_None_lbrace in H0.
  rewrite H0, app_nil_r. specialize (Hd (pos + 1)%nat s).
  destruct (digits4 s) as [y|].
  - destruct Hd as (w & r & os & ->). simpl. by eexists _, _, _.
  - by rewrite Hd.
Qed.

Lemma year_tail_refuses_space fl :
  refuses fl year_tail (in_charset fl CategorySpace).
Proof.
  intros pos c s Hc. simpl in Hc.
  pose proof (match_year_tail fl pos (c :: s)) as H.
  assert (E : year_digits (c :: s) = None); [|by rewrite E in H].
  unfold year_digits. destruct (N.eqb_spec c (ch "{")) as [->|_]; [done|].
  unfold digits4. destruct (4 <=? length (c :: s))%nat; [|done].
  simpl. by rewrite (isspace_not_decimal c Hc).
Qed.

Lemma year_re_unfold :
  year_re = literal "year" ++
    star CategorySpace :: One (Literal (ch "=")) :: star CategorySpace :: year_tail.
Proof. done. Qed.

Lemma year_matches fl :
  IGNORECASE fl = true ->
  forall pos s y, year_field_here s y ->
    exists m, first_match (match_seq fl year_re pos s) = Some m /\ group 1 m = y.
Proof.
  intros Hfl pos s y (name & ws1 & ws2 & ob & post & -> & Hn & H1 & H2 & Hob & Hlen & Hd).
  rewrite year_re_unfold. unfold literal, star.
  rewrite match_seq_literals by by apply name_in_charset.
  rewrite match_seq_repeat;
    [| done | done | apply refuses_one, literal_outside; [apply uncased_equals | done]].
  cbn [Nat.leb]. rewrite match_seq_one, in_charset_uncased, N.eqb_refl by apply uncased_equals.
  assert (Hy : year_digits (ob ++ y ++ post) = Some y).
  { apply year_digits_spec. by exists ob, post. }
  assert (Hstop : stops (in_charset fl CategorySpace) (ob ++ y ++ post)).
  { destruct Hob as [-> | ->]; [|done]. destruct y as [|c y]; [done|]. simpl.
    inversion Hd as [|?? Hc]; subst.
    destruct (isspace c) eqn:E; [|done]. by rewrite (isspace_not_decimal c E) in Hc. }
  rewrite match_seq_repeat; [| done | done | apply year_tail_refuses_space].
  cbn [Nat.leb].
  pose proof (match_year_tail fl (pos + length name + length ws1 + 1 + length ws2)
                (ob ++ y ++ post)) as H.
  rewrite Hy in H. destruct H as (w & r & os & ->). simpl. by eexists.
Qed.

Lemma matches_year fl :
  IGNORECASE fl = true ->
  forall pos s m, first_match (match_seq fl year_re pos s) = Some m ->
    year_field_here s (group 1 m).
Proof.
  intros Hfl pos s m Hm. rewrite year_re_unfold in Hm. unfold literal, star in Hm.
  match type of Hm with first_match (match_seq _ (_ ++ ?q) _ _) = _ =>
    destruct (match_seq_literals_inv fl (str "year") q pos s) as (name & s1 & -> & Hn)
  end.
  { intros E. by rewrite E in Hm. }
  rewrite match_seq_literals in Hm by done.
  destruct (run_exists (in_charset fl CategorySpace) s1) as (ws1 & r1 & -> & Hw1 & Hs1).
  rewrite match_seq_repeat in Hm;
    [| done | done | apply refuses_one, literal_outside; [apply uncased_equals | done]].
  cbn [Nat.leb] in Hm. destruct r1 as [|c1 r1]; [done|].
  rewrite match_seq_one, in_charset_uncased in Hm by apply uncased_equals.
  destruct (N.eqb_spec c1 (ch "=")) as [->|]; [|done].
  destruct (run_exists (in_charset fl CategorySpace) r1) as (ws2 & r2 & -> & Hw2 & Hs2).
  rewrite match_seq_repeat in Hm; [| done | done | apply year_tail_refuses_space].
  cbn [Nat.leb] in Hm.
  pose proof (match_year_tail fl (pos + length name + length ws1 + 1 + length ws2) r2) as H.
  destruct (year_digits r2) as [y|] eqn:Hy.
  - destruct H as (w & r & os & E). rewrite E in Hm. simpl in Hm. injection Hm as <-.
    apply year_digits_spec in Hy as (ob & post & -> & Hob & Hlen & Hd).
    exists name, ws1, ws2, ob, post. split; [done|].
    split; [by apply (name_in_charset fl)|done].
  - by rewrite H in Hm.
Qed.

Lemma parse_year_located t y :
  year_located t y -> Entry.year (parse_bibtex_entry t) = y.
Proof.
  intros H.
  destruct (search_first_at ignorecase year_re year_field_here
              (year_matches ignorecase eq_refl) (matches_year ignorecase eq_refl) t y H) as (m & Hm & <-).
  unfold parse_bibtex_entry; simpl. by rewrite Hm.
Qed.

Lemma parse_year_absent t :
  year_absent t -> Entry.year (parse_bibtex_entry t) = [].
Proof.
  intros H. unfold parse_bibtex_entry; simpl.
  by rewrite (search_nowhere ignorecase year_re year_field_here
                (year_matches ignorecase eq_refl) (matches_year ignorecase eq_refl) t H).
Qed.

End YearFacts.

(** ** Fields with empty braces *)

Section ClaimFacts.
Context {ucd : UnicodeData}.

Lemma match_brace_tail_empty fl pos ws1 ws2 post :
  spaces ws1 -> spaces ws2 ->
  match_seq fl brace_tail pos (ws1 ++ ch "=" :: ws2 ++ ch "{" :: ch "}" :: post) = [].
Proof.
  intros H1 H2. unfold brace_tail, star, plus.
  rewrite match_seq_repeat;
    [| done | done | apply refuses_one, literal_outside; [apply uncased_equals | done]].
  cbn [Nat.leb]. rewrite match_seq_one, in_charset_uncased, N.eqb_refl by apply uncased_equals.
  rewrite match_seq_repeat;
    [| done | done | apply refuses_one, literal_outside; [apply uncased_lbrace | done]].
  cbn [Nat.leb]. rewrite match_seq_one, in_charset_uncased, N.eqb_refl by apply uncased_lbrace.
  rewrite (match_seq_group_repeat fl 1 _ _ _ [] (ch "}" :: post)); [done | constructor | |].
  - unfold stops. rewrite in_charset_not_uncased by apply uncased_rbrace.
    by rewrite N.eqb_refl.
  - apply refuses_one. intros c Hc.
    rewrite in_charset_not_uncased in Hc by apply uncased_rbrace.
    rewrite in_charset_uncased by apply uncased_rbrace.
    by destruct (c =? ch "}").
Qed.

(** Where a field has empty braces the pattern does not match. *)
Lemma empty_field_no_match f t i v :
  empty_field_at f t i -> ~ brace_field_start f (drop i t) v.
Proof.
  intros (name & ws1 & ws2 & post & E & Hn & H1 & H2) Hv.
  destruct (brace_field_matches ignorecase f eq_refl 0%nat _ _ Hv) as (m & Hm & _).
  rewrite E in Hm. unfold brace_field_re, literal in Hm. fold brace_tail in Hm.
  rewrite match_seq_literals in Hm by by apply name_in_charset.
  by rewrite match_brace_tail_empty in Hm.
Qed.

Lemma empty_only_absent f t : empty_only f t -> absent f t.
Proof.
  intros (i & Hi & Hother) j v. destruct (decide (j = i)) as [->|Hne].
  - by apply empty_field_no_match.
  - by apply Hother.
Qed.

End ClaimFacts.

(** C1. The entry [booktitle_first_text] has the field
    [title = {Long-tailed Learning}], and that is its only field named
    [title]; the parsed title should be [Long-tailed Learning].  The parser
    returns the value of the [booktitle] field instead: the scan for
    [title = {...}] also fires on the last five letters of [booktitle]. *)
Theorem title_taken_from_booktitle {ucd : UnicodeData} :
  (exists pre post,
     booktitle_first_text = pre ++ str ", title = {Long-tailed Learning}" ++ post) /\
  Entry.title (parse_bibtex_entry booktitle_first_text) = str "Proceedings of MICCAI" /\
  Entry.title (parse_bibtex_entry booktitle_first_text) <> strip (str "Long-tailed Learning").
Proof.
  rewrite parse_bibtex_entry_ascii by done. split; [|split].
  - exists (str "@inproceedings{doe2021, author = {Jane Doe}, booktitle = {Proceedings of MICCAI}"),
           (str ", year = {2021}}").
    vm_compute. reflexivity.
  - vm_compute. reflexivity.
  - vm_compute. discriminate.
Qed.

(** ** Fields and the places the scan fires at *)

Lemma field_value_located f t v :
  whole_names f t -> field_value f t v -> located f t v.
Proof.
  intros Hw (i & [_ Hv] & Hmin). exists i. split; [exact Hv|].
  intros j v' Hj Hv'. apply (Hmin j v' Hj). split; [by apply (Hw j v')|done].
Qed.

Lemma located_field_value f t v :
  whole_names f t -> located f t v -> field_value f t v.
Proof.
  intros Hw (i & Hv & Hmin). exists i. split; [split; [by apply (Hw i v)|done]|].
  intros j v' Hj [_ Hv']. by apply (Hmin j v' Hj).
Qed.

Lemma field_missing_absent f t :
  whole_names f t -> field_missing f t -> absent f t.
Proof. intros Hw Hm i v Hv. apply (Hm i v). split; [by apply (Hw i v)|done]. Qed.

Lemma absent_field_missing f t : absent f t -> field_missing f t.
Proof. intros Ha i v [_ Hv]. by apply (Ha i v). Qed.

Lemma brace_field_start_length f s v :
  brace_field_start f s v -> (2 <= length s)%nat.
Proof.
  intros (post & name & ws1 & ws2 & -> & _).
  rewrite !length_app. cbn [length]. rewrite !length_app. cbn [length]. lia.
Qed.

Lemma whole_names_intro {ucd : UnicodeData} f t :
  whole_names_check f t = true -> whole_names f t.
Proof.
  intros Hc i v Hv.
  assert (Hi : (i <= length t)%nat).
  { destruct (decide (i <= length t)%nat) as [|Hgt]; [done|].
    apply brace_field_start_length in Hv. rewrite length_drop in Hv. lia. }
  unfold whole_names_check in Hc.
  pose proof (proj1 (forallb_forall _ _) Hc i) as Hhere.
  assert (Hf : fires f t i = true).
  { unfold fires.
    by destruct (brace_field_matches ignorecase f eq_refl i _ _ Hv) as (m & -> & _). }
  cbv beta in Hhere. rewrite Hf in Hhere. apply Hhere, in_seq. lia.
Qed.

(** What the scan does on [short_journal_text]: the pattern of [journal]
    fires on the last seven letters of [shortjournal] first. *)
Example venue_from_shortjournal {ucd : UnicodeData} :
  Entry.venue (parse_bibtex_entry short_journal_text) = str "Nat. Med.".
Proof. rewrite parse_bibtex_entry_ascii by done. vm_compute. reflexivity. Qed.

(** C4 (as amended). On a text in which the shapes [journal = {value}] and
    [booktitle = {value}] stand on whole names only, the venue follows a
    strict priority.  When a journal field with a character in its braces
    is present, the venue is the value of the first one, trimmed, whether or
    not a booktitle field is present too.  When none is, and a booktitle
    field with a character in its braces is present, the venue is the value
    of the first one, trimmed.  When neither is, the venue is the empty
    string.  A field written with empty braces counts as not present. *)
Theorem venue_journal_first {ucd : UnicodeData} (t : text) :
  whole_names "journal" t -> whole_names "booktitle" t ->
  (forall vj, field_value "journal" t vj ->
     Entry.venue (parse_bibtex_entry t) = strip vj) /\
  (forall vj vb, field_value "journal" t vj -> field_value "booktitle" t vb ->
     Entry.venue (parse_bibtex_entry t) = strip vj) /\
  (forall vb, field_missing "journal" t -> field_value "booktitle" t vb ->
     Entry.venue (parse_bibtex_entry t) = strip vb) /\
  (field_missing "journal" t -> field_missing "booktitle" t ->
     Entry.venue (parse_bibtex_entry t) = []).
Proof.
  intros Hwj Hwb. split; [|split; [|split]].
  - intros vj Hj. by apply parse_venue_journal, field_value_located.
  - intros vj vb Hj _. by apply parse_venue_journal, field_value_located.
  - intros vb Hj Hb.
    apply parse_venue_booktitle; [by apply field_missing_absent|].
    by apply field_value_located.
  - intros Hj Hb. apply parse_venue_absent; by apply field_missing_absent.
Qed.

Lemma venue_journal_first_witness :
  (let t := str "@article{k, booktitle = {Proc. X}, journal = { Nature }}" in
   whole_names "journal" t /\ whole_names "booktitle" t /\
   field_value "journal" t (str " Nature ") /\
   field_value "booktitle" t (str "Proc. X") /\
   Entry.venue (parse_bibtex_entry t) = str "Nature") /\
  (let t := str "@inproceedings{k, journal = {}, booktitle = { Proc. X }}" in
   whole_names "journal" t /\ whole_names "booktitle" t /\
   field_missing "journal" t /\ field_value "booktitle" t (str " Proc. X ") /\
   Entry.venue (parse_bibtex_entry t) = str "Proc. X").
Proof.
  split; intros t.
  - assert (Hwj : whole_names "journal" t).
    { apply whole_names_intro. vm_compute. reflexivity. }
    assert (Hwb : whole_names "booktitle" t).
    { apply whole_names_intro. vm_compute. reflexivity. }
    assert (Hj : field_value "journal" t (str " Nature ")).
    { apply located_field_value; [exact Hwj|].
      eapply located_intro; vm_compute; reflexivity. }
    assert (Hb : field_value "booktitle" t (str "Proc. X")).
    { apply located_field_value; [exact Hwb|].
      eapply located_intro; vm_compute; reflexivity. }
    split; [exact Hwj|]. split; [exact Hwb|]. split; [exact Hj|]. split; [exact Hb|].
    exact (proj1 (proj2 (venue_journal_first t Hwj Hwb)) _ _ Hj Hb).
  - assert (Hwj : whole_names "journal" t).
    { apply whole_names_intro. vm_compute. reflexivity. }
    assert (Hwb : whole_names "booktitle" t).
    { apply whole_names_intro. vm_compute. reflexivity. }
    assert (Hj : field_missing "journal" t).
    { apply absent_field_missing, absent_intro. vm_compute. reflexivity. }
    assert (Hb : field_value "booktitle" t (str " Proc. X ")).
    { apply located_field_value; [exact Hwb|].
      eapply located_intro; vm_compute; reflexivity. }
    split; [exact Hwj|]. split; [exact Hwb|]. split; [exact Hj|]. split; [exact Hb|].
    exact (proj1 (proj2 (proj2 (venue_journal_first t Hwj Hwb))) _ Hj Hb).
Defined.

(** C4 (as stated) fails where the journal field has empty braces: the
    field is present and its value is the empty string, yet the venue is
    the booktitle. *)
Lemma empty_journal_not_the_venue :
  ~ (forall (ucd : UnicodeData) (t : text) (i : nat),
       whole_names "journal" t -> whole_names "booktitle" t ->
       field_empty_at "journal" t i ->
       Entry.venue (parse_bibtex_entry t) = []).
Proof.
  intros H.
  specialize (H ascii_tables
                (str "@inproceedings{k, booktitle = {Proc. Y}, journal = {}}") 41%nat).
  assert (Hv : Entry.venue (parse_bibtex_entry
                 (str "@inproceedings{k, booktitle = {Proc. Y}, journal = {}}")) = []).
  { apply H.
    - apply whole_names_intro. vm_compute. reflexivity.
    - apply whole_names_intro. vm_compute. reflexivity.
    - split; [vm_compute; reflexivity|].
      exists (str "journal"), (str " "), (str " "), (str "}").
      split; [vm_compute; reflexivity|].
      unfold ci_name, spaces.
      split; [|split]; apply (bool_decide_unpack _); vm_compute; exact I. }
  vm_compute in Hv. discriminate Hv.
Qed.

(** C5 (as amended). On a text in which the shape [abstract = {value}]
    stands on whole names only: when an abstract field with a character in
    its braces is present, the abstract is the value of the first one
    without its leading and trailing white space; when none is (no abstract
    field, or empty braces only) it is the placeholder
    [Abstract not available.]. *)
Theorem abstract_or_placeholder {ucd : UnicodeData} (t : text) :
  whole_names "abstract" t ->
  (forall v, field_value "abstract" t v ->
     Entry.abstract (parse_bibtex_entry t) = strip v) /\
  (field_missing "abstract" t ->
     Entry.abstract (parse_bibtex_entry t) = str "Abstract not available.").
Proof.
  intros Hw. split.
  - intros v Hv. by apply parse_abstract_located, field_value_located.
  - intros Hm. by apply parse_abstract_absent, field_missing_absent.
Qed.

Lemma abstract_or_placeholder_witness :
  (whole_names "abstract" scenario_text /\ field_missing "abstract" scenario_text /\
   Entry.abstract (parse_bibtex_entry scenario_text) = str "Abstract not available.") /\
  (let t := str "@misc{k, Abstract = { We  study. }}" in
   whole_names "abstract" t /\ field_value "abstract" t (str " We  study. ") /\
   Entry.abstract (parse_bibtex_entry t) = str "We  study.").
Proof.
  split.
  - assert (Hw : whole_names "abstract" scenario_text).
    { apply whole_names_intro. vm_compute. reflexivity. }
    assert (Ha : field_missing "abstract" scenario_text).
    { apply absent_field_missing, absent_intro. vm_compute. reflexivity. }
    split; [exact Hw|]. split; [exact Ha|].
    exact (proj2 (abstract_or_placeholder scenario_text Hw) Ha).
  - intros t.
    assert (Hw : whole_names "abstract" t).
    { apply whole_names_intro. vm_compute. reflexivity. }
    assert (Ha : field_value "abstract" t (str " We  study. ")).
    { apply located_field_value; [exact Hw|].
      eapply located_intro; vm_compute; reflexivity. }
    split; [exact Hw|]. split; [exact Ha|].
    exact (proj1 (abstract_or_placeholder t Hw) _ Ha).
Defined.

(** C5 (as stated) fails where the abstract field has empty braces: the
    field is present and its trimmed text is the empty string, yet the
    abstract is the placeholder. *)
Lemma empty_abstract_gives_placeholder :
  ~ (forall (ucd : UnicodeData) (t : text) (i : nat),
       whole_names "abstract" t -> field_empty_at "abstract" t i ->
       Entry.abstract (parse_bibtex_entry t) = []).
Proof.
  intros H.
  specialize (H ascii_tables (str "@misc{k, abstract = {}}") 9%nat).
  assert (Hv : Entry.abstract (parse_bibtex_entry (str "@misc{k, abstract = {}}")) = []).
  { apply H.
    - apply whole_names_intro. vm_compute. reflexivity.
    - split; [vm_compute; reflexivity|].
      exists (str "abstract"), (str " "), (str " "), (str "}").
      split; [vm_compute; reflexivity|].
      unfold ci_name, spaces.
      split; [|split]; apply (bool_decide_unpack _); vm_compute; exact I. }
  vm_compute in Hv. discriminate Hv.
Qed.


Lemma no_header_intro {ucd : UnicodeData} t :
  re_match id_re t no_flags = None ->
  forall ty key rest, ~ header_here t ty key rest.
Proof.
  intros E ty key rest H. destruct (match_id _ _ _ _ H) as [whole E']. congruence.
Qed.



(** C10 (as amended). A field written with empty braces is not matched
    where it stands, since the patterns ask for at least one character
    between the braces.  When the text has the shape [f = {value}] nowhere
    else, the field counts as absent: the abstract is the placeholder,
    title and authors are the empty string, and the venue is resolved
    without the field: with empty braces after [journal] it is the
    booktitle when one is located, and it is the empty string when
    neither journal nor booktitle has a value. *)
Theorem empty_braces_as_absent {ucd : UnicodeData} (t : text) :
  (forall f i v, empty_field_at f t i -> ~ brace_field_start f (drop i t) v) /\
  (forall f, empty_only f t -> absent f t) /\
  (empty_only "abstract" t ->
     Entry.abstract (parse_bibtex_entry t) = str "Abstract not available.") /\
  (empty_only "title" t -> Entry.title (parse_bibtex_entry t) = []) /\
  (empty_only "author" t -> Entry.authors (parse_bibtex_entry t) = []) /\
  (forall vb, empty_only "journal" t -> located "booktitle" t vb ->
     Entry.venue (parse_bibtex_entry t) = strip vb) /\
  (empty_only "journal" t -> absent "booktitle" t \/ empty_only "booktitle" t ->
     Entry.venue (parse_bibtex_entry t) = []) /\
  (absent "journal" t -> empty_only "booktitle" t ->
     Entry.venue (parse_bibtex_entry t) = []).
Proof.
  split; [|split; [|split; [|split; [|split; [|split; [|split]]]]]].
  - intros f i v. apply empty_field_no_match.
  - intros f. apply empty_only_absent.
  - intros H. by apply parse_abstract_absent, empty_only_absent.
  - intros H. by apply parse_title_absent, empty_only_absent.
  - intros H. by apply parse_authors_absent, empty_only_absent.
  - intros vb Hj Hb. by apply parse_venue_booktitle; [apply empty_only_absent|].
  - intros Hj [Hb|Hb]; apply parse_venue_absent;
      auto using empty_only_absent.
  - intros Hj Hb. apply parse_venue_absent; auto using empty_only_absent.
Qed.

Lemma empty_only_intro {ucd : UnicodeData} f t i :
  empty_field_at f t i ->
  re_search (brace_field_re f) t ignorecase = None ->
  empty_only f t.
Proof.
  intros Hi Hs. exists i. split; [done|]. intros j v _. by apply absent_intro.
Qed.

Lemma empty_braces_as_absent_witness :
  let t := str "@misc{k, title = {}, abstract={}, journal = {}}" in
  empty_only "title" t /\ empty_only "abstract" t /\ empty_only "journal" t /\
  absent "booktitle" t /\
  Entry.title (parse_bibtex_entry t) = [] /\
  Entry.abstract (parse_bibtex_entry t) = str "Abstract not available." /\
  Entry.venue (parse_bibtex_entry t) = [].
Proof.
  intros t.
  assert (Ht : empty_only "title" t).
  { apply (empty_only_intro _ _ 9).
    - exists (str "title"), (str " "), (str " "), (str ", abstract={}, journal = {}}").
      split; [vm_compute; reflexivity|].
      unfold ci_name, spaces.
      split; [|split]; apply (bool_decide_unpack _); vm_compute; exact I.
    - vm_compute. reflexivity. }
  assert (Ha : empty_only "abstract" t).
  { apply (empty_only_intro _ _ 21).
    - exists (str "abstract"), [], [], (str ", journal = {}}").
      split; [vm_compute; reflexivity|].
      unfold ci_name, spaces.
      split; [|split]; apply (bool_decide_unpack _); vm_compute; exact I.
    - vm_compute. reflexivity. }
  assert (Hj : empty_only "journal" t).
  { apply (empty_only_intro _ _ 34).
    - exists (str "journal"), (str " "), (str " "), (str "}").
      split; [vm_compute; reflexivity|].
      unfold ci_name, spaces.
      split; [|split]; apply (bool_decide_unpack _); vm_compute; exact I.
    - vm_compute. reflexivity. }
  assert (Hb : absent "booktitle" t).
  { apply absent_intro. vm_compute. reflexivity. }
  pose proof (empty_braces_as_absent t) as (_ & _ & H1 & H2 & _ & _ & H4 & _).
  repeat split; auto.
Defined.

(** C10 (as stated) fails for the venue: with empty braces after [journal]
    the parser goes on to the booktitle, and the venue is not empty. *)
Lemma empty_journal_falls_back :
  ~ (forall (ucd : UnicodeData) (t : text) (i : nat),
       empty_field_at "journal" t i -> Entry.venue (parse_bibtex_entry t) = []).
Proof.
  intros H.
  specialize (H ascii_tables
                (str "@inproceedings{k, journal = {}, booktitle = {Proc. X}}") 18%nat).
  assert (He : empty_field_at "journal"
                 (str "@inproceedings{k, journal = {}, booktitle = {Proc. X}}") 18).
  { exists (str "journal"), (str " "), (str " "), (str ", booktitle = {Proc. X}}").
    split; [vm_compute; reflexivity|].
    unfold ci_name, spaces.
    split; [|split]; apply (bool_decide_unpack _); vm_compute; exact I. }
  specialize (H He). vm_compute in H. discriminate H.
Qed.

(** ** The folder initializer *)

Lemma setup_loop_existing names citations created existing :
  Forall (exists_at citations) names ->
  setup_loop names citations created existing =
  (citations, Some (created, (existing + length names)%nat)).
Proof.
  intros H. revert existing. induction H as [|n names (node & Hn & Hb) H IH];
    intros existing; simpl.
  - by rewrite Nat.add_0_r.
  - rewrite Hn. destruct node; [| |done]; rewrite IH; do 3 f_equal; lia.
Qed.

Lemma setup_loop_creates names citations created existing after counts :
  setup_loop names citations created existing = (after, Some counts) ->
  citations ⊆ after /\ Forall (exists_at after) names.
Proof.
  revert citations created existing. induction names as [|n names IH];
    intros citations created existing; simpl.
  - intros [= <- _]. split; [done | constructor].
  - destruct (citations !! n) as [node|] eqn:Hn.
    + destruct node; [| |done]; intros H; destruct (IH _ _ _ H) as [Hsub Hall];
        (split; [done|]); constructor; try done;
        eexists; (split; [by eapply lookup_weaken|done]).
    + intros H. destruct (IH _ _ _ H) as [Hsub Hall]. split.
      * etrans; [|exact Hsub]. by apply insert_subseteq.
      * constructor; [|done]. exists (Folder ∅). split; [|done].
        eapply lookup_weaken; [|exact Hsub]. apply lookup_insert_eq.
Qed.

(** C9. After a run of the folder initializer that raised no error, a
    second run changes nothing in the citations directory, raises no
    error, and counts no folder as created and all ten as existing.  The
    first run itself kept every entry that was there. *)
Theorem folder_initializer_idempotent
  (citations_dir after : path_state root_node) (counts : nat * nat) :
  setup_folders_main citations_dir = (after, Some counts) ->
  setup_folders_main after = (after, Some (0, 10)%nat) /\
  exists entries, after = Directory entries /\
    Forall (exists_at entries) (CATEGORIES.*1) /\
    forall before, citations_dir = Directory before -> before ⊆ entries.
Proof.
  unfold setup_folders_main.
  destruct (mkdir_exist_ok citations_dir) as [citations|] eqn:Hmk; [|done].
  destruct (setup_loop (CATEGORIES.*1) citations 0 0) as [entries r] eqn:Hloop.
  cbn [fst snd]. intros [= <- ->].
  destruct (setup_loop_creates _ _ _ _ _ _ Hloop) as [Hsub Hall].
  split.
  - cbn [mkdir_exist_ok]. by rewrite (setup_loop_existing _ _ 0 0 Hall).
  - exists entries. split; [done|]. split; [done|].
    intros before ->. by injection Hmk as ->.
Qed.

Lemma folder_initializer_idempotent_witness :
  setup_folders_main Missing = ((setup_folders_main Missing).1, Some (10, 0)%nat) /\
  setup_folders_main (setup_folders_main Missing).1 =
  ((setup_folders_main Missing).1, Some (0, 10)%nat).
Proof.
  assert (H : setup_folders_main Missing
              = ((setup_folders_main Missing).1, Some (10, 0)%nat)).
  { vm_compute. reflexivity. }
  split; [exact H|].
  exact (proj1 (folder_initializer_idempotent Missing _ _ H)).
Defined.

(** ** The order of names *)

Lemma text_le_total : Total text_le.
Proof.
  intros a. unfold text_le. induction a as [|x a IH]; intros [|y b]; simpl; auto.
  destruct (IH b) as [H|H]; rewrite H;
    destruct (N.ltb_spec0 x y), (N.ltb_spec0 y x), (N.eqb_spec x y), (N.eqb_spec y x);
    simpl; auto; lia.
Qed.

Lemma text_le_trans : Transitive text_le.
Proof.
  intros a. unfold text_le. induction a as [|x a IH]; intros [|y b] [|z c]; simpl; try done.
  intros H1 H2.
  destruct (N.ltb_spec0 x y), (N.ltb_spec0 y z), (N.ltb_spec0 x z),
    (N.eqb_spec x y), (N.eqb_spec y z), (N.eqb_spec x z);
    simpl in *; try done; try lia.
  by apply (IH b c).
Qed.

Lemma text_le_antisym : AntiSymm (=) text_le.
Proof.
  intros a. unfold text_le. induction a as [|x a IH]; intros [|y b]; simpl; try done.
  intros H1 H2.
  destruct (N.ltb_spec0 x y), (N.ltb_spec0 y x), (N.eqb_spec x y), (N.eqb_spec y x);
    simpl in *; try done; try lia.
  subst. f_equal. by apply IH.
Qed.

#[local] Existing Instances text_le_total text_le_trans text_le_antisym.

Lemma sorted_Permutation names : sorted names ≡ₚ names.
Proof. apply merge_sort_Permutation. Qed.

Lemma sorted_StronglySorted names : StronglySorted text_le (sorted names).
Proof. apply StronglySorted_merge_sort; apply _. Qed.

(** A list has one sorted arrangement only. *)
Lemma sorted_unique names l :
  l ≡ₚ names -> StronglySorted text_le l -> sorted names = l.
Proof.
  intros Hp Hs. apply (StronglySorted_unique text_le); [apply sorted_StronglySorted | done |].
  by rewrite sorted_Permutation, Hp.
Qed.

(** ** The category walker *)

Lemma elem_of_iterdir {A} (d : gmap text A) name :
  name ∈ iterdir d <-> is_Some (d !! name).
Proof.
  unfold iterdir. rewrite list_elem_of_fmap. split.
  - intros ([k v] & -> & H). apply elem_of_map_to_list in H. by exists v.
  - intros [v H]. exists (name, v). split; [done|]. by apply elem_of_map_to_list.
Qed.

Lemma NoDup_iterdir {A} (d : gmap text A) : NoDup (iterdir d).
Proof. apply NoDup_fst_map_to_list. Qed.

Lemma elem_of_glob_bib folder name :
  name ∈ glob_bib folder <-> is_Some (folder !! name) /\ str ".bib" `suffix_of` name.
Proof. unfold glob_bib. rewrite list_elem_of_filter, elem_of_iterdir. tauto. Qed.

Section WalkerFacts.
Context {ucd : UnicodeData}.

Lemma bib_files_spec folder :
  (forall name, name ∈ bib_files folder <->
     is_Some (folder !! name) /\ str ".bib" `suffix_of` name) /\
  NoDup (bib_files folder) /\ StronglySorted text_le (bib_files folder).
Proof.
  unfold bib_files. split; [|split].
  - intros name. by rewrite sorted_Permutation, elem_of_glob_bib.
  - rewrite sorted_Permutation. apply NoDup_filter, NoDup_iterdir.
  - apply sorted_StronglySorted.
Qed.

Lemma process_category_papers name folder :
  bib_files_readable folder ->
  exists doc, process_category name folder = Some doc /\
    Forall2 (fun file entry =>
               exists content, folder !! file = Some (RegularFile (Some content)) /\
                 entry = parse_bibtex_entry content)
            (bib_files folder) (papers doc).
Proof.
  intros Hr. unfold process_category. fold (bib_files folder).
  set (read := fun bib_file : text =>
                 read_text folder bib_file ≫= fun c => Some (parse_bibtex_entry c)).
  assert (Hall : Forall (fun file => exists content,
                   folder !! file = Some (RegularFile (Some content)) /\
                   read file = Some (parse_bibtex_entry content)) (bib_files folder)).
  { apply Forall_forall. intros file Hf.
    apply (proj1 (bib_files_spec folder)) in Hf as [[node Hn] Hs].
    destruct (Hr _ _ Hn Hs) as [content ->]. exists content. split; [done|].
    unfold read, read_text. by rewrite Hn. }
  destruct (mapM read (bib_files folder)) as [ps|] eqn:E.
  - eexists. split; [reflexivity|]. simpl.
    apply mapM_Some in E. revert Hall. clear -E.
    induction E as [|file e files es He E IH]; [constructor|].
    intros Hall. inversion Hall as [|?? (content & Hc & Hread) Hall']; subst.
    constructor; [|by apply IH]. exists content. split; [done|]. congruence.
  - exfalso. assert (Hs : is_Some (mapM read (bib_files folder))); [|by rewrite E in Hs; destruct Hs].
    apply mapM_is_Some. eapply Forall_impl; [exact Hall|].
    intros file (content & _ & Hread). unfold compose. rewrite Hread. by eexists.
Qed.

End WalkerFacts.

(** C2 (as amended). When every entry of the category folder named
    [*.bib] is a readable file, the document has one record per such file:
    the parse of its content, in the order of the sorted file names.  The
    names are the [*.bib] entries of the folder, each once, in increasing
    order, so with N such files the paper list has N records. *)
Theorem papers_one_per_bib_file {ucd : UnicodeData}
  (category_name : text) (folder : gmap text file_node) :
  bib_files_readable folder ->
  exists doc,
    process_category category_name folder = Some doc /\
    Forall2 (fun file entry =>
               exists content, folder !! file = Some (RegularFile (Some content)) /\
                 entry = parse_bibtex_entry content)
            (bib_files folder) (papers doc) /\
    length (papers doc) = length (bib_files folder) /\
    (forall name, name ∈ bib_files folder <->
       is_Some (folder !! name) /\ str ".bib" `suffix_of` name) /\
    NoDup (bib_files folder) /\ StronglySorted text_le (bib_files folder).
Proof.
  intros Hr. destruct (process_category_papers category_name folder Hr) as (doc & Hd & Hp).
  exists doc. split; [done|]. split; [done|].
  split; [symmetry; by eapply Forall2_length|]. apply bib_files_spec.
Qed.

Lemma papers_one_per_bib_file_witness :
  bib_files_readable two_papers_and_notes /\
  exists doc, process_category (str "surveys") two_papers_and_notes = Some doc /\
    length (papers doc) = length (bib_files two_papers_and_notes).
Proof.
  assert (Hr : bib_files_readable two_papers_and_notes).
  { intros name node Hn Hs. unfold two_papers_and_notes in Hn.
    apply lookup_insert_Some in Hn as [[<- <-]|[_ Hn]]; [by eexists|].
    apply lookup_insert_Some in Hn as [[<- <-]|[_ Hn]]; [by eexists|].
    apply lookup_singleton_Some in Hn as [<- <-]. by eexists. }
  split; [exact Hr|].
  destruct (papers_one_per_bib_file (str "surveys") two_papers_and_notes Hr)
    as (doc & Hd & _ & Hlen & _).
  exists doc. split; [exact Hd | exact Hlen].
Defined.

(** C2 (as stated) fails: a file of the folder that is not named [*.bib]
    gives no record.  The folder [two_papers_and_notes] has three files and
    its document two records, for [a.bib] and [b.bib]. *)
Lemma non_bib_file_not_counted :
  ~ (forall (ucd : UnicodeData) (category_name : text)
            (folder : gmap text file_node) (doc : Taxonomy),
       process_category category_name folder = Some doc ->
       length (papers doc) = size folder).
Proof.
  intros H.
  assert (E : exists doc,
             @process_category ascii_tables (str "surveys") two_papers_and_notes = Some doc /\
             map Entry.id (papers doc) = [str "a"; str "b"]).
  { eexists. split; vm_compute; reflexivity. }
  destruct E as (doc & Hdoc & Hids).
  specialize (H ascii_tables _ _ _ Hdoc).
  apply (f_equal (@length text)) in Hids. rewrite length_map in Hids.
  rewrite Hids in H. vm_compute in H. discriminate H.
Qed.

(** ** The build driver *)

Lemma StronglySorted_filter {A} (R : relation A) (P : A -> Prop)
  `{!forall x, Decision (P x)} (l : list A) :
  StronglySorted R l -> StronglySorted R (filter P l).
Proof.
  induction 1 as [|x l Hl IH Hx]; [constructor|].
  rewrite filter_cons. destruct (decide (P x)); [|done].
  constructor; [done|]. apply Forall_forall. intros y [_ Hy]%list_elem_of_filter.
  rewrite Forall_forall in Hx. by apply Hx.
Qed.

Lemma sorted_iterdir_delete {A} (d : gmap text A) name :
  sorted (iterdir (delete name d)) = filter (fun n => n <> name) (sorted (iterdir d)).
Proof.
  apply sorted_unique.
  - apply NoDup_Permutation.
    + apply NoDup_filter. rewrite sorted_Permutation. apply NoDup_iterdir.
    + apply NoDup_iterdir.
    + intros n. rewrite list_elem_of_filter, sorted_Permutation, !elem_of_iterdir.
      rewrite lookup_delete_is_Some. intuition congruence.
  - apply StronglySorted_filter, sorted_StronglySorted.
Qed.

Section DriverFacts.
Context {ucd : UnicodeData}.

(** The loop leaves alone the output file and the count of a name that is
    not in the category table. *)
Lemma build_loop_unknown citations names output stats name :
  known_category CATEGORY_INFO name = false ->
  (build_loop citations names output stats).1 !! (name ++ str ".json")
    = output !! (name ++ str ".json") /\
  forall stats', (build_loop citations names output stats).2 = Some stats' ->
    stats' !! name = stats !! name.
Proof.
  intros Hname. revert output stats.
  induction names as [|n names IH]; intros output stats; cbn [build_loop].
  - split; [done|]. by intros ? [= <-].
  - destruct (citations !! n) as [[|entries|]|]; try apply IH.
    destruct (known_category CATEGORY_INFO n) eqn:Hn; [|apply IH].
    destruct (process_category n entries) as [taxonomy|]; [|done].
    assert (Hne : n <> name) by congruence.
    assert (Hfile : n ++ str ".json" <> name ++ str ".json").
    { intros E. by apply app_inv_tail in E. }
    destruct (output !! (n ++ str ".json")) as [[| |]|];
      try done;
      (destruct (IH (<[n ++ str ".json" := JsonFile taxonomy]> output)
                    (<[n := length (papers taxonomy)]> stats)) as [H1 H2];
       split; [by rewrite H1, lookup_insert_ne|];
       intros stats' Hs; by rewrite (H2 _ Hs), lookup_insert_ne).
Qed.

(** The loop runs as if the name were not in the directory. *)
Lemma build_loop_delete citations names output stats name :
  known_category CATEGORY_INFO name = false ->
  build_loop (delete name citations) (filter (fun n => n <> name) names) output stats
  = build_loop citations names output stats.
Proof.
  intros Hname. revert output stats.
  induction names as [|n names IH]; intros output stats; [done|].
  rewrite filter_cons. destruct (decide (n <> name)) as [Hne|Heq].
  - cbn [build_loop]. rewrite lookup_delete_ne by done.
    destruct (citations !! n) as [[|entries|]|]; try apply IH.
    destruct (known_category CATEGORY_INFO n); [|apply IH].
    destruct (process_category n entries) as [taxonomy|]; [|done].
    destruct (output !! (n ++ str ".json")) as [[| |]|]; try done; apply IH.
  - apply dec_stable in Heq as ->. cbn [build_loop]. rewrite Hname, IH.
    by destruct (citations !! name) as [[|entries|]|].
Qed.

End DriverFacts.

(** C7. A folder of the citations directory whose name is not in the
    category table is skipped: the run leaves [name.json] in the output
    directory as it was, [stats] has no count for the name, and the run
    ends as it would without the folder, with the same output files, the
    same counts, and an error only if that run has one. *)
Theorem unknown_folder_skipped {ucd : UnicodeData}
  (citations : gmap text root_node) (output_dir : path_state out_node)
  (name : text) (entries : gmap text file_node) :
  citations !! name = Some (Folder entries) ->
  known_category CATEGORY_INFO name = false ->
  let r := build_all_taxonomies (Directory citations) output_dir in
  entry_of r.1.2 (name ++ str ".json") = entry_of output_dir (name ++ str ".json") /\
  (forall stats, r.2 = Some stats -> stats !! name = None) /\
  build_all_taxonomies (Directory (delete name citations)) output_dir
  = (Directory (delete name citations), r.1.2, r.2).
Proof.
  intros Hfolder Hname. unfold build_all_taxonomies. cbn [mkdir_exist_ok].
  destruct (mkdir_exist_ok output_dir) as [output|] eqn:Hout; cbn [fst snd].
  - pose proof (build_loop_unknown citations (sorted (iterdir citations)) output ∅
                  name Hname) as [H1 H2].
    split; [|split].
    + cbn [entry_of]. rewrite H1. by destruct output_dir; simplify_eq/=.
    + intros stats Hs. by rewrite (H2 _ Hs).
    + by rewrite sorted_iterdir_delete, build_loop_delete.
  - by destruct output_dir.
Qed.

Lemma unknown_folder_skipped_witness :
  known_category CATEGORY_INFO (str "drafts") = false /\
  (build_all_taxonomies (Directory citations_with_drafts) Missing).2
    = Some {[ str "surveys" := 2%nat ]} /\
  forall stats,
    (build_all_taxonomies (Directory citations_with_drafts) Missing).2 = Some stats ->
    stats !! str "drafts" = None.
Proof.
  assert (H1 : citations_with_drafts !! str "drafts"
               = Some (Folder {[ str "c.bib" := RegularFile (Some (str "@misc{c,}")) ]})).
  { vm_compute. reflexivity. }
  assert (H2 : known_category CATEGORY_INFO (str "drafts") = false).
  { vm_compute. reflexivity. }
  split; [exact H2|]. split; [vm_compute; reflexivity|].
  pose proof (unknown_folder_skipped citations_with_drafts Missing (str "drafts") _ H1 H2) as H.
  cbv zeta in H. exact (proj1 (proj2 H)).
Defined.

(** * Further properties *)

(** ** The folder initializer, entry by entry *)

Lemma filter_ext_Forall {A} (P Q : A -> Prop)
  `{!forall x, Decision (P x), !forall x, Decision (Q x)} (l : list A) :
  Forall (fun x => P x <-> Q x) l -> filter P l = filter Q l.
Proof.
  induction 1 as [|x l Hx Hl IH]; [done|].
  rewrite !filter_cons, IH.
  destruct (decide (P x)), (decide (Q x)); tauto.
Qed.

Ltac elem_cons :=
  repeat match goal with
         | H : context [_ ∈ _ :: _] |- _ => rewrite elem_of_cons in H
         end;
  rewrite ?elem_of_cons; intuition congruence.

Lemma CATEGORIES_NoDup : NoDup (CATEGORIES.*1).
Proof. apply (bool_decide_unpack _). vm_compute. exact I. Qed.

Lemma setup_loop_spec names citations created existing after c e :
  NoDup names ->
  setup_loop names citations created existing = (after, Some (c, e)) ->
  (forall n, after !! n =
     match citations !! n with
     | Some node => Some node
     | None => if decide (n ∈ names) then Some (Folder ∅) else None
     end) /\
  c = (created + length (missing_names citations names))%nat /\
  e = (existing + length (present_names citations names))%nat.
Proof.
  unfold missing_names, present_names.
  intros Hnd. revert citations created existing.
  induction Hnd as [|n names Hn Hnd IH]; intros citations created existing; simpl.
  - intros [= <- <- <-]. split; [|lia]. intros n. by destruct (citations !! n).
  - rewrite !filter_cons. destruct (citations !! n) as [node|] eqn:Hcn.
    + assert (Hs : is_Some (Some node)) by by eexists.
      destruct (decide (is_Some (Some node))) as [_|]; [|done].
      destruct (decide (~ is_Some (Some node))) as [|_]; [done|].
      assert (Hloop : setup_loop names citations created (S existing) = (after, Some (c, e)) ->
        (forall k, after !! k =
           match citations !! k with
           | Some node => Some node
           | None => if decide (k ∈ n :: names) then Some (Folder ∅) else None
           end) /\
        c = (created + length (filter (fun n => ~ is_Some (citations !! n)) names))%nat /\
        e = (existing + length (n :: filter (fun n => is_Some (citations !! n)) names))%nat).
      { intros H. destruct (IH _ _ _ H) as (Hafter & -> & ->).
        split; [|simpl; lia]. intros k. rewrite Hafter.
        destruct (citations !! k) eqn:Hk; [done|].
        assert (k <> n) by congruence.
        destruct (decide (k ∈ names)), (decide (k ∈ n :: names)); try done;
          elem_cons. }
      destruct node; [exact Hloop | exact Hloop | done].
    + destruct (decide (is_Some (@None root_node))) as [[? ?]|_]; [done|].
      destruct (decide (~ is_Some (@None root_node))) as [_|Hnn];
        [|destruct Hnn; by intros [? ?]].
      intros H. destruct (IH _ _ _ H) as (Hafter & -> & ->).
      assert (Hsame : Forall (fun k => (<[n := Folder ∅]> citations) !! k = citations !! k) names).
      { apply Forall_forall. intros k Hk. apply lookup_insert_ne. by intros ->. }
      rewrite (filter_ext_Forall (fun k => ~ is_Some (<[n := Folder ∅]> citations !! k))
                 (fun k => ~ is_Some (citations !! k)) names),
              (filter_ext_Forall (fun k => is_Some (<[n := Folder ∅]> citations !! k))
                 (fun k => is_Some (citations !! k)) names);
        [| eapply Forall_impl; [exact Hsame|]; by intros k -> ..].
      split; [|simpl; lia]. intros k. rewrite Hafter.
      destruct (decide (k = n)) as [->|Hne].
      * rewrite lookup_insert_eq, Hcn.
        destruct (decide (n ∈ n :: names)); [done|elem_cons].
      * rewrite lookup_insert_ne by done. destruct (citations !! k); [done|].
        destruct (decide (k ∈ names)), (decide (k ∈ n :: names)); try done; elem_cons.
Qed.

Lemma setup_loop_subseteq names citations created existing :
  citations ⊆ (setup_loop names citations created existing).1.
Proof.
  revert citations created existing.
  induction names as [|n names IH]; intros citations created existing; simpl; [done|].
  destruct (citations !! n) as [[| |]|] eqn:Hn; try done; try apply IH.
  etrans; [|apply IH]. by apply insert_subseteq.
Qed.

Lemma setup_loop_raises names citations created existing :
  (setup_loop names citations created existing).2 = None <->
  exists n, n ∈ names /\ citations !! n = Some BrokenLink.
Proof.
  revert citations created existing.
  induction names as [|n names IH]; intros citations created existing; simpl.
  - split; [done|]. by intros (n & Hn%elem_of_nil & _).
  - destruct (citations !! n) as [node|] eqn:Hn.
    + assert (Hcase : node = BrokenLink \/ node <> BrokenLink)
        by (destruct node; auto).
      destruct Hcase as [->|Hnode].
      * split; [|done]. intros _. exists n. split; [by left|done].
      * assert (Hgoal : (setup_loop names citations created (S existing)).2 = None <->
                  exists k, k ∈ n :: names /\ citations !! k = Some BrokenLink).
        { rewrite IH. split.
          - intros (k & Hk & Hb). exists k. split; [by right|done].
          - intros (k & Hk & Hb). apply elem_of_cons in Hk as [->|Hk]; [congruence|].
            by exists k. }
        by destruct node.
    + rewrite IH. split.
      * intros (k & Hk & Hb). exists k. split; [by right|].
        destruct (decide (k = n)) as [->|Hne];
          [by rewrite lookup_insert_eq in Hb | by rewrite lookup_insert_ne in Hb].
      * intros (k & Hk & Hb). apply elem_of_cons in Hk as [->|Hk]; [congruence|].
        exists k. split; [done|]. rewrite lookup_insert_ne; [done|congruence].
Qed.

(** X1. After a run of the folder initializer without error the citations
    directory is a directory; each entry that was there is unchanged, each
    category name that was missing is an empty folder, and there is
    nothing else. *)
Theorem setup_creates_missing_folders
  (citations_dir after_state : path_state root_node) (counts : nat * nat) :
  setup_folders_main citations_dir = (after_state, Some counts) ->
  exists before after,
    mkdir_exist_ok citations_dir = Some before /\
    after_state = Directory after /\
    forall name, after !! name =
      match before !! name with
      | Some node => Some node
      | None => if decide (name ∈ CATEGORIES.*1) then Some (Folder ∅) else None
      end.
Proof.
  unfold setup_folders_main.
  destruct (mkdir_exist_ok citations_dir) as [before|]; [|done].
  destruct (setup_loop (CATEGORIES.*1) before 0 0) as [after r] eqn:Hloop.
  cbn [fst snd]. intros [= <- ->]. destruct counts as [c e].
  exists before, after. split; [done|]. split; [done|].
  by destruct (setup_loop_spec _ _ _ _ _ _ _ CATEGORIES_NoDup Hloop) as [H _].
Qed.

Lemma setup_creates_missing_folders_witness :
  exists after_state counts before after,
    setup_folders_main (Directory citations_with_drafts) = (after_state, Some counts) /\
    mkdir_exist_ok (Directory citations_with_drafts) = Some before /\
    after_state = Directory after /\
    after !! str "fairness" = Some (Folder ∅).
Proof.
  eexists _, (9, 1)%nat.
  assert (H : setup_folders_main (Directory citations_with_drafts)
              = ((setup_folders_main (Directory citations_with_drafts)).1, Some (9, 1)%nat)).
  { vm_compute. reflexivity. }
  destruct (setup_creates_missing_folders _ _ _ H) as (before & after & Hb & Ha & Hpost).
  exists before, after. split; [exact H|]. split; [exact Hb|]. split; [exact Ha|].
  rewrite Hpost. injection Hb as <-. vm_compute. reflexivity.
Defined.

(** X2. The counts the folder initializer reports are the number of
    category names that were missing and the number that were there; they
    add up to ten. *)
Theorem setup_counts
  (citations_dir after_state : path_state root_node) (created existing : nat) :
  setup_folders_main citations_dir = (after_state, Some (created, existing)) ->
  exists before,
    mkdir_exist_ok citations_dir = Some before /\
    created = length (missing_names before (CATEGORIES.*1)) /\
    existing = length (present_names before (CATEGORIES.*1)) /\
    (created + existing = 10)%nat.
Proof.
  unfold setup_folders_main.
  destruct (mkdir_exist_ok citations_dir) as [before|]; [|done].
  destruct (setup_loop (CATEGORIES.*1) before 0 0) as [after r] eqn:Hloop.
  cbn [fst snd]. intros [= <- ->].
  exists before. split; [done|].
  destruct (setup_loop_spec _ _ _ _ _ _ _ CATEGORIES_NoDup Hloop) as (_ & -> & ->).
  split; [done|]. split; [done|]. cbn [Nat.add].
  unfold missing_names, present_names.
  pose proof (filter_app_complement (fun n => is_Some (before !! n)) (CATEGORIES.*1)) as Hp.
  apply Permutation_length in Hp. rewrite length_app in Hp.
  change (length (CATEGORIES.*1)) with 10%nat in Hp. lia.
Qed.

Lemma setup_counts_witness :
  exists after_state before,
    setup_folders_main (Directory citations_with_drafts) = (after_state, Some (9, 1)%nat) /\
    mkdir_exist_ok (Directory citations_with_drafts) = Some before /\
    9%nat = length (missing_names before (CATEGORIES.*1)).
Proof.
  eexists _.
  assert (H : setup_folders_main (Directory citations_with_drafts)
              = ((setup_folders_main (Directory citations_with_drafts)).1, Some (9, 1)%nat)).
  { vm_compute. reflexivity. }
  destruct (setup_counts _ _ _ _ H) as (before & Hb & Hc & _).
  exists before. split; [exact H|]. split; [exact Hb | exact Hc].
Defined.

(** X3. The folder initializer raises when the citations path is there
    and is not a directory, and it then changes nothing; and it raises
    when a category name is a broken link, which [exists()] does not see
    and [mkdir] refuses. *)
Theorem setup_raises_when (citations_dir : path_state root_node) :
  (citations_dir = NotDirectory ->
     setup_folders_main citations_dir = (NotDirectory, None)) /\
  (forall before name,
     mkdir_exist_ok citations_dir = Some before ->
     name ∈ CATEGORIES.*1 -> before !! name = Some BrokenLink ->
     (setup_folders_main citations_dir).2 = None).
Proof.
  split.
  - intros ->. reflexivity.
  - intros before name Hb. unfold setup_folders_main.
    generalize (CATEGORIES.*1). intros names Hn Hl.
    rewrite Hb. cbn [snd].
    apply setup_loop_raises. exists name. split; assumption.
Qed.

Lemma setup_raises_when_witness :
  setup_folders_main NotDirectory = (NotDirectory, None) /\
  (setup_folders_main (Directory {[ str "fairness" := BrokenLink ]})).2 = None.
Proof.
  split.
  - exact (proj1 (setup_raises_when NotDirectory) eq_refl).
  - apply (proj2 (setup_raises_when _) {[ str "fairness" := BrokenLink ]} (str "fairness")).
    + reflexivity.
    + apply (bool_decide_unpack _). vm_compute. exact I.
    + vm_compute. reflexivity.
Defined.

(** X4. Whether it ends well or raises, the folder initializer removes and
    changes no entry of the citations directory. *)
Theorem setup_keeps_entries
  (citations_dir : path_state root_node) (before : gmap text root_node) :
  mkdir_exist_ok citations_dir = Some before ->
  exists after,
    (setup_folders_main citations_dir).1 = Directory after /\ before ⊆ after.
Proof.
  unfold setup_folders_main. intros ->. cbn [fst].
  eexists. split; [reflexivity|]. apply setup_loop_subseteq.
Qed.

Lemma setup_keeps_entries_witness :
  exists after,
    (setup_folders_main (Directory citations_with_drafts)).1 = Directory after /\
    citations_with_drafts ⊆ after.
Proof. exact (setup_keeps_entries (Directory citations_with_drafts) _ eq_refl). Defined.

(** ** The category walker: errors, metadata, other files *)

Lemma dict_get_found table key value default :
  NoDup (table.*1) -> (key, value) ∈ table -> dict_get table key default = value.
Proof.
  induction table as [|[k v] table IH]; simpl; [by intros _ ?%elem_of_nil|].
  intros [Hk Hnd]%NoDup_cons [[= -> ->]|Hin]%elem_of_cons.
  - by rewrite bool_decide_eq_true_2.
  - rewrite bool_decide_eq_false_2; [by apply IH|].
    intros ->. apply Hk. apply list_elem_of_fmap. by exists (key, value).
Qed.

Lemma dict_get_default table key default :
  key ∉ table.*1 -> dict_get table key default = default.
Proof.
  induction table as [|[k v] table IH]; simpl; [done|].
  intros H. apply not_elem_of_cons in H as [Hne Hin].
  rewrite bool_decide_eq_false_2 by done. by apply IH.
Qed.

Lemma mapM_ext_Forall {A B} (f g : A -> option B) (l : list A) :
  Forall (fun x => f x = g x) l -> mapM f l = mapM g l.
Proof. induction 1 as [|x l Hx Hl IH]; simpl; [done|]. by rewrite Hx, IH. Qed.

Section WalkerMore.
Context {ucd : UnicodeData}.

Lemma process_category_Some name folder doc :
  process_category name folder = Some doc ->
  Forall2 (fun file entry =>
             exists content, folder !! file = Some (RegularFile (Some content)) /\
               entry = parse_bibtex_entry content)
          (bib_files folder) (papers doc).
Proof.
  unfold process_category. fold (bib_files folder).
  destruct (mapM _ (bib_files folder)) as [ps|] eqn:E; [|done].
  simpl. intros [= <-]. simpl. apply mapM_Some in E.
  eapply Forall2_impl; [exact E|]. intros file entry. simpl.
  unfold read_text. destruct (folder !! file) as [[[content|]|]|]; try done.
  simpl. intros [= <-]. by exists content.
Qed.

Lemma process_category_readable name folder :
  is_Some (process_category name folder) <-> bib_files_readable folder.
Proof.
  split.
  - intros [doc Hdoc] file node Hfile Hbib.
    pose proof (process_category_Some _ _ _ Hdoc) as H.
    assert (Hin : file ∈ bib_files folder).
    { apply (proj1 (bib_files_spec folder)). split; [by eexists|done]. }
    apply list_elem_of_lookup in Hin as [i Hi].
    destruct (Forall2_lookup_l _ _ _ _ _ H Hi) as (entry & _ & content & Hc & _).
    exists content. congruence.
  - intros Hr. destruct (process_category_papers name folder Hr) as (doc & -> & _).
    by eexists.
Qed.

Lemma process_category_length name folder doc :
  process_category name folder = Some doc ->
  length (papers doc) = length (bib_files folder).
Proof.
  intros H. symmetry. eapply Forall2_length, process_category_Some, H.
Qed.

Lemma bib_files_insert_other folder file node :
  ~ str ".bib" `suffix_of` file ->
  bib_files (<[file := node]> folder) = bib_files folder.
Proof.
  intros Hfile. unfold bib_files at 1. apply sorted_unique.
  - apply NoDup_Permutation.
    + apply (bib_files_spec folder).
    + apply NoDup_filter, NoDup_iterdir.
    + intros name. rewrite (proj1 (bib_files_spec folder)), elem_of_glob_bib.
      rewrite lookup_insert_is_Some. split.
      * intros [Hn Hb]. split; [|done].
        destruct (decide (file = name)) as [->|Hne]; [by left | by right].
      * intros [[->|[_ H]] Hb]; tauto.
  - apply (bib_files_spec folder).
Qed.

End WalkerMore.

(** X5. The category walker raises exactly when the folder has an entry
    named [*.bib] that is a directory or cannot be read as UTF-8 text:
    one such entry loses the whole document. *)
Theorem process_category_raises_iff {ucd : UnicodeData}
  (category_name : text) (folder : gmap text file_node) :
  process_category category_name folder = None <->
  exists file node,
    folder !! file = Some node /\ str ".bib" `suffix_of` file /\
    (node = Subdirectory \/ node = RegularFile None).
Proof.
  split.
  - intros Hnone.
    assert (H : Exists (fun bib_file =>
                  read_text folder bib_file ≫= (fun c => Some (parse_bibtex_entry c)) = None)
                  (bib_files folder)).
    { apply mapM_None_1.
      unfold process_category in Hnone. fold (bib_files folder) in Hnone.
      by destruct (mapM _ (bib_files folder)). }
    apply Exists_exists in H as (file & Hin & Hread).
    apply (proj1 (bib_files_spec folder)) in Hin as [[node Hnode] Hbib].
    exists file, node. split; [done|]. split; [done|].
    unfold read_text in Hread. rewrite Hnode in Hread.
    destruct node as [[content|]|]; [done | by right | by left].
  - intros (file & node & Hnode & Hbib & Hbad).
    destruct (process_category category_name folder) as [doc|] eqn:E; [|done].
    assert (Hr : bib_files_readable folder).
    { apply (process_category_readable category_name). by eexists. }
    destruct (Hr _ _ Hnode Hbib) as [content ->]. by destruct Hbad.
Qed.

(** X6. The paper list of a document is empty exactly when the folder has
    no entry named [*.bib]; other files and subfolders do not count. *)
Theorem papers_empty_iff {ucd : UnicodeData}
  (category_name : text) (folder : gmap text file_node) (doc : Taxonomy) :
  process_category category_name folder = Some doc ->
  (papers doc = [] <->
   forall file, is_Some (folder !! file) -> ~ str ".bib" `suffix_of` file).
Proof.
  intros Hdoc. pose proof (process_category_length _ _ _ Hdoc) as Hlen.
  pose proof (proj1 (bib_files_spec folder)) as Hin. split.
  - intros Hnil file Hfile Hbib. rewrite Hnil in Hlen.
    assert (H : file ∈ bib_files folder) by by apply Hin.
    destruct (bib_files folder); [by apply elem_of_nil in H | done].
  - intros Hnone. destruct (bib_files folder) as [|file files] eqn:E.
    + by destruct (papers doc).
    + destruct (Hin file) as [[Hfile Hbib] _]; [by left|]. by destruct (Hnone file).
Qed.

Lemma papers_empty_iff_witness :
  exists doc,
    process_category (str "fairness") {[ str "README.md" := RegularFile None ]} = Some doc /\
    papers doc = [].
Proof.
  assert (E : exists doc,
    process_category (str "fairness") {[ str "README.md" := RegularFile None ]} = Some doc).
  { eexists. vm_compute. reflexivity. }
  destruct E as [doc Hdoc]. exists doc. split; [exact Hdoc|].
  apply (proj2 (papers_empty_iff _ _ _ Hdoc)).
  intros file [node Hfile] Hbib.
  apply lookup_singleton_Some in Hfile as [<- _].
  revert Hbib. apply (bool_decide_unpack _). vm_compute. exact I.
Defined.

Lemma str_replace_ascii old new s :
  new < 128 -> is_ascii s = true -> is_ascii (str_replace old new s) = true.
Proof.
  intros Hnew. unfold is_ascii, str_replace.
  induction s as [|c s IH]; cbn [map forallb]; [done|].
  intros [Hc Hs]%andb_prop. rewrite (IH Hs), andb_true_r.
  destruct (c =? old); [by apply N.ltb_lt | exact Hc].
Qed.

(** X7. For a folder name that is a key of the table, the display name
    and the description of the document are those of the table.  For any
    other ASCII name the display name is the name with its hyphens turned
    into spaces and title-cased (a capital for each letter that does not
    follow a letter, small letters for the others), and the description is
    empty.  The folder's content has no part in either. *)
Theorem document_metadata {ucd : UnicodeData}
  (category_name : text) (folder : gmap text file_node) (doc : Taxonomy) :
  process_category category_name folder = Some doc ->
  (forall display about,
     (category_name, (display, about)) ∈ CATEGORY_INFO ->
     category doc = display /\ description doc = about) /\
  (category_name ∉ CATEGORY_INFO.*1 ->
   is_ascii category_name = true -> title_on_ascii ucd ->
     category doc = ascii_title (str_replace (ch "-") (ch " ") category_name) /\
     description doc = []).
Proof.
  unfold process_category.
  remember (dict_get CATEGORY_INFO category_name
              (str_title (str_replace (ch "-") (ch " ") category_name), []))
    as data eqn:Hdata.
  destruct (mapM _ _) as [ps|]; [|done].
  cbn [mbind option_bind]. intros [= <-]. cbn [category description].
  subst data. split.
  - intros display about Hin.
    by rewrite (dict_get_found CATEGORY_INFO _ (display, about) _ CATEGORIES_NoDup Hin).
  - intros Hout Hascii Htitle. rewrite dict_get_default by done. cbn [fst snd].
    split; [|reflexivity]. apply Htitle. by apply str_replace_ascii.
Qed.

Lemma document_metadata_witness :
  (exists doc,
     process_category (str "fairness") two_papers_and_notes = Some doc /\
     category doc = str "Fairness, Bias, and Health Equity") /\
  (exists doc,
     process_category (str "my-folder_2x") two_papers_and_notes = Some doc /\
     category doc = str "My Folder_2X").
Proof.
  split.
  - assert (E : exists doc,
      process_category (str "fairness") two_papers_and_notes = Some doc).
    { eexists. vm_compute. reflexivity. }
    destruct E as [doc Hdoc]. exists doc. split; [exact Hdoc|].
    refine (proj1 (proj1 (document_metadata _ _ _ Hdoc) _
                     (str "Methods addressing demographic imbalances and algorithmic fairness in healthcare") _)).
    apply (bool_decide_unpack _). vm_compute. exact I.
  - assert (E : exists doc,
      process_category (str "my-folder_2x") two_papers_and_notes = Some doc).
    { eexists. vm_compute. reflexivity. }
    destruct E as [doc Hdoc]. exists doc. split; [exact Hdoc|].
    refine (eq_trans (proj1 (proj2 (document_metadata _ _ _ Hdoc) _ _ _)) _).
    + apply (bool_decide_unpack _). vm_compute. exact I.
    + vm_compute. reflexivity.
    + intros s _. reflexivity.
    + vm_compute. reflexivity.
Defined.

Section WalkerFrame.
Context {ucd : UnicodeData}.

Lemma bib_files_delete_other folder file :
  ~ str ".bib" `suffix_of` file ->
  bib_files (delete file folder) = bib_files folder.
Proof.
  intros Hfile. unfold bib_files at 1. apply sorted_unique.
  - apply NoDup_Permutation.
    + apply (bib_files_spec folder).
    + apply NoDup_filter, NoDup_iterdir.
    + intros name. rewrite (proj1 (bib_files_spec folder)), elem_of_glob_bib.
      rewrite lookup_delete_is_Some. split.
      * intros [Hn Hb]. split; [|done]. split; [|done]. by intros ->.
      * tauto.
  - apply (bib_files_spec folder).
Qed.

Lemma process_category_same_files name folder folder' :
  bib_files folder' = bib_files folder ->
  (forall file, str ".bib" `suffix_of` file -> folder' !! file = folder !! file) ->
  process_category name folder' = process_category name folder.
Proof.
  intros Hfiles Hsame. unfold process_category. fold (bib_files folder) (bib_files folder').
  rewrite Hfiles.
  rewrite (mapM_ext_Forall
             (fun bib_file => read_text folder' bib_file ≫= fun c => Some (parse_bibtex_entry c))
             (fun bib_file => read_text folder bib_file ≫= fun c => Some (parse_bibtex_entry c)));
    [done|].
  apply Forall_forall. intros file Hin.
  apply (proj1 (bib_files_spec folder)) in Hin as [_ Hbib].
  unfold read_text. by rewrite Hsame.
Qed.

End WalkerFrame.

(** X8. Entries of the folder that are not named [*.bib] have no effect on
    the document: adding one, replacing one or removing one leaves the
    result of the walker as it was, error or not. *)
Theorem other_files_ignored {ucd : UnicodeData}
  (category_name : text) (folder : gmap text file_node)
  (file : text) (node : file_node) :
  ~ str ".bib" `suffix_of` file ->
  process_category category_name (<[file := node]> folder)
    = process_category category_name folder /\
  process_category category_name (delete file folder)
    = process_category category_name folder.
Proof.
  intros Hfile. split; apply process_category_same_files.
  - by apply bib_files_insert_other.
  - intros name Hname. apply lookup_insert_ne. by intros ->.
  - by apply bib_files_delete_other.
  - intros name Hname. apply lookup_delete_ne. by intros ->.
Qed.

Lemma other_files_ignored_witness :
  process_category (str "surveys") (<[str "notes.txt" := Subdirectory]> two_papers_and_notes)
    = process_category (str "surveys") two_papers_and_notes.
Proof.
  refine (proj1 (other_files_ignored _ _ (str "notes.txt") Subdirectory _)).
  apply (bool_decide_unpack _). vm_compute. exact I.
Defined.

(** ** The build driver: what a run writes and counts *)

Lemma json_name_inj n m : json_name n = json_name m -> n = m.
Proof. unfold json_name. apply app_inv_tail. Qed.

Section DriverMore.
Context {ucd : UnicodeData}.

(** One turn of the loop. *)
Lemma build_loop_cons citations name names output stats :
  build_loop citations (name :: names) output stats =
  match known_folder citations name with
  | None => build_loop citations names output stats
  | Some entries =>
      match process_category name entries with
      | None => (output, None)
      | Some taxonomy =>
          match output !! json_name name with
          | Some OutSubdirectory => (output, None)
          | _ =>
              build_loop citations names
                (<[json_name name := JsonFile taxonomy]> output)
                (<[name := length (papers taxonomy)]> stats)
          end
      end
  end.
Proof.
  cbn [build_loop]. unfold known_folder, json_name.
  destruct (citations !! name) as [[|entries|]|]; try done.
  by destruct (known_category CATEGORY_INFO name).
Qed.

(** Output entries that are no output file of a processed folder stay. *)
Lemma build_loop_frame citations names output stats key :
  (forall n e, n ∈ names -> known_folder citations n = Some e -> key <> json_name n) ->
  (build_loop citations names output stats).1 !! key = output !! key.
Proof.
  revert output stats. induction names as [|n names IH]; intros output stats Hkey; [done|].
  rewrite build_loop_cons.
  assert (Hrest : forall n' e, n' ∈ names -> known_folder citations n' = Some e ->
                               key <> json_name n').
  { intros n' e Hn'. apply Hkey. by right. }
  destruct (known_folder citations n) as [e|] eqn:Hn; [|by apply IH].
  destruct (process_category n e) as [doc|]; [|done].
  assert (Hne : key <> json_name n) by (apply (Hkey n e); [by left|done]).
  destruct (output !! json_name n) as [[| |]|]; try done;
    (rewrite IH by done; by rewrite lookup_insert_ne).
Qed.

Lemma build_loop_success citations names output stats out' stats' :
  NoDup names ->
  build_loop citations names output stats = (out', Some stats') ->
  (forall n e, n ∈ names -> known_folder citations n = Some e ->
     exists doc, process_category n e = Some doc /\
       out' !! json_name n = Some (JsonFile doc) /\
       stats' !! n = Some (length (papers doc))) /\
  (forall n, (n ∈ names -> known_folder citations n = None) ->
     stats' !! n = stats !! n).
Proof.
  intros Hnd. revert output stats.
  induction Hnd as [|n names Hn Hnd IH]; intros output stats.
  - intros [= <- <-]. split; [by intros n e ?%elem_of_nil | done].
  - rewrite build_loop_cons.
    destruct (known_folder citations n) as [e|] eqn:Hkf.
    + destruct (process_category n e) as [doc|] eqn:Hdoc; [|done].
      assert (Hstep : build_loop citations names
                        (<[json_name n := JsonFile doc]> output)
                        (<[n := length (papers doc)]> stats) = (out', Some stats') ->
        (forall n0 e0, n0 ∈ n :: names -> known_folder citations n0 = Some e0 ->
           exists doc0, process_category n0 e0 = Some doc0 /\
             out' !! json_name n0 = Some (JsonFile doc0) /\
             stats' !! n0 = Some (length (papers doc0))) /\
        (forall n0, (n0 ∈ n :: names -> known_folder citations n0 = None) ->
           stats' !! n0 = stats !! n0)).
      { intros Hloop. destruct (IH _ _ Hloop) as [H1 H2]. split.
        - intros n0 e0 [->|Hin]%elem_of_cons Hkf0.
          + rewrite Hkf in Hkf0. injection Hkf0 as <-. exists doc. split; [done|]. split.
            * pose proof (build_loop_frame citations names
                            (<[json_name n := JsonFile doc]> output)
                            (<[n := length (papers doc)]> stats) (json_name n)) as Hf.
              rewrite Hloop in Hf. cbn [fst] in Hf.
              rewrite Hf; [by rewrite lookup_insert_eq|].
              intros n' e' Hn' _ E%json_name_inj. by subst.
            * rewrite H2 by done. by rewrite lookup_insert_eq.
          + by apply H1.
        - intros n0 Hn0. assert (n0 <> n).
          { intros ->. rewrite Hn0 in Hkf; [done|by left]. }
          rewrite H2; [by rewrite lookup_insert_ne|].
          intros Hin. apply Hn0. by right. }
      destruct (output !! json_name n) as [[| |]|]; try done.
    + intros Hloop. destruct (IH _ _ Hloop) as [H1 H2]. split.
      * intros n0 e0 [->|Hin]%elem_of_cons Hkf0; [congruence|by apply H1].
      * intros n0 Hn0. apply H2. intros Hin. apply Hn0. by right.
Qed.

Lemma build_loop_raises citations names output stats :
  NoDup names ->
  (build_loop citations names output stats).2 = None <->
  exists n e, n ∈ names /\ known_folder citations n = Some e /\
    (process_category n e = None \/ output !! json_name n = Some OutSubdirectory).
Proof.
  intros Hnd. revert output stats.
  induction Hnd as [|n names Hn Hnd IH]; intros output stats.
  - split; [done|]. by intros (n & e & ?%elem_of_nil & _).
  - rewrite build_loop_cons.
    destruct (known_folder citations n) as [e|] eqn:Hkf.
    + destruct (process_category n e) as [doc|] eqn:Hdoc.
      * assert (Hstep : (build_loop citations names
                           (<[json_name n := JsonFile doc]> output)
                           (<[n := length (papers doc)]> stats)).2 = None <->
           exists n0 e0, n0 ∈ names /\ known_folder citations n0 = Some e0 /\
             (process_category n0 e0 = None \/
              output !! json_name n0 = Some OutSubdirectory)).
        { rewrite IH. split; intros (n0 & e0 & Hin & Hkf0 & Hbad);
            exists n0, e0; (split; [done|]); (split; [done|]);
            (rewrite lookup_insert_ne in *;
               [done | intros E%json_name_inj; by subst]). }
        destruct (output !! json_name n) as [[| |]|] eqn:Hout.
        -- rewrite Hstep. split.
           ++ intros (n0 & e0 & Hin & H). exists n0, e0. split; [by right|done].
           ++ intros (n0 & e0 & [->|Hin]%elem_of_cons & Hkf0 & Hbad); [|by exists n0, e0].
              rewrite Hkf in Hkf0. injection Hkf0 as <-.
              destruct Hbad; congruence.
        -- rewrite Hstep. split.
           ++ intros (n0 & e0 & Hin & H). exists n0, e0. split; [by right|done].
           ++ intros (n0 & e0 & [->|Hin]%elem_of_cons & Hkf0 & Hbad); [|by exists n0, e0].
              rewrite Hkf in Hkf0. injection Hkf0 as <-.
              destruct Hbad; congruence.
        -- split; [|done]. intros _. exists n, e. split; [by left|]. split; [done|by right].
        -- rewrite Hstep. split.
           ++ intros (n0 & e0 & Hin & H). exists n0, e0. split; [by right|done].
           ++ intros (n0 & e0 & [->|Hin]%elem_of_cons & Hkf0 & Hbad); [|by exists n0, e0].
              rewrite Hkf in Hkf0. injection Hkf0 as <-.
              destruct Hbad; congruence.
      * split; [|done]. intros _. exists n, e. split; [by left|]. split; [done|by left].
    + rewrite IH. split.
      * intros (n0 & e0 & Hin & H). exists n0, e0. split; [by right|done].
      * intros (n0 & e0 & [->|Hin]%elem_of_cons & Hkf0 & Hbad); [congruence|by exists n0, e0].
Qed.

Lemma known_folder_listed citations n e :
  known_folder citations n = Some e -> n ∈ sorted (iterdir citations).
Proof.
  intros H. rewrite sorted_Permutation, elem_of_iterdir.
  unfold known_folder in H. by destruct (citations !! n).
Qed.

Lemma sorted_iterdir_NoDup {A} (d : gmap text A) : NoDup (sorted (iterdir d)).
Proof. rewrite sorted_Permutation. apply NoDup_iterdir. Qed.

End DriverMore.

Section DriverRuns.
Context {ucd : UnicodeData}.

(** A run that did not raise, taken apart. *)
Lemma build_all_taxonomies_Some citations_dir output_dir c' out' stats :
  build_all_taxonomies citations_dir output_dir = (c', out', Some stats) ->
  exists citations output written,
    mkdir_exist_ok citations_dir = Some citations /\
    mkdir_exist_ok output_dir = Some output /\
    c' = Directory citations /\ out' = Directory written /\
    build_loop citations (sorted (iterdir citations)) output ∅ = (written, Some stats).
Proof.
  unfold build_all_taxonomies.
  destruct (mkdir_exist_ok citations_dir) as [citations|]; [|done].
  destruct (mkdir_exist_ok output_dir) as [output|]; [|done].
  destruct (build_loop citations (sorted (iterdir citations)) output ∅)
    as [written r] eqn:Hloop.
  cbn [fst snd]. intros [= <- <- ->]. by exists citations, output, written.
Qed.

Lemma key_of_known_folder_dec citations (names : list text) (key : text) :
  (exists n e, n ∈ names /\ known_folder citations n = Some e /\ key = json_name n) \/
  (forall n e, n ∈ names -> known_folder citations n = Some e -> key <> json_name n).
Proof.
  induction names as [|n names [(n0 & e & Hin & H)|IH]].
  - right. by intros n e ?%elem_of_nil.
  - left. exists n0, e. split; [by right|done].
  - destruct (known_folder citations n) as [e|] eqn:Hkf.
    + destruct (decide (key = json_name n)) as [->|Hne].
      * left. exists n, e. split; [by left|done].
      * right. intros n0 e0 [->|Hin]%elem_of_cons Hkf0; [done|by eapply IH].
    + right. intros n0 e0 [->|Hin]%elem_of_cons Hkf0; [congruence|by eapply IH].
Qed.

End DriverRuns.

(** X9. A run of the build driver that did not raise has written, for
    every folder of the citations directory whose name is in the table,
    the document of that folder to [name.json]; every other entry of the
    output directory is as it was. *)
Theorem build_writes_documents {ucd : UnicodeData}
  (citations_dir c' : path_state root_node) (output_dir out' : path_state out_node)
  (stats : gmap text nat) :
  build_all_taxonomies citations_dir output_dir = (c', out', Some stats) ->
  exists citations output written,
    mkdir_exist_ok citations_dir = Some citations /\
    mkdir_exist_ok output_dir = Some output /\
    out' = Directory written /\
    (forall name entries, known_folder citations name = Some entries ->
       exists doc, process_category name entries = Some doc /\
         written !! json_name name = Some (JsonFile doc)) /\
    (forall key,
       (forall name entries, known_folder citations name = Some entries ->
          key <> json_name name) ->
       written !! key = output !! key).
Proof.
  intros (citations & output & written & Hc & Ho & -> & -> & Hloop)%build_all_taxonomies_Some.
  exists citations, output, written. do 3 (split; [done|]).
  destruct (build_loop_success _ _ _ _ _ _ (sorted_iterdir_NoDup citations) Hloop)
    as [Hdocs _].
  split.
  - intros name entries Hkf.
    destruct (Hdocs _ _ (known_folder_listed _ _ _ Hkf) Hkf) as (doc & Hdoc & Hw & _).
    by exists doc.
  - intros key Hkey.
    pose proof (build_loop_frame citations (sorted (iterdir citations)) output ∅ key) as Hf.
    rewrite Hloop in Hf. apply Hf. intros n e _. apply Hkey.
Qed.

Lemma build_writes_documents_witness :
  exists c' out' stats citations output written,
    build_all_taxonomies (Directory citations_with_drafts) Missing = (c', out', Some stats) /\
    mkdir_exist_ok (Directory citations_with_drafts) = Some citations /\
    mkdir_exist_ok (@Missing out_node) = Some output /\
    out' = Directory written /\
    written !! str "drafts.json" = None.
Proof.
  eexists _, _, _.
  assert (H : build_all_taxonomies (Directory citations_with_drafts) Missing
              = ((build_all_taxonomies (Directory citations_with_drafts) Missing).1.1,
                 (build_all_taxonomies (Directory citations_with_drafts) Missing).1.2,
                 Some {[ str "surveys" := 2%nat ]})).
  { vm_compute. reflexivity. }
  destruct (build_writes_documents _ _ _ _ _ H)
    as (citations & output & written & Hc & Ho & Hw & _ & Hframe).
  exists citations, output, written. do 4 (split; [done|]).
  rewrite Hframe.
  - injection Ho as <-. apply lookup_empty.
  - intros name entries Hkf E. apply (json_name_inj (str "drafts")) in E. subst name.
    injection Hc as <-. vm_compute in Hkf. discriminate Hkf.
Defined.

Section DriverCounts.
Context {ucd : UnicodeData}.

Lemma build_stats_lookup citations_dir output_dir c' out' stats :
  build_all_taxonomies citations_dir output_dir = (c', out', Some stats) ->
  exists citations,
    mkdir_exist_ok citations_dir = Some citations /\
    forall name,
      stats !! name =
      (fun entries => length (bib_files entries)) <$> known_folder citations name.
Proof.
  intros (citations & output & written & Hc & Ho & -> & -> & Hloop)%build_all_taxonomies_Some.
  exists citations. split; [done|]. intros name.
  destruct (build_loop_success _ _ _ _ _ _ (sorted_iterdir_NoDup citations) Hloop)
    as [Hdocs Hrest].
  destruct (known_folder citations name) as [entries|] eqn:Hkf; cbn [fmap option_fmap option_map].
  - destruct (Hdocs _ _ (known_folder_listed _ _ _ Hkf) Hkf) as (doc & Hdoc & _ & ->).
    by rewrite (process_category_length _ _ _ Hdoc).
  - by rewrite Hrest.
Qed.

End DriverCounts.

(** X10. The counts of a run that did not raise: [stats] has one entry for
    every folder of the citations directory whose name is in the table,
    the number of entries named [*.bib] in it, and no other entry. *)
Theorem build_counts_bib_files {ucd : UnicodeData}
  (citations_dir c' : path_state root_node) (output_dir out' : path_state out_node)
  (stats : gmap text nat) :
  build_all_taxonomies citations_dir output_dir = (c', out', Some stats) ->
  exists citations,
    mkdir_exist_ok citations_dir = Some citations /\
    forall name,
      stats !! name =
      (fun entries => length (bib_files entries)) <$> known_folder citations name.
Proof. apply build_stats_lookup. Qed.

Lemma build_counts_bib_files_witness :
  exists c' out' stats citations,
    build_all_taxonomies (Directory citations_with_drafts) Missing = (c', out', Some stats) /\
    mkdir_exist_ok (Directory citations_with_drafts) = Some citations /\
    stats !! str "surveys"
      = (fun entries => length (bib_files entries)) <$> known_folder citations (str "surveys").
Proof.
  eexists _, _, _.
  assert (H : build_all_taxonomies (Directory citations_with_drafts) Missing
              = ((build_all_taxonomies (Directory citations_with_drafts) Missing).1.1,
                 (build_all_taxonomies (Directory citations_with_drafts) Missing).1.2,
                 Some {[ str "surveys" := 2%nat ]})).
  { vm_compute. reflexivity. }
  destruct (build_counts_bib_files _ _ _ _ _ H) as (citations & Hc & Hstats).
  exists citations. split; [exact H|]. split; [exact Hc|]. apply Hstats.
Defined.

(** X11. The build driver raises when the citations path or the output
    path is there and is not a directory; when a folder whose name is in
    the table has an entry named [*.bib] that cannot be read; and when the
    output file of such a folder is a directory. *)
Theorem build_raises_when {ucd : UnicodeData}
  (citations_dir : path_state root_node) (output_dir : path_state out_node) :
  (citations_dir = NotDirectory \/ output_dir = NotDirectory ->
     (build_all_taxonomies citations_dir output_dir).2 = None) /\
  (forall citations output name entries,
     mkdir_exist_ok citations_dir = Some citations ->
     mkdir_exist_ok output_dir = Some output ->
     known_folder citations name = Some entries ->
     ~ bib_files_readable entries \/
       output !! json_name name = Some OutSubdirectory ->
     (build_all_taxonomies citations_dir output_dir).2 = None).
Proof.
  split.
  - intros [->| ->]; [reflexivity|].
    unfold build_all_taxonomies. by destruct (mkdir_exist_ok citations_dir).
  - intros citations output n e Hc Ho Hkf Hbad.
    unfold build_all_taxonomies. rewrite Hc, Ho. cbn [fst snd].
    apply (build_loop_raises _ _ _ _ (sorted_iterdir_NoDup citations)).
    exists n, e. split; [by eapply known_folder_listed|]. split; [done|].
    destruct Hbad as [Hnr|Hdir]; [left|by right].
    destruct (process_category n e) as [doc|] eqn:Hdoc; [|done].
    destruct Hnr. apply (process_category_readable n). by eexists.
Qed.

Lemma build_raises_when_witness :
  (build_all_taxonomies
     (Directory {[ str "fairness" :=
                     Folder {[ str "a.bib" := RegularFile None ]} ]})
     Missing).2 = None /\
  (build_all_taxonomies (Directory citations_with_drafts)
     (Directory {[ str "surveys.json" := OutSubdirectory ]})).2 = None.
Proof.
  split.
  - apply (proj2 (build_raises_when _ _)
             {[ str "fairness" := Folder {[ str "a.bib" := RegularFile None ]} ]}
             ∅ (str "fairness") {[ str "a.bib" := RegularFile None ]}).
    + reflexivity.
    + reflexivity.
    + vm_compute. reflexivity.
    + left. intros Hr.
      destruct (Hr (str "a.bib") (RegularFile None)) as [content Hcontent].
      * vm_compute. reflexivity.
      * apply (bool_decide_unpack _). vm_compute. exact I.
      * discriminate Hcontent.
  - apply (proj2 (build_raises_when _ _) citations_with_drafts
             {[ str "surveys.json" := OutSubdirectory ]} (str "surveys")
             two_papers_and_notes).
    + reflexivity.
    + reflexivity.
    + vm_compute. reflexivity.
    + right. vm_compute. reflexivity.
Defined.

(** X12. Complete or not, a run of the build driver touches no entry of
    the output directory other than the output files of the folders whose
    name is in the table. *)
Theorem build_touches_only_its_files {ucd : UnicodeData}
  (citations_dir : path_state root_node) (output_dir : path_state out_node)
  (citations : gmap text root_node) (key : text) :
  mkdir_exist_ok citations_dir = Some citations ->
  (forall name entries, known_folder citations name = Some entries ->
     key <> json_name name) ->
  entry_of (build_all_taxonomies citations_dir output_dir).1.2 key
    = entry_of output_dir key.
Proof.
  intros Hc Hkey. unfold build_all_taxonomies. rewrite Hc.
  destruct output_dir as [| |output]; cbn [mkdir_exist_ok fst snd entry_of]; [|done|].
  - rewrite build_loop_frame; [apply lookup_empty|]. intros n e _. apply Hkey.
  - apply build_loop_frame. intros n e _. apply Hkey.
Qed.

Lemma build_touches_only_its_files_witness :
  entry_of (build_all_taxonomies (Directory citations_with_drafts)
              (Directory {[ str "index.html" := OtherFile ]})).1.2 (str "index.html")
  = entry_of (Directory {[ str "index.html" := OtherFile ]}) (str "index.html").
Proof.
  apply (build_touches_only_its_files (Directory citations_with_drafts)
           (Directory {[ str "index.html" := OtherFile ]})
           citations_with_drafts (str "index.html") eq_refl).
  intros name entries _ E.
  assert (Hs : str ".json" `suffix_of` str "index.html") by by exists name.
  revert Hs. apply (bool_decide_unpack _). vm_compute. exact I.
Defined.

(** X13. A second run of the build driver on what a first run without
    error left behind writes the same documents and returns the same
    counts: the output directory does not change. *)
Theorem build_rerun_same {ucd : UnicodeData}
  (citations_dir c' : path_state root_node) (output_dir out' : path_state out_node)
  (stats : gmap text nat) :
  build_all_taxonomies citations_dir output_dir = (c', out', Some stats) ->
  build_all_taxonomies c' out' = (c', out', Some stats).
Proof.
  intros (citations & output & written & Hc & Ho & -> & -> & Hloop)%build_all_taxonomies_Some.
  unfold build_all_taxonomies. cbn [mkdir_exist_ok].
  pose proof (sorted_iterdir_NoDup citations) as Hnd.
  destruct (build_loop_success _ _ _ _ _ _ Hnd Hloop) as [Hdocs Hrest].
  destruct (build_loop citations (sorted (iterdir citations)) written ∅)
    as [written2 r2] eqn:Hloop2.
  cbn [fst snd].
  destruct r2 as [stats2|].
  - destruct (build_loop_success _ _ _ _ _ _ Hnd Hloop2) as [Hdocs2 Hrest2].
    assert (written2 = written) as ->.
    { apply map_eq. intros key.
      destruct (key_of_known_folder_dec citations (sorted (iterdir citations)) key)
        as [(n & e & Hin & Hkf & ->)|Hother].
      - destruct (Hdocs _ _ Hin Hkf) as (doc & Hdoc & -> & _).
        destruct (Hdocs2 _ _ Hin Hkf) as (doc2 & Hdoc2 & -> & _). congruence.
      - pose proof (build_loop_frame citations (sorted (iterdir citations)) written ∅ key Hother)
          as Hf.
        by rewrite Hloop2 in Hf. }
    assert (stats2 = stats) as ->; [|done].
    apply map_eq. intros name.
    destruct (known_folder citations name) as [e|] eqn:Hkf.
    + pose proof (known_folder_listed _ _ _ Hkf) as Hin.
      destruct (Hdocs _ _ Hin Hkf) as (doc & Hdoc & _ & ->).
      destruct (Hdocs2 _ _ Hin Hkf) as (doc2 & Hdoc2 & _ & ->). congruence.
    + by rewrite Hrest, Hrest2.
  - exfalso.
    assert (Hr : (build_loop citations (sorted (iterdir citations)) written ∅).2 = None)
      by by rewrite Hloop2.
    apply (build_loop_raises _ _ _ _ Hnd) in Hr as (n & e & Hin & Hkf & Hbad).
    destruct (Hdocs _ _ Hin Hkf) as (doc & Hdoc & Hw & _).
    destruct Hbad; congruence.
Qed.

Lemma build_rerun_same_witness :
  exists c' out' stats,
    build_all_taxonomies (Directory citations_with_drafts) Missing = (c', out', Some stats) /\
    build_all_taxonomies c' out' = (c', out', Some stats).
Proof.
  eexists _, _, _.
  assert (H : build_all_taxonomies (Directory citations_with_drafts) Missing
              = ((build_all_taxonomies (Directory citations_with_drafts) Missing).1.1,
                 (build_all_taxonomies (Directory citations_with_drafts) Missing).1.2,
                 Some {[ str "surveys" := 2%nat ]})).
  { vm_compute. reflexivity. }
  split; [exact H|]. exact (build_rerun_same _ _ _ _ _ H).
Defined.

Section DriverStops.
Context {ucd : UnicodeData}.

Lemma build_loop_stops citations names output stats written :
  StronglySorted text_le names -> NoDup names ->
  build_loop citations names output stats = (written, None) ->
  exists name entries,
    name ∈ names /\ known_folder citations name = Some entries /\
    (process_category name entries = None \/
     output !! json_name name = Some OutSubdirectory) /\
    (forall n e, n ∈ names -> known_folder citations n = Some e ->
       text_le n name -> n <> name ->
       exists doc, process_category n e = Some doc /\
         written !! json_name n = Some (JsonFile doc)) /\
    (forall n, text_le name n -> written !! json_name n = output !! json_name n).
Proof.
  intros Hs. revert output stats.
  induction Hs as [|x names Hs IH Hx]; intros output stats Hnd; [done|].
  apply NoDup_cons in Hnd as [Hxn Hnd]. rewrite Forall_forall in Hx.
  rewrite build_loop_cons.
  destruct (known_folder citations x) as [e|] eqn:Hkf.
  - assert (Hfail : (written, @None (gmap text nat)) = (output, None) ->
              process_category x e = None \/ output !! json_name x = Some OutSubdirectory ->
              exists name entries,
                name ∈ x :: names /\ known_folder citations name = Some entries /\
                (process_category name entries = None \/
                 output !! json_name name = Some OutSubdirectory) /\
                (forall n e0, n ∈ x :: names -> known_folder citations n = Some e0 ->
                   text_le n name -> n <> name ->
                   exists doc, process_category n e0 = Some doc /\
                     written !! json_name n = Some (JsonFile doc)) /\
                (forall n, text_le name n ->
                   written !! json_name n = output !! json_name n)).
    { intros [= ->] Hbad. exists x, e. split; [by left|]. do 2 (split; [done|]).
      split; [|done]. intros n e0 [->|Hin]%elem_of_cons _ Hle Hne; [done|].
      destruct Hne. by apply text_le_antisym; [|apply Hx]. }
    destruct (process_category x e) as [doc|] eqn:Hdoc; [|intros H; apply Hfail; auto].
    assert (Hgo : build_loop citations names (<[json_name x := JsonFile doc]> output)
                    (<[x := length (papers doc)]> stats) = (written, None) ->
              exists name entries,
                name ∈ x :: names /\ known_folder citations name = Some entries /\
                (process_category name entries = None \/
                 output !! json_name name = Some OutSubdirectory) /\
                (forall n e0, n ∈ x :: names -> known_folder citations n = Some e0 ->
                   text_le n name -> n <> name ->
                   exists doc, process_category n e0 = Some doc /\
                     written !! json_name n = Some (JsonFile doc)) /\
                (forall n, text_le name n ->
                   written !! json_name n = output !! json_name n)).
    { intros Hloop.
      destruct (IH _ _ Hnd Hloop) as (name & entries & Hin & Hkfn & Hbad & Hbefore & Hafter).
      assert (Hne : name <> x) by (by intros ->).
      exists name, entries. split; [by right|]. split; [done|]. split; [|split].
      - rewrite lookup_insert_ne in Hbad; [done|]. by intros ?%json_name_inj.
      - intros n e0 [->|Hn]%elem_of_cons Hkf0 Hle Hnn; [|by apply Hbefore].
        rewrite Hkf in Hkf0. injection Hkf0 as <-. exists doc. split; [done|].
        pose proof (build_loop_frame citations names
                      (<[json_name x := JsonFile doc]> output)
                      (<[x := length (papers doc)]> stats) (json_name x)) as Hf.
        rewrite Hloop in Hf. cbn [fst] in Hf.
        rewrite Hf; [by rewrite lookup_insert_eq|].
        intros n' e' Hn' _ E%json_name_inj. by subst.
      - intros n Hle. rewrite Hafter by done. apply lookup_insert_ne.
        intros <-%json_name_inj. apply Hne.
        by apply text_le_antisym; [|apply Hx]. }
    destruct (output !! json_name x) as [[| |]|] eqn:Hout; try exact Hgo.
    intros H. apply Hfail; auto.
  - intros Hloop.
    destruct (IH _ _ Hnd Hloop) as (name & entries & Hin & Hkfn & Hbad & Hbefore & Hafter).
    exists name, entries. split; [by right|]. do 2 (split; [done|]). split; [|done].
    intros n e0 [->|Hn]%elem_of_cons Hkf0; [congruence|by apply Hbefore].
Qed.

End DriverStops.

(** X14. A run of the build driver that raises in its loop has no
    rollback: it stopped at one folder of the table, in the order of the
    names; the documents of the folders before that one are written, and
    the output files of that folder and of all later names are as they
    were. *)
Theorem build_no_rollback {ucd : UnicodeData}
  (citations : gmap text root_node) (output_dir : path_state out_node)
  (output : gmap text out_node) :
  mkdir_exist_ok output_dir = Some output ->
  (build_all_taxonomies (Directory citations) output_dir).2 = None ->
  exists name entries written,
    known_folder citations name = Some entries /\
    (~ bib_files_readable entries \/
     output !! json_name name = Some OutSubdirectory) /\
    (build_all_taxonomies (Directory citations) output_dir).1.2 = Directory written /\
    (forall n e, known_folder citations n = Some e -> text_le n name -> n <> name ->
       exists doc, process_category n e = Some doc /\
         written !! json_name n = Some (JsonFile doc)) /\
    (forall n, text_le name n -> written !! json_name n = output !! json_name n).
Proof.
  unfold build_all_taxonomies. cbn [mkdir_exist_ok]. intros ->. cbn [fst snd].
  destruct (build_loop citations (sorted (iterdir citations)) output ∅)
    as [written r] eqn:Hloop.
  cbn [fst snd]. intros ->.
  destruct (build_loop_stops _ _ _ _ _ (sorted_StronglySorted _)
              (sorted_iterdir_NoDup citations) Hloop)
    as (name & entries & Hin & Hkf & Hbad & Hbefore & Hafter).
  exists name, entries, written. split; [done|]. split; [|split; [done|split; [|done]]].
  - destruct Hbad as [Hnone|Hdir]; [left|by right].
    intros Hr. apply (process_category_readable name) in Hr as [doc Hdoc]. congruence.
  - intros n e Hkfn. apply Hbefore; [by eapply known_folder_listed|done].
Qed.

(** A citations directory whose second folder of the table cannot be
    read. *)
Lemma build_no_rollback_witness :
  let citations : gmap text root_node :=
    {[ str "fairness" := Folder two_papers_and_notes;
       str "surveys" := Folder {[ str "x.bib" := RegularFile None ]} ]} in
  exists name entries written,
    known_folder citations name = Some entries /\
    (build_all_taxonomies (Directory citations) Missing).1.2 = Directory written /\
    written !! json_name name = None.
Proof.
  intros citations.
  assert (H : (build_all_taxonomies (Directory citations) Missing).2 = None).
  { vm_compute. reflexivity. }
  destruct (build_no_rollback citations Missing ∅ eq_refl H)
    as (name & entries & written & Hkf & _ & Hw & _ & Hafter).
  exists name, entries, written. do 2 (split; [done|]).
  rewrite Hafter; [apply lookup_empty|]. destruct (text_le_total name name); done.
Defined.

(** ** The summary of [main] *)

Lemma item_le_total : Total item_le.
Proof.
  intros [n1 c1] [n2 c2]. unfold item_le. simpl.
  destruct (decide (text_le n1 n2)) as [H12|H12], (decide (text_le n2 n1)) as [H21|H21].
  - destruct (Nat.le_ge_cases c1 c2); [left|right]; split; auto.
  - left. split; [done|]. by intros ?.
  - right. split; [done|]. by intros ?.
  - destruct (text_le_total n1 n2); done.
Qed.

Lemma item_le_trans : Transitive item_le.
Proof.
  intros [n1 c1] [n2 c2] [n3 c3]. unfold item_le. simpl.
  intros [H12 Hc12] [H23 Hc23]. split; [by etrans|].
  intros H31. assert (H21 : text_le n2 n1) by by etrans.
  assert (H32 : text_le n3 n2) by by etrans.
  etrans; [by apply Hc12 | by apply Hc23].
Qed.

#[local] Existing Instances item_le_total item_le_trans.

Lemma sorted_items_name_lt (l : list (text * nat)) :
  StronglySorted item_le l -> NoDup (l.*1) -> StronglySorted name_lt l.
Proof.
  induction 1 as [|a l Hl IH Ha]; intros Hnd; [constructor|].
  rewrite fmap_cons in Hnd. apply NoDup_cons in Hnd as [Hin Hnd].
  constructor; [by apply IH|].
  apply Forall_forall. intros b Hb. rewrite Forall_forall in Ha.
  split; [by apply Ha|]. intros E. apply Hin. rewrite E.
  apply list_elem_of_fmap. by exists b.
Qed.

Lemma build_summary_spec (stats : gmap text nat) :
  (forall name count, (name, count) ∈ (build_summary stats).1 <-> stats !! name = Some count) /\
  StronglySorted name_lt (build_summary stats).1 /\
  (build_summary stats).2 = sum_list ((build_summary stats).1.*2).
Proof.
  unfold build_summary. cbn [fst snd].
  pose proof (merge_sort_Permutation item_le (map_to_list stats)) as Hp.
  split; [|split].
  - intros name count. by rewrite Hp, elem_of_map_to_list.
  - apply sorted_items_name_lt; [apply StronglySorted_merge_sort; apply _|].
    rewrite Hp. apply NoDup_fst_map_to_list.
  - by rewrite Hp.
Qed.


(** X15. The summary that [main] prints after a build without error has
    one line for each folder of the citations directory whose name is in
    the table, with the number of entries named [*.bib] in it; the lines
    are in increasing order of the names; the total is the sum of the
    counts of the lines. *)
Theorem main_summary_lines {ucd : UnicodeData}
  (citations_dir c' : path_state root_node) (output_dir out' : path_state out_node)
  (lines : list (text * nat)) (total : nat) :
  build_taxonomies_main citations_dir output_dir = (c', out', Some (lines, total)) ->
  exists citations,
    mkdir_exist_ok citations_dir = Some citations /\
    (forall name count,
       (name, count) ∈ lines <->
       exists entries, known_folder citations name = Some entries /\
         count = length (bib_files entries)) /\
    StronglySorted name_lt lines /\
    total = sum_list (lines.*2).
Proof.
  unfold build_taxonomies_main.
  destruct (build_all_taxonomies citations_dir output_dir) as [[c0 o0] [stats|]] eqn:Hb;
    cbn [fst snd fmap option_fmap option_map]; [|done].
  intros [= -> -> Hl Ht].
  destruct (build_stats_lookup _ _ _ _ _ Hb) as (citations & Hc & Hstats).
  exists citations. split; [done|].
  destruct (build_summary_spec stats) as (Hin & Hsorted & Hsum).
  unfold build_summary in Hin, Hsorted, Hsum. cbn [fst snd] in Hin, Hsorted, Hsum.
  rewrite Hl in Hin, Hsorted, Hsum. rewrite Ht in Hsum.
  split; [|done]. intros name count. rewrite Hin, Hstats.
  destruct (known_folder citations name) as [entries|]; cbn [fmap option_fmap option_map].
  - split; [intros [= <-]; by eexists | by intros (? & [= <-] & ->)].
  - split; [done | by intros (? & ? & _)].
Qed.

Lemma main_summary_lines_witness :
  build_taxonomies_main (Directory citations_with_drafts) Missing
  = ((build_all_taxonomies (Directory citations_with_drafts) Missing).1,
     Some ([(str "surveys", 2%nat)], 2%nat)) /\
  exists citations,
    mkdir_exist_ok (Directory citations_with_drafts) = Some citations /\
    StronglySorted name_lt [(str "surveys", 2%nat)].
Proof.
  assert (H : build_taxonomies_main (Directory citations_with_drafts) Missing
    = ((build_all_taxonomies (Directory citations_with_drafts) Missing).1.1,
       (build_all_taxonomies (Directory citations_with_drafts) Missing).1.2,
       Some ([(str "surveys", 2%nat)], 2%nat))).
  { vm_compute. reflexivity. }
  split; [vm_compute; reflexivity|].
  destruct (main_summary_lines _ _ _ _ _ _ H) as (citations & Hc & _ & Hs & _).
  exists citations. split; [exact Hc | exact Hs].
Defined.

(** ** What the parsed values look like *)

Lemma occurs_in_refl t : occurs_in t t.
Proof. exists [], []. by rewrite app_nil_r. Qed.

Lemma occurs_in_nil t : occurs_in [] t.
Proof. by exists [], t. Qed.

Lemma occurs_in_trans x y t : occurs_in x y -> occurs_in y t -> occurs_in x t.
Proof.
  intros (l1 & r1 & ->) (l2 & r2 & ->). exists (l2 ++ l1), (r1 ++ r2).
  by rewrite <- !app_assoc.
Qed.

Lemma occurs_in_drop x t i : occurs_in x (drop i t) -> occurs_in x t.
Proof.
  intros H. eapply occurs_in_trans; [exact H|].
  exists (take i t), []. by rewrite app_nil_r, take_drop.
Qed.

Lemma strip_occurs_in v : occurs_in (strip v) v.
Proof. destruct (strip_spec v) as (l & r & H & _). by exists l, r. Qed.

Lemma strip_trimmed v : trimmed (strip v).
Proof. destruct (strip_spec v) as (l & r & _ & _ & _ & H1 & H2). by split. Qed.

Lemma occurs_in_elem_of c x t : occurs_in x t -> c ∈ x -> c ∈ t.
Proof. intros (l & r & ->) Hc. rewrite !elem_of_app. auto. Qed.

Lemma brace_field_start_value f s v :
  brace_field_start f s v -> v <> [] /\ (ch "}" ∉ v) /\ occurs_in v s.
Proof.
  intros (post & name & ws1 & ws2 & -> & _ & _ & _ & Hv & Hb). do 2 (split; [done|]).
  exists (name ++ ws1 ++ ch "=" :: ws2 ++ [ch "{"]), (ch "}" :: post).
  by rewrite <- !app_assoc; simpl; rewrite <- !app_assoc.
Qed.

Lemma located_value f t v :
  located f t v -> v <> [] /\ (ch "}" ∉ v) /\ occurs_in v t.
Proof.
  intros (i & Hi & _). destruct (brace_field_start_value _ _ _ Hi) as (Hv & Hb & Ho).
  do 2 (split; [done|]). by eapply occurs_in_drop.
Qed.

Section ValueFacts.
Context {ucd : UnicodeData}.

(** What the parser makes of a search for a field pattern: nothing, or
    the stripped value of the located field. *)
Lemma field_result fl f t :
  IGNORECASE fl = true ->
  (re_search (brace_field_re f) t fl = None /\ absent f t) \/
  exists m, re_search (brace_field_re f) t fl = Some m /\ located f t (group 1 m).
Proof.
  intros Hfl. pose proof (field_search_spec fl f t Hfl) as H.
  destruct (re_search (brace_field_re f) t fl) as [m|]; [right; by exists m | by left].
Qed.

Lemma stripped_value_shape f t v :
  located f t v ->
  (ch "}" ∉ strip v) /\ trimmed (strip v) /\ occurs_in (strip v) t.
Proof.
  intros (Hv & Hb & Ho)%located_value. split; [|split].
  - intros Hin. apply Hb. by eapply occurs_in_elem_of; [apply strip_occurs_in|].
  - apply strip_trimmed.
  - by eapply occurs_in_trans; [apply strip_occurs_in|].
Qed.

Lemma nil_shape t : (ch "}" ∉ @nil N) /\ trimmed [] /\ occurs_in [] t.
Proof. split; [by intros ?%elem_of_nil|]. split; [done|apply occurs_in_nil]. Qed.

Lemma title_shape t :
  let x := Entry.title (parse_bibtex_entry t) in
  (ch "}" ∉ x) /\ trimmed x /\ occurs_in x t.
Proof.
  unfold parse_bibtex_entry; cbn [Entry.title]. unfold title_re.
  destruct (field_result ignorecase "title" t eq_refl) as [[-> _]|(m & -> & H)];
    [apply nil_shape | by eapply stripped_value_shape].
Qed.

Lemma authors_shape t :
  let x := Entry.authors (parse_bibtex_entry t) in
  (ch "}" ∉ x) /\ trimmed x /\ occurs_in x t.
Proof.
  unfold parse_bibtex_entry; cbn [Entry.authors]. unfold author_re.
  destruct (field_result ignorecase "author" t eq_refl) as [[-> _]|(m & -> & H)];
    [apply nil_shape | by eapply stripped_value_shape].
Qed.

Lemma venue_shape t :
  let x := Entry.venue (parse_bibtex_entry t) in
  (ch "}" ∉ x) /\ trimmed x /\ occurs_in x t.
Proof.
  unfold parse_bibtex_entry; cbn [Entry.venue]. unfold journal_re, booktitle_re.
  destruct (field_result ignorecase "journal" t eq_refl) as [[-> _]|(m & -> & H)];
    [|by eapply stripped_value_shape].
  destruct (field_result ignorecase "booktitle" t eq_refl) as [[-> _]|(m & -> & H)];
    [apply nil_shape | by eapply stripped_value_shape].
Qed.

Lemma abstract_shape t :
  let x := Entry.abstract (parse_bibtex_entry t) in
  (ch "}" ∉ x) /\ trimmed x /\ (occurs_in x t \/ x = abstract_placeholder).
Proof.
  unfold parse_bibtex_entry; cbn [Entry.abstract]. unfold abstract_re.
  destruct (field_result ignorecase_dotall "abstract" t eq_refl) as [[-> _]|(m & -> & H)].
  - split; [|split; [|by right]].
    + apply (bool_decide_unpack _). vm_compute. exact I.
    + split; vm_compute; reflexivity.
  - destruct (stripped_value_shape _ _ _ H) as (? & ? & ?). auto.
Qed.

Lemma id_shape t :
  let x := Entry.id (parse_bibtex_entry t) in
  (ch "," ∉ x) /\ trimmed x /\ occurs_in x t.
Proof.
  unfold parse_bibtex_entry; cbn [Entry.id].
  destruct (re_match id_re t no_flags) as [m|] eqn:E.
  - destruct (match_id_inv t) as (ty & key & rest & Hh); [by rewrite E|].
    destruct (match_id _ _ _ _ Hh) as [whole E']. rewrite E in E'. injection E' as ->.
    cbn [group nth]. destruct Hh as (-> & _ & _ & _ & Hc). split; [|split].
    + intros Hin. apply Hc. by eapply occurs_in_elem_of; [apply strip_occurs_in|].
    + apply strip_trimmed.
    + eapply occurs_in_trans; [apply strip_occurs_in|].
      exists (ch "@" :: ty ++ [ch "{"]), (ch "," :: rest).
      simpl. by rewrite <- !app_assoc.
  - split; [by intros ?%elem_of_nil|]. split; [done|apply occurs_in_nil].
Qed.

Lemma year_field_here_value s y :
  year_field_here s y ->
  length y = 4%nat /\ Forall (fun c => isdecimal c = true) y /\ occurs_in y s.
Proof.
  intros (name & ws1 & ws2 & ob & post & -> & _ & _ & _ & _ & Hlen & Hd).
  do 2 (split; [done|]).
  exists (name ++ ws1 ++ ch "=" :: ws2 ++ ob), post.
  by rewrite <- !app_assoc; simpl; rewrite <- !app_assoc.
Qed.

Lemma year_result t :
  (re_search year_re t ignorecase = None /\ year_absent t) \/
  exists m, re_search year_re t ignorecase = Some m /\ year_located t (group 1 m).
Proof.
  pose proof (search_spec ignorecase year_re year_field_here
                (year_matches ignorecase eq_refl) (matches_year ignorecase eq_refl) t) as H.
  destruct (re_search year_re t ignorecase) as [m|]; [right; by exists m | by left].
Qed.

End ValueFacts.

(** X16. The year of a parsed record is the empty string or exactly four
    decimal digits, copied from the text; when the scan locates a year
    ([year = 2020] or [year = {2020], the brace being optional), it is the
    four digits of the first one, with no stripping. *)
Theorem year_is_four_digits {ucd : UnicodeData} (t : text) :
  let year := Entry.year (parse_bibtex_entry t) in
  (year = [] \/ (length year = 4%nat /\ Forall (fun c => isdecimal c = true) year)) /\
  occurs_in year t /\
  (forall y, year_located t y -> year = y) /\
  (year_absent t -> year = []).
Proof.
  cbv zeta. split; [|split; [|split]].
  - unfold parse_bibtex_entry; cbn [Entry.year].
    destruct (year_result t) as [[-> _]|(m & -> & i & Hi & _)]; [by left|right].
    by destruct (year_field_here_value _ _ Hi) as (? & ? & _).
  - unfold parse_bibtex_entry; cbn [Entry.year].
    destruct (year_result t) as [[-> _]|(m & -> & i & Hi & _)]; [apply occurs_in_nil|].
    destruct (year_field_here_value _ _ Hi) as (_ & _ & Ho). by eapply occurs_in_drop.
  - apply parse_year_located.
  - apply parse_year_absent.
Qed.

(** X17. Title, authors, venue and abstract of a parsed record never
    contain a closing brace (a value with nested braces is cut at the
    first one) and have no white space at either end; the id has no comma
    and no white space at either end. *)
Theorem parsed_values_are_clean {ucd : UnicodeData} (t : text) :
  let e := parse_bibtex_entry t in
  Forall (fun x => (ch "}" ∉ x) /\ trimmed x)
         [Entry.title e; Entry.authors e; Entry.venue e; Entry.abstract e] /\
  (ch "," ∉ Entry.id e) /\ trimmed (Entry.id e) /\ trimmed (Entry.bibtex e).
Proof.
  cbv zeta. split; [|split; [|split]].
  - destruct (title_shape t) as (? & ? & _), (authors_shape t) as (? & ? & _),
      (venue_shape t) as (? & ? & _), (abstract_shape t) as (? & ? & _).
    repeat (apply Forall_cons; split; [by split|]). constructor.
  - apply id_shape.
  - apply id_shape.
  - apply strip_trimmed.
Qed.

(** X18. The parser invents no text: id, title, authors, year, venue and
    the source-text field are each a run of consecutive characters of the
    input, and so is the abstract unless it is the placeholder. *)
Theorem parsed_values_from_input {ucd : UnicodeData} (t : text) :
  let e := parse_bibtex_entry t in
  Forall (fun x => occurs_in x t)
         [Entry.id e; Entry.title e; Entry.authors e; Entry.year e; Entry.venue e;
          Entry.bibtex e] /\
  (occurs_in (Entry.abstract e) t \/ Entry.abstract e = str "Abstract not available.").
Proof.
  cbv zeta. split.
  - destruct (id_shape t) as (_ & _ & ?), (title_shape t) as (_ & _ & ?),
      (authors_shape t) as (_ & _ & ?), (venue_shape t) as (_ & _ & ?).
    assert (occurs_in (Entry.year (parse_bibtex_entry t)) t).
    { unfold parse_bibtex_entry; cbn [Entry.year].
      destruct (year_result t) as [[-> _]|(m & -> & i & Hi & _)]; [apply occurs_in_nil|].
      destruct (year_field_here_value _ _ Hi) as (_ & _ & Ho). by eapply occurs_in_drop. }
    repeat (apply Forall_cons; split; [done|]);
      [apply Forall_cons; split; [apply strip_occurs_in | constructor]].
  - apply abstract_shape.
Qed.

(** X19. Title and authors are the values of the first place where the
    text has the shape [title = {value}] and [author = {value}], without
    the white space at their ends; when the text has no such place they
    are the empty string. *)
Theorem title_and_authors_located {ucd : UnicodeData} (t : text) :
  (forall v, located "title" t v -> Entry.title (parse_bibtex_entry t) = strip v) /\
  (absent "title" t -> Entry.title (parse_bibtex_entry t) = []) /\
  (forall v, located "author" t v -> Entry.authors (parse_bibtex_entry t) = strip v) /\
  (absent "author" t -> Entry.authors (parse_bibtex_entry t) = []).
Proof.
  split; [|split; [|split]].
  - apply parse_title_located.
  - apply parse_title_absent.
  - apply parse_authors_located.
  - apply parse_authors_absent.
Qed.

(** ** Parsing the stored source text again *)

Lemma isspace_false_range c : 33 <= c -> c <= 132 -> isspace c = false.
Proof.
  intros H1 H2. unfold isspace.
  repeat match goal with
  | |- context [N.eqb ?a ?b] => destruct (N.eqb_spec a b); [lia|]
  | |- context [N.leb ?a ?b] => destruct (N.leb_spec0 a b); try lia
  end; reflexivity.
Qed.

Lemma ignorecase_letter_not_space l c :
  97 <= l -> l <= 122 -> ignorecase_eq l c = true -> isspace c = false.
Proof.
  intros H1 H2. unfold ignorecase_eq.
  assert (El : ascii_lower l = l).
  { unfold ascii_lower. destruct (N.leb_spec0 65 l); [|done].
    destruct (N.leb_spec0 l 90); [lia|done]. }
  rewrite El. intros H.
  repeat (apply orb_true_iff in H as [H|H]).
  - apply N.eqb_eq in H. unfold ascii_lower in H.
    destruct (N.leb_spec0 65 c); [|simpl in H; subst; apply isspace_false_range; lia].
    destruct (N.leb_spec0 c 90); simpl in H; apply isspace_false_range; lia.
  - apply andb_true_iff in H as [_ H].
    apply orb_true_iff in H as [H|H]; apply N.eqb_eq in H; subst; reflexivity.
  - apply andb_true_iff in H as [_ H]. apply N.eqb_eq in H. subst. reflexivity.
  - apply andb_true_iff in H as [_ H]. apply N.eqb_eq in H. subst. reflexivity.
Qed.

(** A text that ends with the solid character [c], at the start of a text
    that ends with white space, lies before the white space. *)
Lemma solid_end_before_spaces (m : text) (c : N) (post s r : text) :
  (m ++ [c]) ++ post = s ++ r -> isspace c = false -> spaces r ->
  exists post', s = (m ++ [c]) ++ post' /\ post = post' ++ r.
Proof.
  intros E Hc Hr. apply app_eq_app in E as (l & [[E1 E2]|[E1 E2]]).
  - destruct l as [|x l _] using rev_ind.
    + exists []. rewrite app_nil_r in E1. by rewrite app_nil_r, E2.
    + exfalso. rewrite app_assoc in E1. apply app_inj_tail in E1 as [_ ->].
      subst r. unfold spaces in Hr. rewrite <- app_assoc in Hr.
      apply Forall_app in Hr as [_ Hr]. inversion Hr; congruence.
  - by exists l.
Qed.

Section Padding.
Variable here : text -> text -> Prop.
Hypothesis here_solid : forall s v, here s v -> starts_solid s.
Hypothesis here_more : forall s v r, here s v -> here (s ++ r) v.
Hypothesis here_less : forall s v r, spaces r -> here (s ++ r) v -> here s v.

Lemma spaces_not_solid (s : text) : spaces s -> ~ starts_solid s.
Proof.
  destruct s as [|c s]; [by intros _ ?|]. intros H. inversion H; subst. simpl. congruence.
Qed.

Lemma here_in_padding (l core r : text) i v :
  spaces l -> spaces r ->
  here (drop i (l ++ core ++ r)) v <->
  (length l <= i)%nat /\ here (drop (i - length l) core) v.
Proof.
  intros Hl Hr. destruct (decide (length l <= i)%nat) as [Hle|Hlt].
  - rewrite drop_app_ge by done.
    destruct (decide (i - length l <= length core)%nat) as [Hin|Hout].
    + rewrite drop_app_le by done. split.
      * intros H. split; [done|]. by eapply here_less.
      * intros [_ H]. by apply here_more.
    + rewrite drop_app_ge by lia. rewrite (drop_ge core) by lia. split.
      * intros H%here_solid. exfalso. revert H. apply spaces_not_solid.
        by apply Forall_drop.
      * by intros [_ H%here_solid].
  - split; [|intros [? _]; lia].
    intros H%here_solid. exfalso. revert H.
    rewrite drop_app_le by lia.
    destruct (drop i l) as [|c l'] eqn:E.
    { apply (f_equal length) in E. rewrite length_drop in E. simpl in E. lia. }
    simpl. assert (Hc : spaces (c :: l')) by (rewrite <- E; by apply Forall_drop).
    inversion Hc; subst. congruence.
Qed.

Lemma first_at_padding (l core r v : text) :
  spaces l -> spaces r ->
  first_at here (l ++ core ++ r) v <-> first_at here core v.
Proof.
  intros Hl Hr. split.
  - intros (i & Hi & Hmin). apply here_in_padding in Hi as [Hle Hi]; [|done..].
    exists (i - length l)%nat. split; [done|]. intros j v' Hj Hv'.
    apply (Hmin (length l + j)%nat v'); [lia|].
    apply here_in_padding; [done..|]. split; [lia|].
    by replace (length l + j - length l)%nat with j by lia.
  - intros (i & Hi & Hmin). exists (length l + i)%nat. split.
    + apply here_in_padding; [done..|]. split; [lia|].
      by replace (length l + i - length l)%nat with i by lia.
    + intros j v' Hj Hv'. apply here_in_padding in Hv' as [Hle Hv']; [|done..].
      apply (Hmin (j - length l)%nat v'); [lia|done].
Qed.

Lemma nowhere_padding (l core r : text) :
  spaces l -> spaces r ->
  nowhere here (l ++ core ++ r) <-> nowhere here core.
Proof.
  intros Hl Hr. split.
  - intros H i v Hv. apply (H (length l + i)%nat v).
    apply here_in_padding; [done..|]. split; [lia|].
    by replace (length l + i - length l)%nat with i by lia.
  - intros H i v Hv. apply here_in_padding in Hv as [_ Hv]; [|done..].
    by apply (H (i - length l)%nat v).
Qed.

End Padding.

Ltac reassoc :=
  repeat (rewrite <- app_assoc || rewrite <- app_comm_cons); try reflexivity.

Lemma brace_field_solid f s v :
  letter_first f -> brace_field_start f s v -> starts_solid s.
Proof.
  unfold letter_first. intros Hf (post & name & ws1 & ws2 & -> & Hn & _).
  unfold ci_name in Hn. destruct (str f) as [|l ls]; [done|].
  inversion Hn as [|?? c name' Hc Hrest]; subst. simpl.
  apply (ignorecase_letter_not_space l); [apply Hf | apply Hf | done].
Qed.

Lemma brace_field_more f s v r :
  brace_field_start f s v -> brace_field_start f (s ++ r) v.
Proof.
  intros (post & name & ws1 & ws2 & -> & H). exists (post ++ r), name, ws1, ws2.
  split; [|done]. by reassoc.
Qed.

Lemma brace_field_less f s v r :
  spaces r -> brace_field_start f (s ++ r) v -> brace_field_start f s v.
Proof.
  intros Hr (post & name & ws1 & ws2 & E & H).
  destruct (solid_end_before_spaces (name ++ ws1 ++ ch "=" :: ws2 ++ ch "{" :: v)
              (ch "}") post s r) as (post' & -> & ->); [|done|done|].
  - rewrite E. by reassoc.
  - exists post', name, ws1, ws2. split; [|done]. by reassoc.
Qed.

Section Reparse.
Context {ucd : UnicodeData}.

Lemma decimal_not_space c : isdecimal c = true -> isspace c = false.
Proof.
  intros Hd. destruct (isspace c) eqn:Hs; [|done].
  by rewrite (isspace_not_decimal c Hs) in Hd.
Qed.

Lemma year_field_solid s y : year_field_here s y -> starts_solid s.
Proof.
  intros (name & ws1 & ws2 & ob & post & -> & Hn & _).
  unfold ci_name in Hn. inversion Hn as [|l c ls name' Hc Hrest]; subst. simpl.
  by apply (ignorecase_letter_not_space (ch "y")).
Qed.

Lemma year_field_more s y r : year_field_here s y -> year_field_here (s ++ r) y.
Proof.
  intros (name & ws1 & ws2 & ob & post & -> & H).
  exists name, ws1, ws2, ob, (post ++ r). split; [|done]. by reassoc.
Qed.

Lemma year_field_less s y r :
  spaces r -> year_field_here (s ++ r) y -> year_field_here s y.
Proof.
  intros Hr (name & ws1 & ws2 & ob & post & E & Hn & H1 & H2 & Hob & Hlen & Hd).
  destruct y as [|d y _] using rev_ind; [done|].
  apply Forall_app in Hd as [Hy Hd']. inversion Hd' as [|?? Hdec _]; subst.
  destruct (solid_end_before_spaces (name ++ ws1 ++ ch "=" :: ws2 ++ ob ++ y) d post s r)
    as (post' & -> & ->); [|by apply decimal_not_space|done|].
  - rewrite E. by reassoc.
  - exists name, ws1, ws2, ob, post'. split; [by reassoc|].
    do 5 (split; [done|]). apply Forall_app. split; [done|by constructor].
Qed.

Lemma header_more t ty key rest r :
  header_here t ty key rest -> header_here (t ++ r) ty key (rest ++ r).
Proof. intros (-> & H). split; [|done]. by reassoc. Qed.

Lemma header_less t ty key rest r :
  spaces r -> header_here (t ++ r) ty key rest ->
  exists rest', header_here t ty key rest'.
Proof.
  intros Hr (E & H).
  destruct (solid_end_before_spaces (ch "@" :: ty ++ ch "{" :: key) (ch ",") rest t r)
    as (rest' & -> & ->); [|done|done|].
  - rewrite E. by reassoc.
  - exists rest'. split; [|done]. by reassoc.
Qed.

(** The text around its stripped part. *)
Lemma strip_padding t :
  exists l r, t = l ++ strip t ++ r /\ spaces l /\ spaces r /\ (stops isspace t -> l = []).
Proof.
  unfold strip. destruct (lstrip_spec t) as (l & Ht & Hl & _).
  destruct (rstrip_spec (lstrip t)) as (r & Hu & Hr & _).
  exists l, r. split; [by rewrite <- Hu|]. do 2 (split; [done|]).
  intros Hs. rewrite (lstrip_id t Hs) in Ht.
  apply (f_equal length) in Ht. rewrite length_app in Ht.
  destruct l; [done|simpl in Ht; lia].
Qed.

Lemma located_strip f t v :
  letter_first f -> located f (strip t) v <-> located f t v.
Proof.
  intros Hf. destruct (strip_padding t) as (l & r & Ht & Hl & Hr & _).
  rewrite Ht at 2. symmetry. unfold located. apply first_at_padding; try done.
  - intros s v'. by apply brace_field_solid.
  - intros s v' r'. apply brace_field_more.
  - intros s v' r'. apply brace_field_less.
Qed.

Lemma absent_strip f t :
  letter_first f -> absent f (strip t) <-> absent f t.
Proof.
  intros Hf. destruct (strip_padding t) as (l & r & Ht & Hl & Hr & _).
  rewrite Ht at 2. symmetry. unfold absent. apply nowhere_padding; try done.
  - intros s v'. by apply brace_field_solid.
  - intros s v' r'. apply brace_field_more.
  - intros s v' r'. apply brace_field_less.
Qed.

Lemma year_located_strip t y : year_located (strip t) y <-> year_located t y.
Proof.
  destruct (strip_padding t) as (l & r & Ht & Hl & Hr & _).
  rewrite Ht at 2. symmetry. unfold year_located. apply first_at_padding; try done.
  - apply year_field_solid.
  - apply year_field_more.
  - apply year_field_less.
Qed.

Lemma year_absent_strip t : year_absent (strip t) <-> year_absent t.
Proof.
  destruct (strip_padding t) as (l & r & Ht & Hl & Hr & _).
  rewrite Ht at 2. symmetry. unfold year_absent. apply nowhere_padding; try done.
  - apply year_field_solid.
  - apply year_field_more.
  - apply year_field_less.
Qed.

Lemma letter_first_names :
  letter_first "title" /\ letter_first "author" /\ letter_first "journal" /\
  letter_first "booktitle" /\ letter_first "abstract".
Proof. unfold letter_first. repeat split; vm_compute; congruence. Qed.

Lemma title_strip t :
  Entry.title (parse_bibtex_entry (strip t)) = Entry.title (parse_bibtex_entry t).
Proof.
  destruct letter_first_names as (Hf & _).
  destruct (field_result ignorecase "title" t eq_refl) as [[_ H]|(m & _ & H)].
  - rewrite (parse_title_absent t H). by apply parse_title_absent, absent_strip.
  - rewrite (parse_title_located t _ H). by apply parse_title_located, located_strip.
Qed.

Lemma authors_strip t :
  Entry.authors (parse_bibtex_entry (strip t)) = Entry.authors (parse_bibtex_entry t).
Proof.
  destruct letter_first_names as (_ & Hf & _).
  destruct (field_result ignorecase "author" t eq_refl) as [[_ H]|(m & _ & H)].
  - rewrite (parse_authors_absent t H). by apply parse_authors_absent, absent_strip.
  - rewrite (parse_authors_located t _ H). by apply parse_authors_located, located_strip.
Qed.

Lemma abstract_strip t :
  Entry.abstract (parse_bibtex_entry (strip t)) = Entry.abstract (parse_bibtex_entry t).
Proof.
  destruct letter_first_names as (_ & _ & _ & _ & Hf).
  destruct (field_result ignorecase "abstract" t eq_refl) as [[_ H]|(m & _ & H)].
  - rewrite (parse_abstract_absent t H). by apply parse_abstract_absent, absent_strip.
  - rewrite (parse_abstract_located t _ H). by apply parse_abstract_located, located_strip.
Qed.

Lemma venue_strip t :
  Entry.venue (parse_bibtex_entry (strip t)) = Entry.venue (parse_bibtex_entry t).
Proof.
  destruct letter_first_names as (_ & _ & Hj & Hb & _).
  destruct (field_result ignorecase "journal" t eq_refl) as [[_ H]|(m & _ & H)].
  - destruct (field_result ignorecase "booktitle" t eq_refl) as [[_ H']|(m & _ & H')].
    + rewrite (parse_venue_absent t H H').
      by apply parse_venue_absent; apply absent_strip.
    + rewrite (parse_venue_booktitle t _ H H').
      by apply parse_venue_booktitle; [apply absent_strip | apply located_strip].
  - rewrite (parse_venue_journal t _ H). by apply parse_venue_journal, located_strip.
Qed.

Lemma year_strip t :
  Entry.year (parse_bibtex_entry (strip t)) = Entry.year (parse_bibtex_entry t).
Proof.
  destruct (year_result t) as [[_ H]|(m & _ & H)].
  - rewrite (parse_year_absent t H). by apply parse_year_absent, year_absent_strip.
  - rewrite (parse_year_located t _ H). by apply parse_year_located, year_located_strip.
Qed.

Lemma id_strip t :
  stops isspace t ->
  Entry.id (parse_bibtex_entry (strip t)) = Entry.id (parse_bibtex_entry t).
Proof.
  intros Hs. destruct (strip_padding t) as (l & r & Ht & _ & Hr & Hl).
  rewrite (Hl Hs) in Ht. simpl in Ht.
  destruct (re_match id_re t no_flags) as [m|] eqn:E.
  - destruct (match_id_inv t) as (ty & key & rest & Hh); [by rewrite E|].
    rewrite (parse_id_header t _ _ _ Hh).
    rewrite Ht in Hh. apply header_less in Hh as [rest' Hh]; [|done].
    by apply (parse_id_header _ ty key rest').
  - rewrite (parse_id_no_header t); [|by apply no_header_intro].
    apply parse_id_no_header. intros ty key rest Hh.
    apply (header_more _ _ _ _ r) in Hh. rewrite <- Ht in Hh.
    by apply (no_header_intro t E) in Hh.
Qed.

Lemma id_after_space t : ~ stops isspace t -> Entry.id (parse_bibtex_entry t) = [].
Proof.
  intros Hs. apply parse_id_no_header. intros ty key rest (-> & _).
  apply Hs. reflexivity.
Qed.

End Reparse.

(** X20. Parsing the stored source text of a record again gives the same
    title, authors, year, venue, abstract and source text.  It gives the
    same id when the input did not start with white space; an input that
    starts with white space has the empty id, whatever follows. *)
Theorem reparse_stored_source {ucd : UnicodeData} (t : text) :
  let e := parse_bibtex_entry t in
  let e' := parse_bibtex_entry (Entry.bibtex e) in
  Entry.title e' = Entry.title e /\ Entry.authors e' = Entry.authors e /\
  Entry.year e' = Entry.year e /\ Entry.venue e' = Entry.venue e /\
  Entry.abstract e' = Entry.abstract e /\ Entry.bibtex e' = Entry.bibtex e /\
  (stops isspace t -> Entry.id e' = Entry.id e) /\
  (~ stops isspace t -> Entry.id e = []).
Proof.
  cbv zeta. change (Entry.bibtex (parse_bibtex_entry t)) with (strip t).
  split; [apply title_strip|]. split; [apply authors_strip|].
  split; [apply year_strip|]. split; [apply venue_strip|].
  split; [apply abstract_strip|]. split; [|split].
  - change (Entry.bibtex (parse_bibtex_entry (strip t))) with (strip (strip t)).
    apply strip_id; apply strip_trimmed.
  - apply id_strip.
  - apply id_after_space.
Qed.

Lemma year_is_four_digits_witness :
  let t := str "@misc{k, Year = {1999}}" in
  year_located t (str "1999") /\ Entry.year (parse_bibtex_entry t) = str "1999".
Proof.
  intros t.
  assert (H : year_located t (str "1999")).
  { pose proof (search_spec ignorecase year_re year_field_here
                  (year_matches ignorecase eq_refl) (matches_year ignorecase eq_refl) t) as H.
    assert (E : exists m, re_search year_re t ignorecase = Some m /\ group 1 m = str "1999").
    { eexists. split; vm_compute; reflexivity. }
    destruct E as (m & Em & <-). by rewrite Em in H. }
  split; [exact H|].
  exact (proj1 (proj2 (proj2 (year_is_four_digits t))) _ H).
Defined.

Lemma title_and_authors_located_witness :
  let t := str "@misc{k, author = { A. Doe }, note = {n}}" in
  located "author" t (str " A. Doe ") /\ absent "title" t /\
  Entry.authors (parse_bibtex_entry t) = strip (str " A. Doe ") /\
  Entry.title (parse_bibtex_entry t) = [].
Proof.
  intros t.
  assert (Ha : located "author" t (str " A. Doe ")).
  { eapply located_intro; vm_compute; reflexivity. }
  assert (Ht : absent "title" t).
  { apply absent_intro. vm_compute. reflexivity. }
  pose proof (title_and_authors_located t) as (_ & H2 & H3 & _).
  split; [exact Ha|]. split; [exact Ht|]. split; [exact (H3 _ Ha) | exact (H2 Ht)].
Defined.

Lemma reparse_stored_source_witness :
  let t := str "@misc{k, title = {T}} " in
  stops isspace t /\
  Entry.id (parse_bibtex_entry (Entry.bibtex (parse_bibtex_entry t)))
  = Entry.id (parse_bibtex_entry t).
Proof.
  intros t. assert (Hs : stops isspace t) by (vm_compute; reflexivity).
  split; [exact Hs|].
  pose proof (reparse_stored_source t) as H. cbv zeta in H.
  exact (proj1 (proj2 (proj2 (proj2 (proj2 (proj2 (proj2 H)))))) Hs).
Defined.

(** ** The two scripts, one after the other *)

Lemma bib_files_empty : bib_files ∅ = [].
Proof. unfold bib_files, glob_bib, iterdir. by rewrite map_to_list_empty. Qed.

Lemma known_category_elem_of name :
  known_category CATEGORY_INFO name = true <-> name ∈ CATEGORY_INFO.*1.
Proof. unfold known_category. apply bool_decide_eq_true. Qed.

(** X21. The build driver after the folder initializer: when both ran
    without error, every category folder that the initializer created is
    counted with zero papers, a category folder that was there before is
    counted with its entries named [*.bib], and nothing outside the
    category table is counted. *)
Theorem build_after_setup {ucd : UnicodeData}
  (citations_dir after_state c' : path_state root_node) (counts : nat * nat)
  (output_dir out' : path_state out_node) (stats : gmap text nat) :
  setup_folders_main citations_dir = (after_state, Some counts) ->
  build_all_taxonomies after_state output_dir = (c', out', Some stats) ->
  exists before,
    mkdir_exist_ok citations_dir = Some before /\
    (forall name, name ∈ CATEGORIES.*1 -> before !! name = None ->
       stats !! name = Some 0%nat) /\
    (forall name entries, name ∈ CATEGORIES.*1 ->
       before !! name = Some (Folder entries) ->
       stats !! name = Some (length (bib_files entries))) /\
    (forall name, is_Some (stats !! name) -> name ∈ CATEGORIES.*1).
Proof.
  unfold setup_folders_main.
  destruct (mkdir_exist_ok citations_dir) as [before|]; [|done].
  destruct (setup_loop (CATEGORIES.*1) before 0 0) as [after [[c e]|]] eqn:Hloop;
    cbn [fst snd]; [|done].
  intros [= <- <-] Hbuild. exists before. split; [done|].
  destruct (setup_loop_spec _ _ _ _ _ _ _ CATEGORIES_NoDup Hloop) as (Hafter & _).
  destruct (build_stats_lookup _ _ _ _ _ Hbuild) as (citations & [= <-] & Hstats).
  split; [|split].
  - intros name Hname Hnone. rewrite Hstats. unfold known_folder.
    rewrite Hafter, Hnone. destruct (decide (name ∈ CATEGORIES.*1)); [|done].
    rewrite (proj2 (known_category_elem_of name) Hname).
    cbn [fmap option_fmap option_map]. by rewrite bib_files_empty.
  - intros name entries Hname Hsome. rewrite Hstats. unfold known_folder.
    rewrite Hafter, Hsome. by rewrite (proj2 (known_category_elem_of name) Hname).
  - intros name [count Hcount]. rewrite Hstats in Hcount. unfold known_folder in Hcount.
    destruct (after !! name) as [[|entries|]|]; try done.
    destruct (known_category CATEGORY_INFO name) eqn:Hk; [|done].
    by apply known_category_elem_of.
Qed.

Lemma build_after_setup_witness :
  exists after_state counts c' out' stats,
    setup_folders_main Missing = (after_state, Some counts) /\
    build_all_taxonomies after_state Missing = (c', out', Some stats) /\
    stats !! str "fairness" = Some 0%nat.
Proof.
  assert (Hs : setup_folders_main Missing
               = ((setup_folders_main Missing).1, Some (10, 0)%nat)).
  { vm_compute. reflexivity. }
  assert (Hok : is_true (bool_decide
                  (is_Some (build_all_taxonomies (setup_folders_main Missing).1 Missing).2))).
  { vm_compute. reflexivity. }
  destruct (build_all_taxonomies (setup_folders_main Missing).1 Missing)
    as [[c' out'] [stats|]] eqn:Hb.
  - exists (setup_folders_main Missing).1, (10, 0)%nat, c', out', stats.
    split; [exact Hs|]. split; [exact Hb|].
    destruct (build_after_setup _ _ _ _ _ _ _ Hs Hb) as (before & Hbefore & Hzero & _).
    injection Hbefore as <-.
    apply Hzero; [|apply lookup_empty].
    apply (bool_decide_unpack _). vm_compute. exact I.
  - exfalso. cbn [snd] in Hok. discriminate Hok.
Defined.
